(** * The maze game of [src/App.tsx]: entities, ghosts, the frame step

    A shallow embedding of the simulation code of [App.tsx] (the classes
    [Entity], [Ghost], [UltimateGhost] and the closures [initGame],
    [handleKeyDown], [draw] and the pellet respawn interval of [App]), and
    the properties of it that the specification states.

    Numbers.  A JavaScript [number] that holds a pixel coordinate, a speed
    or a distance is modelled as a mathematical real ([R]); the functions of
    [Math] are their real counterparts.  Rounding of IEEE doubles is
    therefore outside the model.  A [number] that is only ever an array
    index or a counter (grid cells, score, pellet count) is an integer
    ([Z]).

    React state.  [score], [gameState] and [pelletsLeft] are the values of
    [useState]; React queues the calls of their setters and applies them,
    in the order in which they were made, when it next renders.  A frame
    therefore carries the list of its calls of [setGameState], and the phase
    after the frame is the last of them.  The call inside the updater that
    [draw] passes to [setPelletsLeft] is made when React runs the updater,
    which is at that render ([setScore] has queued an update just before, so
    the updater is not run on the spot): it comes after the calls that [draw]
    makes itself.

    Rendering.  The canvas calls of [draw], the colour of a ghost and the
    mouth animation write nothing that the simulation reads back; they are
    left out. *)

From Stdlib Require Import String Reals Lra Lia ZArith List Bool Sorted.
Import ListNotations.

Open Scope R_scope.

(** ** Numbers and [Math] *)

Definition Rltb (a b : R) : bool := if Rlt_dec a b then true else false.

Module Math.

Definition abs (r : R) : R := Rabs r.

(** [Math.floor]: the greatest integer below or equal to [r]. *)
Definition floor (r : R) : Z := Int_part r.

Definition hypot (a b : R) : R := sqrt (a * a + b * b).

(** [Math.atan2(y, x)], by quadrant, as ECMAScript defines it on finite
    arguments ([atan2(0, 0)] is [0]). *)
Definition atan2 (b a : R) : R :=
  if Rlt_dec 0 a then atan (b / a)
  else if Rlt_dec a 0 then
    if Rlt_dec b 0 then atan (b / a) - PI else atan (b / a) + PI
  else if Rlt_dec 0 b then PI / 2
  else if Rlt_dec b 0 then - (PI / 2)
  else 0.

Definition cos (r : R) : R := Rtrigo_def.cos r.
Definition sin (r : R) : R := Rtrigo_def.sin r.

(** [Math.random()] is an input of the model: a generator is the stream of
    the values the successive calls return. *)
Definition Rng : Type := nat -> R.

Definition random (g : Rng) : R * Rng := (g O, fun n => g (S n)).

End Math.

(** ** Constants of [./constants] and types *)

Inductive Direction : Type := UP | DOWN | LEFT | RIGHT.

(** The type [Direction] of the source is ['UP' | 'DOWN' | 'LEFT' | 'RIGHT' |
    null]; [null] (and [undefined], equally falsy) is [None]. *)
Definition Dir : Type := option Direction.

(** Modelled from the spec: the enum [TileType] of [./constants], a file
    that is not among the sources.  The specification lists five kinds of
    tile; the names are those the code uses ([TileType.WALL], ...).  The
    numeric codes do not matter: the code only compares tiles with [===]. *)
Module TileType.
Inductive t : Type := WALL | EMPTY | PELLET | PACMAN_START | GHOST_START.

Definition eqb (a b : t) : bool :=
  match a, b with
  | WALL, WALL | EMPTY, EMPTY | PELLET, PELLET
  | PACMAN_START, PACMAN_START | GHOST_START, GHOST_START => true
  | _, _ => false
  end.

End TileType.

(** A maze, [number[][]]: rows of tiles, indexed [map[y][x]]. *)
Definition Grid : Type := list (list TileType.t).

(** [map[y]]: [None] is [undefined]. *)
Definition rowAt (map : Grid) (gy : Z) : option (list TileType.t) :=
  if (gy <? 0)%Z then None else nth_error map (Z.to_nat gy).

(** [row[x]]: [None] is [undefined]. *)
Definition cellAt (row : list TileType.t) (gx : Z) : option TileType.t :=
  if (gx <? 0)%Z then None else nth_error row (Z.to_nat gx).

(** [map[y][x]], [None] where the row or the cell is [undefined]. *)
Definition tileAt (map : Grid) (cx cy : Z) : option TileType.t :=
  match rowAt map cy with
  | Some row => cellAt row cx
  | None => None
  end.

(** [o === tile] for a cell that may be [undefined]. *)
Definition isTile (o : option TileType.t) (tile : TileType.t) : bool :=
  match o with
  | Some c => TileType.eqb c tile
  | None => false
  end.

(** [l[i] = v] for an index inside [l] (the source writes only cells it has
    just read a tile from; outside [l] the list is left as it is). *)
Fixpoint setNth {A : Type} (l : list A) (i : nat) (v : A) : list A :=
  match l, i with
  | [], _ => []
  | _ :: t, O => v :: t
  | a :: t, S j => a :: setNth t j v
  end.

(** [map[y][x] = v]. *)
Definition setCell (map : Grid) (gx gy : Z) (v : TileType.t) : Grid :=
  match rowAt map gy with
  | Some row =>
      if (gx <? 0)%Z then map
      else setNth map (Z.to_nat gy) (setNth row (Z.to_nat gx) v)
  | None => map
  end.

(** ** class Entity *)

Record Entity : Type := mkEntity {
  x : R;
  y : R;
  gridX : Z;
  gridY : Z;
  direction : Dir;
  nextDirection : Dir;
  speed : R
}.

Definition isSome {A : Type} (o : option A) : bool :=
  match o with Some _ => true | None => false end.

(** The fields that [Ghost] adds to [Entity] ([color] is left out). *)
Record Ghost : Type := mkGhost {
  super : Entity;
  isMerging : bool;
  merged : bool
}.

(** An [UltimateGhost] has the fields of a [Ghost]. *)
Definition UltimateGhost : Type := Ghost.

(** ** The state of [App] *)

Inductive GameState : Type := START | PLAYING | WON | LOST.

Definition GameState_eqb (a b : GameState) : bool :=
  match a, b with
  | START, START | PLAYING, PLAYING | WON, WON | LOST, LOST => true
  | _, _ => false
  end.

(** The object of the ref [gameData] (without [animationId], [mouthOpen] and
    [mouthDir], which only the rendering uses). *)
Module GameData.
Record t : Type := mk {
  pacman : option Entity;
  ghosts : list Ghost;
  ultimateGhost : option UltimateGhost;
  map : Grid;
  score : Z
}.
End GameData.

(** The state of the component: the three [useState] cells and the ref. *)
Record App : Type := mkApp {
  score : Z;
  gameState : GameState;
  pelletsLeft : Z;
  gameData : GameData.t
}.

(** The component as mounted. *)
Definition mount : App :=
  {| score := 0; gameState := START; pelletsLeft := 0;
     gameData := {| GameData.pacman := None; GameData.ghosts := [];
                    GameData.ultimateGhost := None; GameData.map := [];
                    GameData.score := 0 |} |}.

Section Simulation.

(** [TILE_SIZE] of [./constants], a file that is not part of the sources at
    hand: a parameter. *)
Variable TILE_SIZE : R.

(** [constructor(gridX, gridY)] *)
Definition newEntity (gx gy : Z) : Entity :=
  {| x := IZR gx * TILE_SIZE + TILE_SIZE / 2;
     y := IZR gy * TILE_SIZE + TILE_SIZE / 2;
     gridX := gx; gridY := gy;
     direction := None; nextDirection := None; speed := 2 |}.

(** [canMove(dir, map)] *)
Definition canMove (e : Entity) (dir : Dir) (map : Grid) : bool :=
  match dir with
  | None => false
  | Some d =>
      let nextGridX :=
        match d with
        | LEFT => (gridX e - 1)%Z | RIGHT => (gridX e + 1)%Z
        | _ => gridX e
        end in
      let nextGridY :=
        match d with
        | UP => (gridY e - 1)%Z | DOWN => (gridY e + 1)%Z
        | _ => gridY e
        end in
      if (nextGridY <? 0)%Z
         || (nextGridY >=? Z.of_nat (length map))%Z
         || (nextGridX <? 0)%Z
         || (nextGridX >=? Z.of_nat (length (nth 0 map [])))%Z
      then false
      else
        match rowAt map nextGridY with
        | Some row => negb (isTile (cellAt row nextGridX) TileType.WALL)
        | None => false
        end
  end.

(** The block [if (this.direction) { ... }] that ends [updatePosition],
    [updateAI] and [updateChasingAI] alike: one move of [speed] units along
    the direction, then the grid cell recomputed. *)
Definition moveAlong (e : Entity) : Entity :=
  match direction e with
  | None => e
  | Some d =>
      let x' := match d with
                | LEFT => x e - speed e | RIGHT => x e + speed e
                | _ => x e
                end in
      let y' := match d with
                | UP => y e - speed e | DOWN => y e + speed e
                | _ => y e
                end in
      {| x := x'; y := y';
         gridX := Math.floor (x' / TILE_SIZE);
         gridY := Math.floor (y' / TILE_SIZE);
         direction := direction e; nextDirection := nextDirection e;
         speed := speed e |}
  end.

Definition centerX (e : Entity) : R := IZR (gridX e) * TILE_SIZE + TILE_SIZE / 2.
Definition centerY (e : Entity) : R := IZR (gridY e) * TILE_SIZE + TILE_SIZE / 2.

(** [atCenter], with [s] the speed the caller compares against. *)
Definition atCenter (e : Entity) (s : R) : bool :=
  Rltb (Math.abs (x e - centerX e)) s && Rltb (Math.abs (y e - centerY e)) s.

(** [this.x = centerX; this.y = centerY] *)
Definition snap (e : Entity) : Entity :=
  {| x := centerX e; y := centerY e;
     gridX := gridX e; gridY := gridY e;
     direction := direction e; nextDirection := nextDirection e;
     speed := speed e |}.

Definition setDirection (e : Entity) (d : Dir) : Entity :=
  {| x := x e; y := y e; gridX := gridX e; gridY := gridY e;
     direction := d; nextDirection := nextDirection e; speed := speed e |}.

Definition setNextDirection (e : Entity) (d : Dir) : Entity :=
  {| x := x e; y := y e; gridX := gridX e; gridY := gridY e;
     direction := direction e; nextDirection := d; speed := speed e |}.

Definition setSpeed (e : Entity) (s : R) : Entity :=
  {| x := x e; y := y e; gridX := gridX e; gridY := gridY e;
     direction := direction e; nextDirection := nextDirection e; speed := s |}.

(** [updatePosition(map)] *)
Definition updatePosition (map : Grid) (e : Entity) : Entity :=
  let e1 :=
    if atCenter e (speed e) then
      let e0 := snap e in
      if isSome (nextDirection e0) && canMove e0 (nextDirection e0) map then
        setNextDirection (setDirection e0 (nextDirection e0)) None
      else if isSome (direction e0) && negb (canMove e0 (direction e0) map) then
        setDirection e0 None
      else e0
    else e in
  moveAlong e1.

(** ** class Ghost *)

(** [constructor(gridX, gridY, color)] *)
Definition newGhost (gx gy : Z) : Ghost :=
  {| super := setSpeed (newEntity gx gy) 2; isMerging := false; merged := false |}.

Definition targetX : R := 9 * TILE_SIZE + TILE_SIZE / 2.
Definition targetY : R := 9 * TILE_SIZE + TILE_SIZE / 2.

(** The branch [if (this.isMerging) { ... return; }] of [updateAI]. *)
Definition converge (g : Ghost) : Ghost :=
  let e := super g in
  let angle := Math.atan2 (targetY - y e) (targetX - x e) in
  let x1 := x e + Math.cos angle * speed e in
  let y1 := y e + Math.sin angle * speed e in
  let gx := Math.floor (x1 / TILE_SIZE) in
  let gy := Math.floor (y1 / TILE_SIZE) in
  let distToTarget := Math.hypot (x1 - targetX) (y1 - targetY) in
  if Rltb distToTarget 5 then
    {| super := {| x := targetX; y := targetY; gridX := gx; gridY := gy;
                   direction := None; nextDirection := nextDirection e;
                   speed := speed e |};
       isMerging := isMerging g; merged := true |}
  else
    {| super := {| x := x1; y := y1; gridX := gx; gridY := gy;
                   direction := direction e; nextDirection := nextDirection e;
                   speed := speed e |};
       isMerging := isMerging g; merged := merged g |}.

Definition directions : list Direction := [UP; DOWN; LEFT; RIGHT].

Definition isReverse (cur : Dir) (d : Direction) : bool :=
  match cur, d with
  | Some UP, DOWN | Some DOWN, UP | Some LEFT, RIGHT | Some RIGHT, LEFT => true
  | _, _ => false
  end.

(** [directions.filter(dir => this.canMove(dir, map))] *)
Definition legal (e : Entity) (map : Grid) : list Direction :=
  filter (fun dir => canMove e (Some dir) map) directions.

(** The array [available] of [updateAI]. *)
Definition available (e : Entity) (map : Grid) : list Direction :=
  filter (fun d =>
            canMove e (Some d) map
            && (negb (isReverse (direction e) d)
                || (length (legal e map) =? 1)%nat))
         directions.

(** [l[Math.floor(r * l.length)]], [r] a value of [Math.random()]. *)
Definition pick (l : list Direction) (r : R) : Dir :=
  let i := Math.floor (r * INR (length l)) in
  if (i <? 0)%Z then None else nth_error l (Z.to_nat i).

(** The rest of [updateAI], for a ghost that is not merging. *)
Definition roam (map : Grid) (rng : Math.Rng) (g : Ghost) : Ghost * Math.Rng :=
  let e := super g in
  let '(e1, rng1) :=
    if atCenter e (speed e) || negb (isSome (direction e)) then
      let e0 := snap e in
      let av := available e0 map in
      if (0 <? length av)%nat then
        if isSome (direction e0) && canMove e0 (direction e0) map then
          let (r, rng') := Math.random rng in
          if Rltb r 0.7 then (e0, rng')
          else
            let (r2, rng'') := Math.random rng' in
            (setDirection e0 (pick av r2), rng'')
        else
          let (r2, rng') := Math.random rng in
          (setDirection e0 (pick av r2), rng')
      else (e0, rng)
    else (e, rng) in
  ({| super := moveAlong e1; isMerging := isMerging g; merged := merged g |}, rng1).

(** [updateAI(map)] *)
Definition updateAI (map : Grid) (rng : Math.Rng) (g : Ghost) : Ghost * Math.Rng :=
  if merged g then (g, rng)
  else
    let currentSpeed := if isMerging g then 3 else 2 in
    let g1 := {| super := setSpeed (super g) currentSpeed;
                 isMerging := isMerging g; merged := merged g |} in
    if isMerging g then (converge g1, rng) else roam map rng g1.

(** ** class UltimateGhost *)

(** [constructor(gridX, gridY)] *)
Definition newUltimateGhost (gx gy : Z) : UltimateGhost :=
  {| super := setSpeed (super (newGhost gx gy)) 3;
     isMerging := false; merged := true |}.

Definition Rleb (a b : R) : bool := if Rle_dec a b then true else false.

(** [Array.prototype.sort] with the comparator [(a, b) => key a - key b]:
    a stable sort by [key], written as an insertion sort. *)
Fixpoint insertBy {A : Type} (key : A -> R) (a : A) (l : list A) : list A :=
  match l with
  | [] => [a]
  | b :: t => if Rleb (key a) (key b) then a :: b :: t else b :: insertBy key a t
  end.

Fixpoint sortBy {A : Type} (key : A -> R) (l : list A) : list A :=
  match l with
  | [] => []
  | a :: t => insertBy key a (sortBy key t)
  end.

(** [distA], [distB] of the comparator: the distance to the player's cell of
    the cell one step in direction [d]. *)
Definition chaseKey (e pac : Entity) (d : Direction) : R :=
  let ax := match d with
            | LEFT => (gridX e - 1)%Z | RIGHT => (gridX e + 1)%Z
            | _ => gridX e
            end in
  let ay := match d with
            | UP => (gridY e - 1)%Z | DOWN => (gridY e + 1)%Z
            | _ => gridY e
            end in
  Math.hypot (IZR ax - IZR (gridX pac)) (IZR ay - IZR (gridY pac)).

(** [updateChasingAI(map, pacman)] *)
Definition updateChasingAI (map : Grid) (pac : Entity) (rng : Math.Rng)
    (u : UltimateGhost) : UltimateGhost * Math.Rng :=
  let e := super u in
  let '(e1, rng1) :=
    if atCenter e (speed e) || negb (isSome (direction e)) then
      let e0 := snap e in
      let av := legal e0 map in
      if (0 <? length av)%nat then
        let sorted := sortBy (chaseKey e0 pac) av in
        let (r, rng') := Math.random rng in
        if Rltb r 0.8 then (setDirection e0 (nth_error sorted 0), rng')
        else
          let (r2, rng'') := Math.random rng' in
          (setDirection e0 (pick sorted r2), rng'')
      else (e0, rng)
    else (e, rng) in
  ({| super := moveAlong e1; isMerging := isMerging u; merged := merged u |}, rng1).

(** ** function App *)

(** [MAP] of [./constants]: a parameter, like [TILE_SIZE]. *)
Variable MAP : Grid.

(** [l] with the index of each element, as a [for (let i = 0; i < l.length;
    i++)] loop meets them. *)
Definition indexed {A : Type} (l : list A) : list (nat * A) :=
  combine (seq 0 (length l)) l.

(** ** initGame *)

Record Scan : Type := mkScan {
  pCount : Z;
  pacmanStart : Z * Z;
  ghostStarts : list (Z * Z)
}.

(** The body of the inner loop of [initGame] at [newMap[y][x] = c]. *)
Definition scanCell (cy cx : nat) (c : TileType.t) (s : Scan) : Scan :=
  let s1 := if TileType.eqb c TileType.PELLET
            then mkScan (pCount s + 1) (pacmanStart s) (ghostStarts s) else s in
  let s2 := if TileType.eqb c TileType.PACMAN_START
            then mkScan (pCount s1) (Z.of_nat cx, Z.of_nat cy) (ghostStarts s1)
            else s1 in
  if TileType.eqb c TileType.GHOST_START
  then mkScan (pCount s2) (pacmanStart s2)
              (ghostStarts s2 ++ [(Z.of_nat cx, Z.of_nat cy)])
  else s2.

Definition scanRow (cy : nat) (row : list TileType.t) (s : Scan) : Scan :=
  fold_left (fun acc xc => scanCell cy (fst xc) (snd xc) acc) (indexed row) s.

Definition scan (newMap : Grid) : Scan :=
  fold_left (fun acc yr => scanRow (fst yr) (snd yr) acc) (indexed newMap)
            (mkScan 0 (9, 15)%Z []).

Definition initGame (a : App) : App :=
  let newMap := List.map (fun row => row) MAP in
  let s := scan newMap in
  let pac := newEntity (fst (pacmanStart s)) (snd (pacmanStart s)) in
  {| score := 0;
     gameState := PLAYING;
     pelletsLeft := pCount s;
     gameData :=
       {| GameData.pacman :=
            Some (setNextDirection (setDirection pac (Some LEFT)) (Some LEFT));
          GameData.ghosts :=
            List.map (fun pos => newGhost (fst pos) (snd pos)) (ghostStarts s);
          GameData.ultimateGhost := None;
          GameData.map := newMap;
          GameData.score := 0 |} |}.

(** A layout with a [PACMAN_START] tile somewhere. *)
Definition hasPacmanStart (m : Grid) : bool :=
  existsb (existsb (fun c => TileType.eqb c TileType.PACMAN_START)) m.

(** ** handleKeyDown *)

Definition setPacman (a : App) (p : option Entity) : App :=
  {| score := score a; gameState := gameState a; pelletsLeft := pelletsLeft a;
     gameData :=
       {| GameData.pacman := p;
          GameData.ghosts := GameData.ghosts (gameData a);
          GameData.ultimateGhost := GameData.ultimateGhost (gameData a);
          GameData.map := GameData.map (gameData a);
          GameData.score := GameData.score (gameData a) |} |}.

(** [handleKeyDown(e)], [key] being [e.key]. *)
Definition handleKeyDown (key : string) (a : App) : App :=
  match GameData.pacman (gameData a) with
  | None => a
  | Some pac =>
      let p1 := if String.eqb key "ArrowUp"%string then setNextDirection pac (Some UP) else pac in
      let p2 := if String.eqb key "ArrowDown"%string then setNextDirection p1 (Some DOWN) else p1 in
      let p3 := if String.eqb key "ArrowLeft"%string then setNextDirection p2 (Some LEFT) else p2 in
      let p4 := if String.eqb key "ArrowRight"%string then setNextDirection p3 (Some RIGHT) else p3 in
      setPacman a (Some p4)
  end.

(** The direction an arrow key requests. *)
Definition keyDirection (key : string) : Dir :=
  if String.eqb key "ArrowUp"%string then Some UP
  else if String.eqb key "ArrowDown"%string then Some DOWN
  else if String.eqb key "ArrowLeft"%string then Some LEFT
  else if String.eqb key "ArrowRight"%string then Some RIGHT
  else None.

(** ** The respawn interval *)

(** [gameData.current.pacman && pacman.gridX === x && pacman.gridY === y] *)
Definition pacmanAt (p : option Entity) (cx cy : nat) : bool :=
  match p with
  | Some pac => (gridX pac =? Z.of_nat cx)%Z && (gridY pac =? Z.of_nat cy)%Z
  | None => false
  end.

(** The body of the inner loop of the interval callback at [MAP[y][x] = c];
    the state is [currentMap] and [respawnedCount]; [None] is the
    [TypeError] of reading [currentMap[y][x]] where [currentMap[y]] is
    [undefined]. *)
Definition respawnCell (p : option Entity) (cy cx : nat) (c : TileType.t)
    (st : Grid * Z) : option (Grid * Z) :=
  if TileType.eqb c TileType.PELLET then
    match rowAt (fst st) (Z.of_nat cy) with
    | None => None
    | Some row =>
        if isTile (cellAt row (Z.of_nat cx)) TileType.EMPTY then
          if pacmanAt p cx cy then Some st
          else Some (setCell (fst st) (Z.of_nat cx) (Z.of_nat cy) TileType.PELLET,
                     (snd st + 1)%Z)
        else Some st
    end
  else Some st.

(** A [for] loop whose body may throw. *)
Fixpoint forEachM {A S : Type} (body : A -> S -> option S) (l : list A) (s : S)
    : option S :=
  match l with
  | [] => Some s
  | a :: t =>
      match body a s with
      | Some s' => forEachM body t s'
      | None => None
      end
  end.

Definition respawnRow (p : option Entity) (cy : nat) (row : list TileType.t)
    (st : Grid * Z) : option (Grid * Z) :=
  forEachM (fun xc => respawnCell p cy (fst xc) (snd xc)) (indexed row) st.

Definition respawnLoop (p : option Entity) (currentMap : Grid) : option (Grid * Z) :=
  forEachM (fun yr => respawnRow p (fst yr) (snd yr)) (indexed MAP)
           (currentMap, 0%Z).

(** One firing of the interval callback. *)
Definition respawn (a : App) : option App :=
  if GameState_eqb (gameState a) PLAYING then
    match respawnLoop (GameData.pacman (gameData a)) (GameData.map (gameData a)) with
    | None => None
    | Some (currentMap, respawnedCount) =>
        Some {| score := score a; gameState := gameState a;
                pelletsLeft := if (0 <? respawnedCount)%Z
                               then (pelletsLeft a + respawnedCount)%Z
                               else pelletsLeft a;
                gameData :=
                  {| GameData.pacman := GameData.pacman (gameData a);
                     GameData.ghosts := GameData.ghosts (gameData a);
                     GameData.ultimateGhost := GameData.ultimateGhost (gameData a);
                     GameData.map := currentMap;
                     GameData.score := GameData.score (gameData a) |} |}
    end
  else Some a.

(** ** draw *)

(** What one call of [draw] leaves behind: the state, the calls of
    [setGameState] of the frame, in the order in which they are made, and
    the generator.  [draw] does not read the phase back; the phase of [app]
    is the one the frame started with, and the requested transitions are in
    [calls], for React to commit (see [commit] below). *)
Record Frame : Type := mkFrame {
  app : App;
  calls : list GameState;
  rng : Math.Rng
}.

(** The body of [ghosts.forEach], without the drawing; [sc] is
    [gameData.current.score], [pac] the player after its move. *)
Definition ghostFrame (sc : Z) (pac : Entity) (map : Grid) (rng0 : Math.Rng)
    (ghost : Ghost) : Ghost * list GameState * Math.Rng :=
  let g1 := if (sc >=? 1500)%Z
            then {| super := super ghost; isMerging := true; merged := merged ghost |}
            else ghost in
  let (g2, rng1) := updateAI map rng0 g1 in
  let lost :=
    if negb (merged g2) then
      let dist := Math.hypot (x pac - x (super g2)) (y pac - y (super g2)) in
      if Rltb dist (TILE_SIZE / 1.5) && negb (isMerging g2) then [LOST] else []
    else [] in
  (g2, lost, rng1).

Fixpoint forEachGhost (sc : Z) (pac : Entity) (map : Grid) (rng0 : Math.Rng)
    (gs : list Ghost) : list Ghost * list GameState * Math.Rng :=
  match gs with
  | [] => ([], [], rng0)
  | g :: t =>
      let '(g', c, rng1) := ghostFrame sc pac map rng0 g in
      let '(t', c', rng2) := forEachGhost sc pac map rng1 t in
      (g' :: t', c ++ c', rng2)
  end.

(** The block [if (allMerged) { ... }], without the drawing. *)
Definition ultimateFrame (pac : Entity) (map : Grid) (rng0 : Math.Rng)
    (cur : option UltimateGhost)
    : option UltimateGhost * list GameState * Math.Rng :=
  let ug0 := match cur with
             | Some u => u
             | None => newUltimateGhost 9 9
             end in
  let (ug, rng1) := updateChasingAI map pac rng0 ug0 in
  let dist := Math.hypot (x pac - x (super ug)) (y pac - y (super ug)) in
  (Some ug, if Rltb dist (TILE_SIZE / 1.2) then [LOST] else [], rng1).

(** [ghosts.length > 0 && ghosts.every(g => g.merged)] *)
Definition allMerged (gs : list Ghost) : bool :=
  (0 <? length gs)%nat && forallb merged gs.

(** The ghosts whose test in [ghosts.forEach] asks for [LOST]: not merged,
    not merging, and less than two thirds of a tile from the player. *)
Definition caught (pac : Entity) (g : Ghost) : Prop :=
  merged g = false /\ isMerging g = false
  /\ Math.hypot (x pac - x (super g)) (y pac - y (super g)) < TILE_SIZE / 1.5.

(** [draw] from [// Eat pellet] on: [pacman] is the player after its move
    and [row] is [map[pacman.gridY]]. *)
Definition drawFrom (rng0 : Math.Rng) (a : App) (pacman : Entity)
    (row : list TileType.t) : Frame :=
  let gd := gameData a in
  let map := GameData.map gd in
  let eat := isTile (cellAt row (gridX pacman)) TileType.PELLET in
  let map1 := if eat
              then setCell map (gridX pacman) (gridY pacman) TileType.EMPTY
              else map in
  let score1 := if eat then (GameData.score gd + 10)%Z else GameData.score gd in
  let wonByScore := if eat && (score1 >=? 1800)%Z then [WON] else [] in
  (* [setGameState('WON')] inside the updater given to [setPelletsLeft]:
     React runs the updater when it renders, after the calls [draw] makes
     itself. *)
  let wonByPellets := if eat && (pelletsLeft a - 1 =? 0)%Z then [WON] else [] in
  let '(ghosts1, lostByGhosts, rng1) :=
    forEachGhost score1 pacman map1 rng0 (GameData.ghosts gd) in
  let '(ug1, lostByUltimate, rng2) :=
    if allMerged ghosts1
    then ultimateFrame pacman map1 rng1 (GameData.ultimateGhost gd)
    else (GameData.ultimateGhost gd, [], rng1) in
  {| app :=
       {| score := if eat then score1 else score a;
          gameState := gameState a;
          pelletsLeft := if eat then (pelletsLeft a - 1)%Z else pelletsLeft a;
          gameData :=
            {| GameData.pacman := Some pacman;
               GameData.ghosts := ghosts1;
               GameData.ultimateGhost := ug1;
               GameData.map := map1;
               GameData.score := score1 |} |};
     calls := wonByScore ++ lostByGhosts ++ lostByUltimate ++ wonByPellets;
     rng := rng2 |}.

(** One call of [draw] (the canvas and its context being there); [None] is
    the [TypeError] of reading [map[pacman.gridY][pacman.gridX]] where
    [map[pacman.gridY]] is [undefined]. *)
Definition draw (rng0 : Math.Rng) (a : App) : option Frame :=
  match GameData.pacman (gameData a) with
  | None => Some (mkFrame a [] rng0)
  | Some pacman0 =>
      let pacman := updatePosition (GameData.map (gameData a)) pacman0 in
      match rowAt (GameData.map (gameData a)) (gridY pacman) with
      | None => None
      | Some row => Some (drawFrom rng0 a pacman row)
      end
  end.

(** ** Motion updates *)

(** The stored grid cell is the cell the position lies in. *)
Definition inCell (e : Entity) : Prop :=
  gridX e = Math.floor (x e / TILE_SIZE)
  /\ gridY e = Math.floor (y e / TILE_SIZE).

(** One call of a motion update, on the [Entity] fields of its receiver:
    [updatePosition] on the player, [updateAI] on a ghost,
    [updateChasingAI] on the ultimate ghost. *)
Inductive motionUpdate : Entity -> Entity -> Prop :=
| motion_player (map : Grid) (e : Entity) :
    motionUpdate e (updatePosition map e)
| motion_ghost (map : Grid) (rng0 : Math.Rng) (g : Ghost) :
    motionUpdate (super g) (super (fst (updateAI map rng0 g)))
| motion_ultimate (map : Grid) (pac : Entity) (rng0 : Math.Rng) (u : UltimateGhost) :
    motionUpdate (super u) (super (fst (updateChasingAI map pac rng0 u))).

(** ** Respawn, as the specification words it *)

(** The exempt cell: the player's. *)
Definition playerAt (p : option Entity) (cx cy : Z) : bool :=
  match p with
  | Some pac => (gridX pac =? cx)%Z && (gridY pac =? cy)%Z
  | None => false
  end.

(** A cell is restored if the original layout says [PELLET], the live grid
    says [EMPTY], and it is not the exempt cell. *)
Definition restorable (orig cur : option TileType.t) (exempt : bool) : bool :=
  isTile orig TileType.PELLET && isTile cur TileType.EMPTY && negb exempt.

(** ** Convergence, as the specification words it *)

(** A ghost [g] over a frame at or after the trigger, [g'] being the ghost
    after the frame: it is merging; if it was merged it is left alone; if
    not, it moves 3 units, along the ray from its position to the centre
    point (where it is not on that point already), to [(x1, y1)], and it is
    merged exactly if [(x1, y1)] is less than 5 units from the centre point,
    in which case it is put on the centre point with no direction. *)
Definition converges (g g' : Ghost) : Prop :=
  isMerging g' = true
  /\ (merged g = true -> super g' = super g /\ merged g' = true)
  /\ (merged g = false ->
      exists x1 y1 : R,
        Math.hypot (x1 - x (super g)) (y1 - y (super g)) = 3
        /\ ((x (super g) <> targetX \/ y (super g) <> targetY) ->
            exists t : R,
              0 < t
              /\ x1 - x (super g) = t * (targetX - x (super g))
              /\ y1 - y (super g) = t * (targetY - y (super g)))
        /\ (merged g' = true <-> Math.hypot (x1 - targetX) (y1 - targetY) < 5)
        /\ (merged g' = true ->
            x (super g') = targetX /\ y (super g') = targetY
            /\ direction (super g') = None)
        /\ (merged g' = false -> x (super g') = x1 /\ y (super g') = y1)).

(** ** The tests of a frame, on what it leaves *)

(** A ghost [g] over a frame that ends with the score [sc] on the grid
    [m], [g'] being the ghost after it: [isMerging] is set if [sc] is at
    least 1500, then [updateAI] runs. *)
Definition ghostMoves (sc : Z) (m : Grid) (g g' : Ghost) : Prop :=
  exists rng0 : Math.Rng,
    g' = fst (updateAI m rng0
                (if (sc >=? 1500)%Z
                 then {| super := super g; isMerging := true; merged := merged g |}
                 else g)).

(** A collision test of the frame that left [a'] triggers, [pac] being the
    player: some ghost is caught, or, all ghosts being merged, the ultimate
    ghost is less than [TILE_SIZE / 1.2] from the player. *)
Definition collides (pac : Entity) (a' : App) : Prop :=
  Exists (caught pac) (GameData.ghosts (gameData a'))
  \/ (allMerged (GameData.ghosts (gameData a')) = true
      /\ exists u,
          GameData.ultimateGhost (gameData a') = Some u
          /\ Math.hypot (x pac - x (super u)) (y pac - y (super u))
             < TILE_SIZE / 1.2).

(** ** Where an entity may be *)

(** The cell one step from [(cx, cy)] in direction [d]. *)
Definition neighbour (d : Direction) (cx cy : Z) : Z * Z :=
  match d with
  | UP => (cx, cy - 1)%Z
  | DOWN => (cx, cy + 1)%Z
  | LEFT => (cx - 1, cy)%Z
  | RIGHT => (cx + 1, cy)%Z
  end.

(** A cell an entity may be on: its row is there and it is not a wall. *)
Definition clear (m : Grid) (cx cy : Z) : Prop :=
  rowAt m cy <> None /\ tileAt m cx cy <> Some TileType.WALL.

(** A cell that is there and is not a wall. *)
Definition open (m : Grid) (cx cy : Z) : Prop :=
  exists c, tileAt m cx cy = Some c /\ c <> TileType.WALL.

(** Every row is as long as the first. *)
Definition rectangular (m : Grid) : Prop :=
  forall row, In row m -> length row = length (nth 0 m []).

(** The grid [m'] is [m] with some of its tiles replaced by tiles that are
    not walls. *)
Definition repainted (m m' : Grid) : Prop :=
  length m' = length m
  /\ forall cx cy,
      tileAt m' cx cy = tileAt m cx cy
      \/ exists c v, tileAt m cx cy = Some c /\ tileAt m' cx cy = Some v
                     /\ v <> TileType.WALL.

(** The point [t] units from the centre of cell [(cx, cy)] in direction
    [d]. *)
Definition offCenter (d : Direction) (cx cy : Z) (t : R) : R * R :=
  let px := IZR cx * TILE_SIZE + TILE_SIZE / 2 in
  let py := IZR cy * TILE_SIZE + TILE_SIZE / 2 in
  match d with
  | UP => (px, py - t)
  | DOWN => (px, py + t)
  | LEFT => (px - t, py)
  | RIGHT => (px + t, py)
  end.

(** The player between two frames: at speed 2, in the cell of its
    position, and either on the centre of a clear cell or on its way from
    the centre of a clear cell to the centre of a clear neighbour. *)
Definition onTrack (m : Grid) (e : Entity) : Prop :=
  speed e = 2 /\ inCell e
  /\ ((x e = centerX e /\ y e = centerY e /\ clear m (gridX e) (gridY e))
      \/ exists (d : Direction) (cx cy : Z) (t : R),
          direction e = Some d
          /\ clear m cx cy
          /\ clear m (fst (neighbour d cx cy)) (snd (neighbour d cx cy))
          /\ 2 <= t <= TILE_SIZE
          /\ (x e, y e) = offCenter d cx cy t).

(** The direction opposite to [d]. *)
Definition opposite (d : Direction) : Direction :=
  match d with
  | UP => DOWN
  | DOWN => UP
  | LEFT => RIGHT
  | RIGHT => LEFT
  end.

(** A roaming ghost between two frames: in the cell of its position, and
    either at rest on the centre of an open cell or on its way from the
    centre of an open cell to the centre of an open neighbour. *)
Definition onPatrol (m : Grid) (e : Entity) : Prop :=
  inCell e
  /\ ((x e = centerX e /\ y e = centerY e /\ direction e = None
       /\ open m (gridX e) (gridY e))
      \/ exists (d : Direction) (cx cy : Z) (t : R),
          direction e = Some d
          /\ open m cx cy
          /\ open m (fst (neighbour d cx cy)) (snd (neighbour d cx cy))
          /\ 2 <= t <= TILE_SIZE
          /\ (x e, y e) = offCenter d cx cy t).

(** ** Several frames of one ghost *)

(** [distToTarget] of [updateAI], at the position of [e]. *)
Definition targetDistance (e : Entity) : R :=
  Math.hypot (x e - targetX) (y e - targetY).

(** The calls of [updateAI] on one ghost in [n] frames in a row. *)
Fixpoint updatesAI (map : Grid) (n : nat) (rng0 : Math.Rng) (g : Ghost)
    : Ghost * Math.Rng :=
  match n with
  | O => (g, rng0)
  | S k => let (g', rng1) := updateAI map rng0 g in updatesAI map k rng1 g'
  end.

(** ** The component over time *)

(** React commits a call [setGameState(p)]. *)
Definition setGameState (a : App) (p : GameState) : App :=
  {| score := score a; gameState := p; pelletsLeft := pelletsLeft a;
     gameData := gameData a |}.

(** The phase after the calls [setGameState(p)] of one frame: React queues
    the calls and applies them in the order in which they were made, so the
    last one stands; with no call the phase stays. *)
Definition commit (phase : GameState) (requests : list GameState) : GameState :=
  last requests phase.

(** The component once React has committed the frame [f] of [a]. *)
Definition afterFrame (a : App) (f : Frame) : App :=
  setGameState (app f) (commit (gameState a) (calls f)).

(** What can happen to a running component other than a new game: a key
    press, a firing of the respawn interval, a frame. *)
Inductive step : App -> App -> Prop :=
| step_key (key : string) (a : App) : step a (handleKeyDown key a)
| step_respawn (a a' : App) : respawn a = Some a' -> step a a'
| step_draw (rng0 : Math.Rng) (a : App) (f : Frame) :
    draw rng0 a = Some f -> step a (afterFrame a f).

(** The states the component can be in. *)
Inductive reachable : App -> Prop :=
| reach_mount : reachable mount
| reach_init (a : App) : reachable a -> reachable (initGame a)
| reach_step (a a' : App) : reachable a -> step a a' -> reachable a'.

(** The states of one game: from [initGame] on, until the next [initGame]. *)
Inductive inGame : App -> Prop :=
| game_start (a : App) : inGame (initGame a)
| game_step (a a' : App) : inGame a -> step a a' -> inGame a'.

End Simulation.

(** ** Counting tiles *)

(** 1 if [c] is the tile [t], 0 if not. *)
Definition indicator (t c : TileType.t) : Z :=
  if TileType.eqb c t then 1%Z else 0%Z.

(** The number of tiles [t] in a row, in a grid. *)
Definition tilesIn (t : TileType.t) (row : list TileType.t) : Z :=
  Z.of_nat (length (filter (fun c => TileType.eqb c t) row)).

Definition countTiles (t : TileType.t) (m : Grid) : Z :=
  fold_right (fun row acc => (tilesIn t row + acc)%Z) 0%Z m.

(** ** Instances used below: a tile of 32 units and small mazes *)

Module Ex.

Definition corridor : Grid := [[TileType.EMPTY; TileType.EMPTY]].

Definition noStart : Grid := [[TileType.WALL; TileType.PELLET; TileType.GHOST_START]].

(** A player resting on the centre of cell (0, 0). *)
Definition player : Entity :=
  {| x := 16; y := 16; gridX := 0; gridY := 0;
     direction := None; nextDirection := None; speed := 2 |}.

(** A ghost in cell (1, 0), heading left, 20 units from [player]. *)
Definition hunter : Ghost :=
  {| super := {| x := 36; y := 16; gridX := 1; gridY := 0;
                 direction := Some LEFT; nextDirection := None; speed := 2 |};
     isMerging := false; merged := false |}.

(** A lost game: the player is still on the board. *)
Definition lostGame : App :=
  {| score := 0; gameState := LOST; pelletsLeft := 0;
     gameData := {| GameData.pacman := Some player; GameData.ghosts := [hunter];
                    GameData.ultimateGhost := None; GameData.map := corridor;
                    GameData.score := 0 |} |}.

(** The same board while the game is on. *)
Definition hunt : App :=
  {| score := 0; gameState := PLAYING; pelletsLeft := 0;
     gameData := {| GameData.pacman := Some player; GameData.ghosts := [hunter];
                    GameData.ultimateGhost := None; GameData.map := corridor;
                    GameData.score := 0 |} |}.

(** A field of 19 by 19 cells, pellets along the top row. *)
Definition field : Grid :=
  repeat TileType.PELLET 19 :: repeat (repeat TileType.EMPTY 19) 18.

(** The two cells of [alley] that are not walls: (9, 9) and (10, 9). *)
Definition alleyRow : list TileType.t :=
  repeat TileType.WALL 9 ++ [TileType.EMPTY; TileType.EMPTY]
  ++ repeat TileType.WALL 8.

(** 19 by 19 cells: pellets along the top row, walls everywhere else but
    for a dead end of two cells in the middle row. *)
Definition alley : Grid :=
  repeat TileType.PELLET 19 :: repeat (repeat TileType.WALL 19) 8
  ++ [alleyRow] ++ repeat (repeat TileType.WALL 19) 9.

(** A player stopped at the end of the alley, on the centre of cell
    (10, 9). *)
Definition runner : Entity :=
  {| x := 336; y := 304; gridX := 10; gridY := 9;
     direction := None; nextDirection := None; speed := 2 |}.

(** A ghost that has merged, on the centre point (304, 304). *)
Definition gone : Ghost :=
  {| super := {| x := 304; y := 304; gridX := 9; gridY := 9;
                 direction := None; nextDirection := None; speed := 3 |};
     isMerging := true; merged := true |}.

(** All ghosts have merged; the next frame creates the ultimate ghost on
    cell (9, 9), one tile from the player. *)
Definition endgame : App :=
  {| score := 1500; gameState := PLAYING; pelletsLeft := 19;
     gameData := {| GameData.pacman := Some runner; GameData.ghosts := [gone; gone];
                    GameData.ultimateGhost := None; GameData.map := alley;
                    GameData.score := 1500 |} |}.

(** A player on the border of cell (1, 0), about to cross into cell (0, 0). *)
Definition crossing : Entity :=
  {| x := 32; y := 16; gridX := 1; gridY := 0;
     direction := Some LEFT; nextDirection := None; speed := 2 |}.

(** A roaming ghost on the centre of cell (2, 0), heading left. *)
Definition stalker : Ghost :=
  {| super := {| x := 80; y := 16; gridX := 2; gridY := 0;
                 direction := Some LEFT; nextDirection := None; speed := 2 |};
     isMerging := false; merged := false |}.

(** A game in which cell (0, 0) holds the last pellet but one. *)
Definition snack : App :=
  {| score := 1490; gameState := PLAYING; pelletsLeft := 2;
     gameData := {| GameData.pacman := Some crossing; GameData.ghosts := [stalker];
                    GameData.ultimateGhost := None;
                    GameData.map := [[TileType.PELLET; TileType.EMPTY; TileType.PELLET]];
                    GameData.score := 1490 |} |}.

(** The ghost of [hunt] once the merge has been triggered. *)
Definition merging : Ghost :=
  {| super := super hunter; isMerging := true; merged := false |}.

(** A layout of one row with three pellets, and a game on it in which two
    have been eaten, the player resting where the first was. *)
Definition pantry : Grid :=
  [[TileType.PELLET; TileType.EMPTY; TileType.PELLET; TileType.PELLET]].

Definition eaten : App :=
  {| score := 20; gameState := PLAYING; pelletsLeft := 1;
     gameData := {| GameData.pacman := Some player; GameData.ghosts := [];
                    GameData.ultimateGhost := None;
                    GameData.map := [[TileType.EMPTY; TileType.EMPTY;
                                      TileType.EMPTY; TileType.PELLET]];
                    GameData.score := 20 |} |}.

(** A layout of one row with a start tile for a ghost and one for the
    player. *)
Definition yard : Grid :=
  [[TileType.GHOST_START; TileType.PELLET; TileType.PACMAN_START; TileType.PELLET]].

(** [snack] with the last pellet in cell (0, 0). *)
Definition lastBite : App :=
  {| score := 1490; gameState := PLAYING; pelletsLeft := 1;
     gameData := {| GameData.pacman := Some crossing; GameData.ghosts := [stalker];
                    GameData.ultimateGhost := None;
                    GameData.map := [[TileType.PELLET; TileType.EMPTY; TileType.EMPTY]];
                    GameData.score := 1490 |} |}.

(** A roaming ghost on the centre of cell (0, 0), the left end of
    [corridor], heading left: a dead end. *)
Definition cornered : Ghost :=
  {| super := {| x := 16; y := 16; gridX := 0; gridY := 0;
                 direction := Some LEFT; nextDirection := None; speed := 2 |};
     isMerging := false; merged := false |}.

(** A player heading left on the border of cell (2, 0), about to cross
    into cell (1, 0). *)
Definition dasher : Entity :=
  {| x := 64; y := 16; gridX := 2; gridY := 0;
     direction := Some LEFT; nextDirection := None; speed := 2 |}.

(** A roaming ghost in cell (1, 0), heading right, 24 units from
    [dasher]. *)
Definition rival : Ghost :=
  {| super := {| x := 40; y := 16; gridX := 1; gridY := 0;
                 direction := Some RIGHT; nextDirection := None; speed := 2 |};
     isMerging := false; merged := false |}.

(** A game with [n] pellets left, one of them in cell (1, 0), over which
    the player and a ghost run into each other; cell (3, 0) holds [t]. *)
Definition scrambleOn (t : TileType.t) (n : Z) : App :=
  {| score := 170; gameState := PLAYING; pelletsLeft := n;
     gameData := {| GameData.pacman := Some dasher; GameData.ghosts := [rival];
                    GameData.ultimateGhost := None;
                    GameData.map := [[TileType.EMPTY; TileType.PELLET;
                                      TileType.EMPTY; t]];
                    GameData.score := 170 |} |}.

(** The pellet of cell (1, 0) is the last one. *)
Definition scramble : App := scrambleOn TileType.EMPTY 1.

(** There is another pellet, in cell (3, 0). *)
Definition tussle : App := scrambleOn TileType.PELLET 2.

(** The row of [lane] that is not all walls: cells (7, 9) to (11, 9), the
    last two with a pellet. *)
Definition laneRow : list TileType.t :=
  repeat TileType.WALL 7
  ++ [TileType.EMPTY; TileType.EMPTY; TileType.EMPTY; TileType.PELLET;
      TileType.PELLET]
  ++ repeat TileType.WALL 7.

(** 19 by 19 cells, walls but for [laneRow] in the middle. *)
Definition lane : Grid :=
  repeat (repeat TileType.WALL 19) 9 ++ [laneRow]
  ++ repeat (repeat TileType.WALL 19) 9.

(** A player heading right on the border of cell (9, 9), about to cross
    into cell (10, 9). *)
Definition sprinter : Entity :=
  {| x := 318; y := 304; gridX := 9; gridY := 9;
     direction := Some RIGHT; nextDirection := None; speed := 2 |}.

(** The ultimate ghost in cell (10, 9), heading left, 29 units from
    [sprinter]. *)
Definition chaser : UltimateGhost :=
  {| super := {| x := 347; y := 304; gridX := 10; gridY := 9;
                 direction := Some LEFT; nextDirection := None; speed := 3 |};
     isMerging := false; merged := true |}.

(** A game at 1790 points, two pellets left, the player and the ultimate
    ghost running into each other over the pellet of cell (10, 9). *)
Definition photoFinish : App :=
  {| score := 1790; gameState := PLAYING; pelletsLeft := 2;
     gameData := {| GameData.pacman := Some sprinter; GameData.ghosts := [gone; gone];
                    GameData.ultimateGhost := Some chaser; GameData.map := lane;
                    GameData.score := 1790 |} |}.

(** A generator that always returns 0. *)
Definition zeros : Math.Rng := fun _ => 0.

End Ex.

(** * Properties *)

Lemma Rltb_true_iff (a b : R) : Rltb a b = true <-> a < b.
Proof. unfold Rltb; destruct (Rlt_dec a b); split; intros; try easy. Qed.

Lemma Rltb_false_iff (a b : R) : Rltb a b = false <-> b <= a.
Proof.
  unfold Rltb; destruct (Rlt_dec a b); split; intros; try easy; lra.
Qed.

(** Deciding a comparison of two given reals. *)
Ltac Rcompare :=
  first [apply Rltb_true_iff | apply Rltb_false_iff];
  unfold Math.abs, Rabs; repeat destruct Rcase_abs; lra.

Section Properties.

Variable TILE_SIZE : R.


(** *** Key presses *)

Lemma handleKeyDown_arrow (key : string) (d : Direction) (a : App) (pac : Entity) :
  keyDirection key = Some d ->
  GameData.pacman (gameData a) = Some pac ->
  handleKeyDown key a = setPacman a (Some (setNextDirection pac (Some d))).
Proof.
  unfold keyDirection, handleKeyDown; intros Hk Hp; rewrite Hp.
  destruct (String.eqb key "ArrowUp") eqn:E1.
  - apply String.eqb_eq in E1; subst key; simpl. congruence.
  - destruct (String.eqb key "ArrowDown") eqn:E2.
    + apply String.eqb_eq in E2; subst key; simpl. congruence.
    + destruct (String.eqb key "ArrowLeft") eqn:E3.
      * apply String.eqb_eq in E3; subst key; simpl. congruence.
      * destruct (String.eqb key "ArrowRight") eqn:E4; [|discriminate].
        congruence.
Qed.

(** *** The phase React commits *)

(** The committed phase is the old one or one that was asked for. *)
Lemma commit_In (p : GameState) (l : list GameState) :
  commit p l = p \/ In (commit p l) l.
Proof.
  unfold commit. destruct l as [|q l]; [now left|]. right.
  destruct (exists_last (l := q :: l)) as (l0 & z & E); [discriminate|].
  rewrite E, last_last. apply in_or_app. right. now left.
Qed.

Lemma commit_app (p : GameState) (l l' : list GameState) :
  commit p (l ++ l') = commit (commit p l) l'.
Proof.
  unfold commit. revert l. induction l' as [|q l' IH] using rev_ind; intros l.
  - now rewrite app_nil_r.
  - now rewrite app_assoc, !last_last.
Qed.

(** Whether a phase was asked for can be told. *)
Lemma asked_or_not (c : GameState) (l : list GameState) : In c l \/ ~ In c l.
Proof.
  induction l as [|q l [IH|IH]]; [now right|left; now right|].
  destruct (GameState_eqb q c) eqn:E.
  - left. left. destruct q, c; (reflexivity || discriminate).
  - right. intros [->|H]; [destruct c; discriminate|contradiction].
Qed.

(** Calls that all ask for the same phase. *)
Lemma commit_all (p c : GameState) (l : list GameState) :
  (forall q, In q l -> q = c) -> l <> [] -> commit p l = c.
Proof.
  intros Hall Hne. destruct (exists_last Hne) as (l0 & z & ->).
  unfold commit. rewrite last_last. apply Hall, in_or_app. right. now left.
Qed.

(** *** Who is on the board in which phase *)

Lemma ghostFrame_calls (sc : Z) (pac : Entity) (m : Grid) (r : Math.Rng) (g : Ghost) :
  forall p, In p (snd (fst (ghostFrame TILE_SIZE sc pac m r g))) -> p = LOST.
Proof.
  intros p; unfold ghostFrame.
  destruct (updateAI TILE_SIZE m r _) as [g2 r1]; simpl.
  destruct (negb (merged g2)); [|contradiction].
  destruct (_ && _); simpl; intuition.
Qed.

Lemma forEachGhost_calls (sc : Z) (pac : Entity) (m : Grid) (gs : list Ghost) :
  forall r p, In p (snd (fst (forEachGhost TILE_SIZE sc pac m r gs))) -> p = LOST.
Proof.
  induction gs as [|g t IH]; intros r p; simpl; [contradiction|].
  pose proof (ghostFrame_calls sc pac m r g p) as Hg.
  destruct (ghostFrame TILE_SIZE sc pac m r g) as [[g' c] r1]; simpl in *.
  specialize (IH r1 p).
  destruct (forEachGhost TILE_SIZE sc pac m r1 t) as [[t' c'] r2]; simpl in *.
  rewrite in_app_iff; intuition.
Qed.

Lemma ultimateFrame_calls (pac : Entity) (m : Grid) (r : Math.Rng)
    (cur : option UltimateGhost) :
  forall p, In p (snd (fst (ultimateFrame TILE_SIZE pac m r cur))) -> p = LOST.
Proof.
  intros p; unfold ultimateFrame.
  destruct (updateChasingAI TILE_SIZE m pac r _) as [ug r1]; simpl.
  destruct (Rltb _ _); simpl; intuition.
Qed.

Lemma drawFrom_calls (r : Math.Rng) (a : App) (pac : Entity)
    (row : list TileType.t) :
  forall p, In p (calls (drawFrom TILE_SIZE r a pac row)) -> p = WON \/ p = LOST.
Proof.
  unfold drawFrom.
  set (eat := isTile _ _).
  set (m1 := if eat then setCell _ _ _ _ else _).
  set (sc1 := if eat then (_ + 10)%Z else _).
  pose proof (forEachGhost_calls sc1 pac m1 (GameData.ghosts (gameData a)) r) as Hg.
  destruct (forEachGhost _ _ _ _ _ _) as [[gs1 c1] r1]; simpl in Hg.
  pose proof (ultimateFrame_calls pac m1 r1 (GameData.ultimateGhost (gameData a))) as Hu.
  destruct (allMerged gs1).
  - destruct (ultimateFrame _ _ _ _ _) as [[u c2] r2]; simpl in Hu.
    intros p; simpl; rewrite !in_app_iff.
    destruct (eat && _); destruct (eat && _); simpl; intuition.
  - intros p; simpl; rewrite !in_app_iff.
    destruct (eat && _); destruct (eat && _); simpl; intuition.
Qed.

Lemma drawFrom_pacman (r : Math.Rng) (a : App) (pac : Entity)
    (row : list TileType.t) :
  GameData.pacman (gameData (app (drawFrom TILE_SIZE r a pac row))) = Some pac.
Proof.
  unfold drawFrom.
  destruct (forEachGhost _ _ _ _ _ _) as [[gs1 c1] r1].
  destruct (if allMerged gs1 then _ else _) as [[u c2] r2]; reflexivity.
Qed.

(** A frame leaves the player on the board and asks for [WON] or [LOST]
    only. *)
Lemma draw_calls (r : Math.Rng) (a : App) (f : Frame) :
  draw TILE_SIZE r a = Some f ->
  (GameData.pacman (gameData (app f)) = None <->
   GameData.pacman (gameData a) = None)
  /\ forall p, In p (calls f) -> p = WON \/ p = LOST.
Proof.
  unfold draw.
  destruct (GameData.pacman (gameData a)) as [pac0|] eqn:Hp.
  2:{ intros [= <-]; simpl; rewrite Hp; split; [tauto|contradiction]. }
  destruct (rowAt _ _) as [row|]; [|discriminate].
  intros [= <-]. rewrite drawFrom_pacman. split; [split; discriminate|].
  apply drawFrom_calls.
Qed.

Lemma respawn_keeps (MAP : Grid) (a a' : App) :
  respawn MAP a = Some a' ->
  gameState a' = gameState a
  /\ GameData.pacman (gameData a') = GameData.pacman (gameData a)
  /\ GameData.score (gameData a') = GameData.score (gameData a).
Proof.
  unfold respawn. destruct (GameState_eqb _ _).
  - destruct (respawnLoop _ _ _) as [[m n]|]; [|discriminate].
    intros [= <-]; simpl; auto.
  - intros [= <-]; auto.
Qed.

Lemma handleKeyDown_keeps (key : string) (a : App) :
  gameState (handleKeyDown key a) = gameState a
  /\ (GameData.pacman (gameData (handleKeyDown key a)) = None <->
      GameData.pacman (gameData a) = None)
  /\ GameData.score (gameData (handleKeyDown key a)) = GameData.score (gameData a).
Proof.
  unfold handleKeyDown.
  destruct (GameData.pacman (gameData a)) eqn:Hp; simpl; [|rewrite Hp; tauto].
  repeat split; discriminate.
Qed.

(** The player is missing exactly before the first game. *)
Lemma reachable_player (MAP : Grid) (a : App) :
  reachable TILE_SIZE MAP a ->
  (GameData.pacman (gameData a) = None <-> gameState a = START).
Proof.
  induction 1 as [| a Ha IH | a a' Ha IH Hs].
  - simpl; tauto.
  - simpl; split; discriminate.
  - destruct Hs as [key a | a a' Hr | r a f Hd].
    + destruct (handleKeyDown_keeps key a) as (-> & -> & _); exact IH.
    + destruct (respawn_keeps _ _ _ Hr) as (-> & -> & _); exact IH.
    + destruct (draw_calls _ _ _ Hd) as [Hp Hc]; simpl.
      rewrite Hp.
      destruct (commit_In (gameState a) (calls f)) as [-> | Hin]; [exact IH|].
      split.
      * intros Hn. unfold draw in Hd. rewrite Hn in Hd.
        injection Hd as <-. contradiction.
      * intros E. rewrite E in Hin. destruct (Hc _ Hin); discriminate.
Qed.

(** C8, as the code has it: an arrow key is buffered as the player's next
    direction in every phase in which there is a player, which is every
    phase but the one before the first game ([START]); only there is the key
    ignored.  The phase itself is never read. *)
Theorem key_buffered_unless_not_started
    (MAP : Grid) (key : string) (d : Direction) (a : App) :
  reachable TILE_SIZE MAP a ->
  keyDirection key = Some d ->
  (gameState a = START -> handleKeyDown key a = a)
  /\ (gameState a <> START ->
      exists pac,
        GameData.pacman (gameData a) = Some pac
        /\ handleKeyDown key a = setPacman a (Some (setNextDirection pac (Some d)))).
Proof.
  intros Hr Hk. pose proof (reachable_player MAP a Hr) as Hp. split.
  - intros Hs. apply Hp in Hs. unfold handleKeyDown. now rewrite Hs.
  - intros Hs. destruct (GameData.pacman (gameData a)) as [pac|] eqn:E.
    + exists pac; split; [reflexivity|]. now apply handleKeyDown_arrow.
    + exfalso; apply Hs, Hp; reflexivity.
Qed.

(** *** A layout without a start tile for the player *)

Lemma scanCell_start (cy cx : nat) (c : TileType.t) (s : Scan) :
  TileType.eqb c TileType.PACMAN_START = false ->
  pacmanStart (scanCell cy cx c s) = pacmanStart s.
Proof. destruct c; simpl; intros; try reflexivity; discriminate. Qed.

Lemma scanCells_start (cy : nat) (l : list (nat * TileType.t)) :
  (forall xc, In xc l -> TileType.eqb (snd xc) TileType.PACMAN_START = false) ->
  forall s,
    pacmanStart (fold_left (fun acc xc => scanCell cy (fst xc) (snd xc) acc) l s)
    = pacmanStart s.
Proof.
  induction l as [|xc l IH]; intros Hl s; simpl; [reflexivity|].
  rewrite IH by (intros; apply Hl; now right).
  apply scanCell_start, Hl; now left.
Qed.

Lemma indexed_snd {A : Type} (l : list A) (ia : nat * A) :
  In ia (indexed l) -> In (snd ia) l.
Proof. destruct ia as [i a]; unfold indexed; intros H; eapply in_combine_r, H. Qed.

Lemma scanRow_start (cy : nat) (row : list TileType.t) (s : Scan) :
  existsb (fun c => TileType.eqb c TileType.PACMAN_START) row = false ->
  pacmanStart (scanRow cy row s) = pacmanStart s.
Proof.
  intros Hrow; unfold scanRow; apply scanCells_start.
  intros xc Hin. apply indexed_snd in Hin.
  destruct (TileType.eqb (snd xc) TileType.PACMAN_START) eqn:E; [|reflexivity].
  assert (existsb (fun c => TileType.eqb c TileType.PACMAN_START) row = true)
    by (apply existsb_exists; eauto).
  congruence.
Qed.

Lemma scanRows_start (l : list (nat * list TileType.t)) :
  (forall yr, In yr l ->
     existsb (fun c => TileType.eqb c TileType.PACMAN_START) (snd yr) = false) ->
  forall s,
    pacmanStart (fold_left (fun acc yr => scanRow (fst yr) (snd yr) acc) l s)
    = pacmanStart s.
Proof.
  induction l as [|yr l IH]; intros Hl s; simpl; [reflexivity|].
  rewrite IH by (intros; apply Hl; now right).
  apply scanRow_start, Hl; now left.
Qed.

Lemma scan_start (m : Grid) :
  hasPacmanStart m = false -> pacmanStart (scan m) = (9, 15)%Z.
Proof.
  intros Hm; unfold scan; rewrite scanRows_start; [reflexivity|].
  intros yr Hin. apply indexed_snd in Hin.
  destruct (existsb _ (snd yr)) eqn:E; [|reflexivity].
  assert (hasPacmanStart m = true) by (apply existsb_exists; eauto).
  congruence.
Qed.

(** C3, as the code has it: on a layout without a [PACMAN_START] tile
    [initGame] does not fail; it starts the game ([PLAYING]) with the player
    on the default cell (9, 15), heading left. *)
Theorem initGame_defaults_player (MAP : Grid) (a : App) :
  hasPacmanStart MAP = false ->
  gameState (initGame TILE_SIZE MAP a) = PLAYING
  /\ GameData.pacman (gameData (initGame TILE_SIZE MAP a))
     = Some (setNextDirection (setDirection (newEntity TILE_SIZE 9 15) (Some LEFT))
                              (Some LEFT)).
Proof.
  intros Hm; split; [reflexivity|].
  unfold initGame; simpl.
  rewrite map_id, (scan_start MAP Hm); reflexivity.
Qed.

(** *** Roaming: no reversal *)

Lemma moveAlong_direction (e : Entity) :
  direction (moveAlong TILE_SIZE e) = direction e.
Proof. unfold moveAlong; destruct (direction e) eqn:E; simpl; auto. Qed.

Lemma pick_In (l : list Direction) (r : R) (d : Direction) :
  pick l r = Some d -> In d l.
Proof.
  unfold pick; destruct (_ <? 0)%Z; [discriminate|]. apply nth_error_In.
Qed.

Lemma isReverse_self (d : Direction) : isReverse (Some d) d = false.
Proof. destruct d; reflexivity. Qed.

(** The candidates, as the specification words them: legal, and not the
    reverse of the current direction unless the only legal one. *)
Lemma available_iff (e : Entity) (m : Grid) (d : Direction) :
  In d (available e m) <->
  canMove e (Some d) m = true
  /\ (isReverse (direction e) d = false \/ legal e m = [d]).
Proof.
  destruct d; unfold available, legal, directions; cbn [filter];
    generalize (canMove e (Some UP) m), (canMove e (Some DOWN) m),
               (canMove e (Some LEFT) m), (canMove e (Some RIGHT) m),
               (direction e);
    intros bu bd bl br cur;
    destruct bu, bd, bl, br, cur as [[]|]; cbn;
    intuition (discriminate || congruence).
Qed.

(** What [updateAI] leaves as the direction of a roaming ghost is the
    direction it had or one of the candidates. *)
Lemma roam_adopts (m : Grid) (r : Math.Rng) (g : Ghost) (d : Direction) :
  direction (super (fst (roam TILE_SIZE m r g))) = Some d ->
  direction (super g) = Some d \/ In d (available (super g) m).
Proof.
  unfold roam.
  set (e := super g).
  assert (Hpick : forall r2,
             pick (available (snap TILE_SIZE e) m) r2 = Some d ->
             direction e = Some d \/ In d (available e m)).
  { intros r2 Hp. right. apply pick_In in Hp. exact Hp. }
  destruct (atCenter TILE_SIZE e (speed e) || negb (isSome (direction e))).
  - destruct (0 <? length (available (snap TILE_SIZE e) m))%nat.
    + destruct (isSome (direction (snap TILE_SIZE e)) && _).
      * destruct (Math.random r) as [r1 rng1].
        destruct (Rltb r1 0.7).
        -- cbn [fst super]. rewrite moveAlong_direction. now left.
        -- destruct (Math.random rng1) as [r2 rng2].
           cbn [fst super]. rewrite moveAlong_direction. apply Hpick.
      * destruct (Math.random r) as [r2 rng2].
        cbn [fst super]. rewrite moveAlong_direction. apply Hpick.
    + cbn [fst super]. rewrite moveAlong_direction. now left.
  - cbn [fst super]. rewrite moveAlong_direction. now left.
Qed.

(** C5: the candidates of a roaming ghost are the legal directions that
    are not the reverse of its direction, or the sole legal one; the
    direction [updateAI] leaves it with is the one it had or a candidate;
    hence it is the reverse of the old one only if that was the sole legal
    direction from its cell. *)
Theorem roaming_ghost_never_reverses (m : Grid) (r : Math.Rng) (g : Ghost) :
  merged g = false -> isMerging g = false ->
  (forall d, In d (available (super g) m) <->
             canMove (super g) (Some d) m = true
             /\ (isReverse (direction (super g)) d = false
                 \/ legal (super g) m = [d]))
  /\ (forall d,
        direction (super (fst (updateAI TILE_SIZE m r g))) = Some d ->
        direction (super g) = Some d \/ In d (available (super g) m))
  /\ (forall d,
        direction (super (fst (updateAI TILE_SIZE m r g))) = Some d ->
        isReverse (direction (super g)) d = true ->
        legal (super g) m = [d]).
Proof.
  intros Hm Hi.
  assert (Hadopt : forall d,
             direction (super (fst (updateAI TILE_SIZE m r g))) = Some d ->
             direction (super g) = Some d \/ In d (available (super g) m)).
  { intros d. unfold updateAI. rewrite Hm, Hi. intros Hd.
    apply roam_adopts in Hd. exact Hd. }
  split; [intros d; apply available_iff|]. split; [exact Hadopt|].
  intros d Hd Hrev. destruct (Hadopt d Hd) as [Hsame|Hin].
  - rewrite Hsame, isReverse_self in Hrev. discriminate.
  - apply available_iff in Hin. destruct Hin as [_ [Hno|Hsole]];
      [congruence|exact Hsole].
Qed.

(** *** Writing a cell *)

Lemma nth_error_setNth_eq {A : Type} (l : list A) (i : nat) (v : A) :
  nth_error (setNth l i v) i
  = match nth_error l i with Some _ => Some v | None => None end.
Proof.
  revert i; induction l as [|a l IH]; intros [|i]; simpl; auto.
Qed.

Lemma nth_error_setNth_neq {A : Type} (l : list A) (i j : nat) (v : A) :
  i <> j -> nth_error (setNth l i v) j = nth_error l j.
Proof.
  revert i j; induction l as [|a l IH]; intros [|i] [|j] H; simpl; auto;
    congruence.
Qed.

Lemma length_setNth {A : Type} (l : list A) (i : nat) (v : A) :
  length (setNth l i v) = length l.
Proof. revert i; induction l as [|a l IH]; intros [|i]; simpl; auto. Qed.

Lemma length_setCell (m : Grid) (cx cy : Z) (v : TileType.t) :
  length (setCell m cx cy v) = length m.
Proof.
  unfold setCell. destruct (rowAt m cy); [|reflexivity].
  destruct (cx <? 0)%Z; [reflexivity|apply length_setNth].
Qed.

Lemma lookup_setNth {A : Type} (l : list A) (i j : Z) (v : A) :
  (0 <= i)%Z ->
  (if (j <? 0)%Z then None else nth_error (setNth l (Z.to_nat i) v) (Z.to_nat j))
  = if (i =? j)%Z
    then match nth_error l (Z.to_nat i) with Some _ => Some v | None => None end
    else if (j <? 0)%Z then None else nth_error l (Z.to_nat j).
Proof.
  intros Hi. destruct (Z.eqb_spec i j) as [<-|Hne].
  - destruct (Z.ltb_spec i 0); [lia|]. apply nth_error_setNth_eq.
  - destruct (Z.ltb_spec j 0); [reflexivity|].
    apply nth_error_setNth_neq; lia.
Qed.

(** [map[cy][cx] = v], read back: the cell written holds [v] if it was
    there, every other cell holds what it held. *)
Lemma tileAt_setCell (m : Grid) (cx cy cx' cy' : Z) (v : TileType.t) :
  tileAt (setCell m cx cy v) cx' cy'
  = if ((cx =? cx') && (cy =? cy'))%Z
    then match tileAt m cx cy with Some _ => Some v | None => None end
    else tileAt m cx' cy'.
Proof.
  unfold setCell, tileAt.
  destruct (rowAt m cy) as [row|] eqn:Hr.
  2:{ destruct ((cx =? cx') && (cy =? cy'))%Z eqn:E; [|reflexivity].
      apply andb_true_iff in E; destruct E as [_ E].
      apply Z.eqb_eq in E; subst; now rewrite Hr. }
  unfold cellAt at 2.
  destruct (Z.ltb_spec cx 0) as [Hx|Hx].
  { destruct ((cx =? cx') && (cy =? cy'))%Z eqn:E; [|reflexivity].
    apply andb_true_iff in E; destruct E as [E1 E2].
    apply Z.eqb_eq in E1, E2; subst. rewrite Hr. unfold cellAt.
    destruct (Z.ltb_spec cx' 0); [reflexivity|lia]. }
  unfold rowAt in *.
  destruct (Z.ltb_spec cy 0) as [Hy|Hy]; [discriminate|].
  rewrite (lookup_setNth m cy cy' _ Hy), Hr.
  destruct (Z.eqb_spec cy cy') as [<-|Hne].
  - rewrite andb_true_r. unfold cellAt.
    rewrite (lookup_setNth row cx cx' v Hx).
    destruct (Z.ltb_spec cy 0); [lia|]. rewrite Hr.
    destruct (Z.eqb_spec cx cx') as [<-|]; [|reflexivity].
    destruct (Z.ltb_spec cx 0); [lia|reflexivity].
  - rewrite andb_false_r. reflexivity.
Qed.

(** *** Eating a pellet *)

Lemma drawFrom_eat (r : Math.Rng) (a : App) (pac : Entity) (row : list TileType.t) :
  isTile (cellAt row (gridX pac)) TileType.PELLET = true ->
  let f := drawFrom TILE_SIZE r a pac row in
  GameData.map (gameData (app f))
  = setCell (GameData.map (gameData a)) (gridX pac) (gridY pac) TileType.EMPTY
  /\ GameData.score (gameData (app f)) = (GameData.score (gameData a) + 10)%Z
  /\ score (app f) = (GameData.score (gameData a) + 10)%Z
  /\ pelletsLeft (app f) = (pelletsLeft a - 1)%Z
  /\ (In WON (calls f) <->
      (1800 <= GameData.score (gameData a) + 10)%Z \/ (pelletsLeft a - 1 = 0)%Z).
Proof.
  intros He; unfold drawFrom; rewrite He; cbn [andb].
  set (m1 := setCell _ _ _ _). set (sc1 := (_ + 10)%Z).
  pose proof (forEachGhost_calls sc1 pac m1 (GameData.ghosts (gameData a)) r) as Hg.
  destruct (forEachGhost _ _ _ _ _ _) as [[gs1 c1] r1]; simpl in Hg.
  pose proof (ultimateFrame_calls pac m1 r1 (GameData.ultimateGhost (gameData a))) as Hu.
  assert (Hc : forall u c2 r2,
             (if allMerged gs1
              then ultimateFrame TILE_SIZE pac m1 r1 (GameData.ultimateGhost (gameData a))
              else (GameData.ultimateGhost (gameData a), [], r1)) = (u, c2, r2) ->
             ~ In WON c2).
  { intros u c2 r2. destruct (allMerged gs1).
    - intros E; rewrite E in Hu; simpl in Hu. intros Hin; now apply Hu in Hin.
    - intros [= _ <- _]; auto. }
  destruct (if allMerged gs1 then _ else _) as [[u c2] r2].
  specialize (Hc u c2 r2 eq_refl). cbn.
  repeat split; try reflexivity.
  - rewrite !in_app_iff. intros [H|[H|[H|H]]].
    + left. destruct (sc1 >=? 1800)%Z eqn:E; [|contradiction]. lia.
    + apply Hg in H; discriminate.
    + contradiction.
    + right. destruct (pelletsLeft a - 1 =? 0)%Z eqn:E; [|contradiction]. lia.
  - rewrite !in_app_iff. intros [H|H].
    + left. destruct (sc1 >=? 1800)%Z eqn:E; [now left|]. lia.
    + right; right; right.
      destruct (pelletsLeft a - 1 =? 0)%Z eqn:E; [now left|]. lia.
Qed.

(** *** Collisions *)

(** The test of a ghost against the player [pac] in [ghosts.forEach]. *)
Lemma ghostFrame_lost (sc : Z) (pac : Entity) (m : Grid) (r : Math.Rng) (g : Ghost) :
  In LOST (snd (fst (ghostFrame TILE_SIZE sc pac m r g))) <->
  caught TILE_SIZE pac (fst (fst (ghostFrame TILE_SIZE sc pac m r g))).
Proof.
  unfold ghostFrame, caught.
  destruct (updateAI TILE_SIZE m r _) as [g2 r1]; cbn [fst snd].
  destruct (merged g2); cbn [negb].
  - split; [contradiction|intros [H _]; discriminate].
  - destruct (isMerging g2); cbn [negb].
    + rewrite andb_false_r. split; [contradiction|intros (_ & H & _); discriminate].
    + rewrite andb_true_r.
      destruct (Rltb _ _) eqn:E.
      * apply Rltb_true_iff in E. split; [auto|now left].
      * apply Rltb_false_iff in E. split; [contradiction|].
        intros (_ & _ & H). lra.
Qed.

Lemma forEachGhost_lost (sc : Z) (pac : Entity) (m : Grid) (gs : list Ghost) :
  forall r,
    In LOST (snd (fst (forEachGhost TILE_SIZE sc pac m r gs))) <->
    Exists (caught TILE_SIZE pac) (fst (fst (forEachGhost TILE_SIZE sc pac m r gs))).
Proof.
  induction gs as [|g t IH]; intros r; cbn [forEachGhost].
  - cbn. split; [contradiction|]. intros H; inversion H.
  - pose proof (ghostFrame_lost sc pac m r g) as Hg.
    destruct (ghostFrame TILE_SIZE sc pac m r g) as [[g' c] r1]; cbn [fst snd] in Hg.
    specialize (IH r1).
    destruct (forEachGhost TILE_SIZE sc pac m r1 t) as [[t' c'] r2]; cbn [fst snd] in *.
    rewrite in_app_iff, Exists_cons. tauto.
Qed.

Lemma allMerged_not_caught (pac : Entity) (gs : list Ghost) :
  allMerged gs = true -> ~ Exists (caught TILE_SIZE pac) gs.
Proof.
  unfold allMerged. intros H. apply andb_true_iff in H. destruct H as [_ H].
  rewrite forallb_forall in H. intros He. apply Exists_exists in He.
  destruct He as (g & Hin & Hm & _). apply H in Hin. congruence.
Qed.

Lemma ultimateFrame_lost (pac : Entity) (m : Grid) (r : Math.Rng)
    (cur : option UltimateGhost) :
  exists u,
    fst (fst (ultimateFrame TILE_SIZE pac m r cur)) = Some u
    /\ (In LOST (snd (fst (ultimateFrame TILE_SIZE pac m r cur))) <->
        Math.hypot (x pac - x (super u)) (y pac - y (super u)) < TILE_SIZE / 1.2).
Proof.
  unfold ultimateFrame.
  destruct (updateChasingAI TILE_SIZE m pac r _) as [u r1]; cbn [fst snd].
  exists u; split; [reflexivity|].
  destruct (Rltb _ _) eqn:E.
  - apply Rltb_true_iff in E. split; [auto|now left].
  - apply Rltb_false_iff in E. split; [contradiction|lra].
Qed.

(** When a frame asks for [LOST]. *)
Lemma drawFrom_lost (r : Math.Rng) (a : App) (pac : Entity) (row : list TileType.t) :
  let f := drawFrom TILE_SIZE r a pac row in
  (In LOST (calls f) <->
   Exists (caught TILE_SIZE pac) (GameData.ghosts (gameData (app f)))
   \/ (allMerged (GameData.ghosts (gameData (app f))) = true /\ In LOST (calls f)))
  /\ (allMerged (GameData.ghosts (gameData (app f))) = true ->
      exists u,
        GameData.ultimateGhost (gameData (app f)) = Some u
        /\ (In LOST (calls f) <->
            Math.hypot (x pac - x (super u)) (y pac - y (super u))
            < TILE_SIZE / 1.2)).
Proof.
  unfold drawFrom.
  set (eat := isTile _ _).
  set (m1 := if eat then setCell _ _ _ _ else _).
  set (sc1 := if eat then (_ + 10)%Z else _).
  pose proof (forEachGhost_lost sc1 pac m1 (GameData.ghosts (gameData a)) r) as Hg.
  destruct (forEachGhost _ _ _ _ _ _) as [[gs1 c1] r1]; cbn [fst snd] in Hg.
  pose proof (allMerged_not_caught pac gs1) as Hn.
  assert (Hw : forall l1 l2 : bool,
             In LOST ((if l1 then [WON] else []) ++ c1 ++ []
                      ++ (if l2 then [WON] else [])) <-> In LOST c1).
  { intros [] []; cbn; rewrite ?in_app_iff; cbn; intuition discriminate. }
  destruct (allMerged gs1) eqn:Ha.
  - destruct (ultimateFrame_lost pac m1 r1 (GameData.ultimateGhost (gameData a)))
      as (u & Hu & Hl).
    destruct (ultimateFrame _ _ _ _ _) as [[u' c2] r2]; cbn [fst snd] in *.
    subst u'. cbn. split.
    + rewrite Ha. tauto.
    + intros _. exists u; split; [reflexivity|].
      rewrite <- Hl, !in_app_iff.
      destruct (eat && _); destruct (eat && _); cbn; intuition discriminate.
  - cbn. rewrite Ha. split; [|discriminate].
    rewrite (Hw (eat && (sc1 >=? 1800)%Z) (eat && (pelletsLeft a - 1 =? 0)%Z)).
    intuition discriminate.
Qed.

(** C2, as the code has it: in a frame after which all ghosts are merged
    there is an ultimate ghost, and the frame asks for [LOST] exactly if the
    player is less than [TILE_SIZE / 1.2] (five sixths of a tile) from it. *)
Theorem ultimate_collision (r : Math.Rng) (a : App) (pac0 pac : Entity)
    (row : list TileType.t) :
  GameData.pacman (gameData a) = Some pac0 ->
  pac = updatePosition TILE_SIZE (GameData.map (gameData a)) pac0 ->
  rowAt (GameData.map (gameData a)) (gridY pac) = Some row ->
  exists f,
    draw TILE_SIZE r a = Some f
    /\ GameData.pacman (gameData (app f)) = Some pac
    /\ (allMerged (GameData.ghosts (gameData (app f))) = true ->
        exists u,
          GameData.ultimateGhost (gameData (app f)) = Some u
          /\ (In LOST (calls f) <->
              Math.hypot (x pac - x (super u)) (y pac - y (super u))
              < TILE_SIZE / 1.2)).
Proof.
  intros Hp -> Hr. unfold draw. rewrite Hp, Hr.
  set (pac := updatePosition _ _ _) in *.
  exists (drawFrom TILE_SIZE r a pac row). split; [reflexivity|].
  split; [apply drawFrom_pacman|].
  apply (drawFrom_lost r a pac row).
Qed.

(** *** Evaluating the moves *)

Lemma floor_unique (r : R) (z : Z) : IZR z <= r < IZR z + 1 -> Math.floor r = z.
Proof. intros H; symmetry; apply Int_part_spec; lra. Qed.

(** A player with nothing to do stays in its cell. *)
Lemma updatePosition_idle (m : Grid) (e : Entity) :
  direction e = None -> nextDirection e = None ->
  updatePosition TILE_SIZE m e
  = if atCenter TILE_SIZE e (speed e) then snap TILE_SIZE e else e.
Proof.
  intros Hd Hn; unfold updatePosition.
  destruct (atCenter TILE_SIZE e (speed e)).
  - cbn [snap nextDirection direction]. rewrite Hd, Hn. cbn.
    unfold moveAlong; cbn. rewrite Hd. unfold snap. now rewrite Hd, Hn.
  - unfold moveAlong; now rewrite Hd.
Qed.

(** Between two centres an entity with a direction just moves on. *)
Lemma updatePosition_between (m : Grid) (e : Entity) :
  atCenter TILE_SIZE e (speed e) = false ->
  updatePosition TILE_SIZE m e = moveAlong TILE_SIZE e.
Proof. intros H; unfold updatePosition; now rewrite H. Qed.

Lemma updateChasingAI_between (m : Grid) (pac : Entity) (r : Math.Rng)
    (u : UltimateGhost) :
  atCenter TILE_SIZE (super u) (speed (super u)) = false ->
  isSome (direction (super u)) = true ->
  updateChasingAI TILE_SIZE m pac r u
  = ({| super := moveAlong TILE_SIZE (super u);
        isMerging := isMerging u; merged := merged u |}, r).
Proof. intros H1 H2; unfold updateChasingAI; now rewrite H1, H2. Qed.

(** A roaming ghost between two centres keeps going. *)
Lemma updateAI_between (m : Grid) (r : Math.Rng) (g : Ghost) :
  merged g = false -> isMerging g = false ->
  atCenter TILE_SIZE (super g) 2 = false ->
  isSome (direction (super g)) = true ->
  updateAI TILE_SIZE m r g
  = ({| super := moveAlong TILE_SIZE (setSpeed (super g) 2);
        isMerging := false; merged := false |}, r).
Proof.
  intros Hm Hi Hc Hd. unfold updateAI. rewrite Hm, Hi. unfold roam. cbn [super].
  change (atCenter TILE_SIZE (setSpeed (super g) 2) (speed (setSpeed (super g) 2)))
    with (atCenter TILE_SIZE (super g) 2).
  change (direction (setSpeed (super g) 2)) with (direction (super g)).
  rewrite Hc, Hd. reflexivity.
Qed.

(** [isMerging] latched by the score, as [ghosts.forEach] begins. *)
Lemma forEachGhost_merged (sc : Z) (pac : Entity) (m : Grid) (gs : list Ghost) :
  forallb merged gs = true ->
  forall r,
    forEachGhost TILE_SIZE sc pac m r gs
    = (List.map (fun g => if (sc >=? 1500)%Z
                          then {| super := super g; isMerging := true;
                                  merged := merged g |}
                          else g) gs, [], r).
Proof.
  induction gs as [|g t IH]; intros Hm r; [reflexivity|].
  cbn [forallb] in Hm. apply andb_true_iff in Hm. destruct Hm as [Hg Ht].
  cbn [forEachGhost List.map]. unfold ghostFrame, updateAI.
  destruct (sc >=? 1500)%Z; cbn [merged]; rewrite Hg; cbn [negb];
    rewrite (IH Ht); cbn [merged]; rewrite ?Hg; reflexivity.
Qed.

Lemma updatePosition_idle_cell (m : Grid) (e : Entity) :
  direction e = None -> nextDirection e = None ->
  gridX (updatePosition TILE_SIZE m e) = gridX e
  /\ gridY (updatePosition TILE_SIZE m e) = gridY e.
Proof.
  intros Hd Hn. rewrite updatePosition_idle by assumption.
  destruct (atCenter TILE_SIZE e (speed e)); split; reflexivity.
Qed.

(** *** The score *)

Lemma drawFrom_score (r : Math.Rng) (a : App) (pac : Entity) (row : list TileType.t) :
  let f := drawFrom TILE_SIZE r a pac row in
  (GameData.score (gameData (app f)) = GameData.score (gameData a)
   /\ score (app f) = score a)
  \/ (GameData.score (gameData (app f)) = (GameData.score (gameData a) + 10)%Z
      /\ score (app f) = (GameData.score (gameData a) + 10)%Z).
Proof.
  unfold drawFrom.
  destruct (forEachGhost _ _ _ _ _ _) as [[gs1 c1] r1].
  destruct (if allMerged gs1 then _ else _) as [[u c2] r2]; cbn.
  destruct (isTile _ _); auto.
Qed.

(** What a step does to the two scores (the ref's and the displayed one). *)
Lemma step_score (MAP : Grid) (a a' : App) :
  step TILE_SIZE MAP a a' ->
  (GameData.score (gameData a') = GameData.score (gameData a)
   /\ score a' = score a)
  \/ (GameData.score (gameData a') = (GameData.score (gameData a) + 10)%Z
      /\ score a' = (GameData.score (gameData a) + 10)%Z).
Proof.
  intros [key a0 | a0 a1 Hr | r a0 f Hd].
  - left. unfold handleKeyDown.
    destruct (GameData.pacman (gameData a0)); auto.
  - left. unfold respawn in Hr. destruct (GameState_eqb _ _).
    + destruct (respawnLoop _ _ _) as [[m n]|]; [|discriminate].
      injection Hr as <-; auto.
    + injection Hr as <-; auto.
  - cbn. unfold draw in Hd.
    destruct (GameData.pacman (gameData a0)) as [pac0|].
    + destruct (rowAt _ _) as [row|]; [|discriminate].
      injection Hd as <-. apply drawFrom_score.
    + injection Hd as <-; auto.
Qed.

(** In a game both scores are the same multiple of 10. *)
Lemma inGame_score (MAP : Grid) (a : App) :
  inGame TILE_SIZE MAP a ->
  exists n : nat,
    GameData.score (gameData a) = (10 * Z.of_nat n)%Z
    /\ score a = (10 * Z.of_nat n)%Z.
Proof.
  induction 1 as [a | a a' Ha [n [IH1 IH2]] Hs].
  - exists O; split; reflexivity.
  - destruct (step_score MAP a a' Hs) as [[H1 H2]|[H1 H2]].
    + exists n; split; congruence.
    + exists (S n); split; lia.
Qed.


(** *** The grid cell follows the position *)

Lemma floor_center (g : Z) :
  0 < TILE_SIZE ->
  Math.floor ((IZR g * TILE_SIZE + TILE_SIZE / 2) / TILE_SIZE) = g.
Proof.
  intros HT. apply floor_unique.
  replace ((IZR g * TILE_SIZE + TILE_SIZE / 2) / TILE_SIZE) with (IZR g + 1 / 2)
    by (field; lra).
  lra.
Qed.

Lemma inCell_snap (e : Entity) : 0 < TILE_SIZE -> inCell TILE_SIZE (snap TILE_SIZE e).
Proof.
  intros HT; unfold inCell, snap, centerX, centerY; cbn.
  now rewrite !floor_center.
Qed.

Lemma inCell_moveAlong (e : Entity) :
  inCell TILE_SIZE e -> inCell TILE_SIZE (moveAlong TILE_SIZE e).
Proof.
  unfold moveAlong. destruct (direction e); [|auto].
  intros _; split; reflexivity.
Qed.

(** [inCell] looks at the position and the cell only. *)
Lemma inCell_ext (e e' : Entity) :
  x e' = x e -> y e' = y e -> gridX e' = gridX e -> gridY e' = gridY e ->
  inCell TILE_SIZE e -> inCell TILE_SIZE e'.
Proof. unfold inCell; intros -> -> -> ->; auto. Qed.

Lemma inCell_updatePosition (m : Grid) (e : Entity) :
  0 < TILE_SIZE -> inCell TILE_SIZE e -> inCell TILE_SIZE (updatePosition TILE_SIZE m e).
Proof.
  intros HT He; unfold updatePosition; apply inCell_moveAlong.
  destruct (atCenter TILE_SIZE e (speed e)); [|exact He].
  pose proof (inCell_snap e HT) as Hs.
  destruct (isSome _ && _).
  - revert Hs; apply inCell_ext; reflexivity.
  - destruct (isSome _ && _); [|exact Hs].
    revert Hs; apply inCell_ext; reflexivity.
Qed.

Lemma inCell_roam (m : Grid) (r : Math.Rng) (g : Ghost) :
  0 < TILE_SIZE -> inCell TILE_SIZE (super g) ->
  inCell TILE_SIZE (super (fst (roam TILE_SIZE m r g))).
Proof.
  intros HT Hg; unfold roam.
  pose proof (inCell_snap (super g) HT) as Hs.
  destruct (atCenter _ _ _ || _).
  - destruct (0 <? _)%nat.
    + destruct (isSome _ && _).
      * destruct (Math.random r) as [r1 rng1]. destruct (Rltb r1 0.7).
        -- cbn [fst super]. now apply inCell_moveAlong.
        -- destruct (Math.random rng1) as [r2 rng2]. cbn [fst super].
           apply inCell_moveAlong. revert Hs; apply inCell_ext; reflexivity.
      * destruct (Math.random r) as [r2 rng2]. cbn [fst super].
        apply inCell_moveAlong. revert Hs; apply inCell_ext; reflexivity.
    + cbn [fst super]. now apply inCell_moveAlong.
  - cbn [fst super]. now apply inCell_moveAlong.
Qed.

Lemma inCell_updateChasingAI (m : Grid) (pac : Entity) (r : Math.Rng)
    (u : UltimateGhost) :
  0 < TILE_SIZE -> inCell TILE_SIZE (super u) ->
  inCell TILE_SIZE (super (fst (updateChasingAI TILE_SIZE m pac r u))).
Proof.
  intros HT Hg; unfold updateChasingAI.
  pose proof (inCell_snap (super u) HT) as Hs.
  destruct (atCenter _ _ _ || _).
  - destruct (0 <? _)%nat.
    + destruct (Math.random r) as [r1 rng1]. destruct (Rltb r1 0.8).
      * cbn [fst super]. apply inCell_moveAlong.
        revert Hs; apply inCell_ext; reflexivity.
      * destruct (Math.random rng1) as [r2 rng2]. cbn [fst super].
        apply inCell_moveAlong. revert Hs; apply inCell_ext; reflexivity.
    + cbn [fst super]. now apply inCell_moveAlong.
  - cbn [fst super]. now apply inCell_moveAlong.
Qed.

(** Each leg of a right triangle is at most the hypotenuse. *)
Lemma hypot_bound (a b c : R) :
  Math.hypot a b < c -> - c < a < c /\ - c < b < c.
Proof.
  unfold Math.hypot; intros H.
  assert (Hs : 0 <= a * a + b * b) by nra.
  pose proof (sqrt_pos (a * a + b * b)) as Hp.
  pose proof (sqrt_sqrt _ Hs) as Hq.
  set (h := sqrt (a * a + b * b)) in *.
  split; split; nra.
Qed.

(** Around the centre point, within 5 units, the cell is (9, 9), the tile
    being at least 10 units wide. *)
Lemma floor_near_target (v : R) :
  10 <= TILE_SIZE ->
  - 5 < v - (9 * TILE_SIZE + TILE_SIZE / 2) < 5 ->
  Math.floor (v / TILE_SIZE) = 9%Z
  /\ Math.floor ((9 * TILE_SIZE + TILE_SIZE / 2) / TILE_SIZE) = 9%Z.
Proof.
  intros HT Hv. split.
  - apply floor_unique.
    assert (H : v / TILE_SIZE * TILE_SIZE = v) by (field; lra).
    set (q := v / TILE_SIZE) in *. split; nra.
  - apply (floor_center 9). lra.
Qed.

Lemma inCell_converge (g : Ghost) :
  10 <= TILE_SIZE -> inCell TILE_SIZE (super (converge TILE_SIZE g)).
Proof.
  intros HT; unfold converge.
  set (x1 := x (super g) + _). set (y1 := y (super g) + _).
  destruct (Rltb _ 5) eqn:E; cbn [super]; [|split; reflexivity].
  apply Rltb_true_iff, hypot_bound in E. destruct E as [Ex Ey].
  unfold inCell, targetX, targetY in *; cbn.
  destruct (floor_near_target x1 HT Ex) as [-> ->].
  destruct (floor_near_target y1 HT Ey) as [-> _].
  split; reflexivity.
Qed.

(** C4: a motion update of the player, of a ghost or of the ultimate ghost
    keeps the stored grid cell equal to the floor of position over tile
    size, on both axes.  The tile size is taken to be at least 10 units: a
    ghost that merges is put on the centre point without its cell being
    computed again, and the cell computed just before is the right one
    because the ghost was then less than 5 units, half a tile at most, from
    that point. *)
Theorem grid_cell_follows_position (e e' : Entity) :
  10 <= TILE_SIZE ->
  motionUpdate TILE_SIZE e e' ->
  inCell TILE_SIZE e -> inCell TILE_SIZE e'.
Proof.
  intros HT Hm He.
  assert (HT0 : 0 < TILE_SIZE) by lra.
  destruct Hm as [m e | m r g | m pac r u].
  - now apply inCell_updatePosition.
  - unfold updateAI. destruct (merged g); [exact He|].
    destruct (isMerging g).
    + cbn [fst]. now apply inCell_converge.
    + apply inCell_roam; [exact HT0|exact He].
  - now apply inCell_updateChasingAI.
Qed.

(** *** The angle towards a point *)

Lemma hypot_pos (a b : R) : (a <> 0 \/ b <> 0) -> 0 < Math.hypot a b.
Proof.
  intros H; unfold Math.hypot; apply sqrt_lt_R0. destruct H; nra.
Qed.

Lemma hypot_sq (a b : R) : Math.hypot a b * Math.hypot a b = a * a + b * b.
Proof. unfold Math.hypot; apply sqrt_sqrt; nra. Qed.

Lemma sqrt_slope (a b s : R) :
  0 < s -> s * s = a * a ->
  sqrt (1 + (b / a)²) = Math.hypot a b / s.
Proof.
  intros Hs Hsa.
  assert (Ha : a <> 0) by nra.
  pose proof (hypot_pos a b (or_introl Ha)) as Hh.
  pose proof (hypot_sq a b) as Hq.
  apply sqrt_lem_1.
  - unfold Rsqr; nra.
  - apply Rlt_le, Rdiv_lt_0_compat; assumption.
  - unfold Rsqr.
    replace (Math.hypot a b / s * (Math.hypot a b / s))
      with ((Math.hypot a b * Math.hypot a b) / (s * s)) by (field; lra).
    rewrite Hq, Hsa. field; exact Ha.
Qed.

(** The cosine and the sine of [atan2 b a] are those of the direction of
    the vector [(a, b)]. *)
Lemma atan2_direction (b a : R) :
  a <> 0 \/ b <> 0 ->
  Math.cos (Math.atan2 b a) = a / Math.hypot a b
  /\ Math.sin (Math.atan2 b a) = b / Math.hypot a b.
Proof.
  intros Hab. pose proof (hypot_pos a b Hab) as Hh.
  unfold Math.cos, Math.sin, Math.atan2.
  destruct (Rlt_dec 0 a) as [Hpos|Hnpos].
  - rewrite cos_atan, sin_atan, (sqrt_slope a b a) by nra.
    split; field; lra.
  - destruct (Rlt_dec a 0) as [Hneg|Hnneg].
    + assert (Hs : sqrt (1 + (b / a)²) = Math.hypot a b / - a)
        by (apply sqrt_slope; nra).
      destruct (Rlt_dec b 0).
      * rewrite cos_minus, sin_minus, cos_PI, sin_PI, cos_atan, sin_atan, Hs.
        split; field; lra.
      * rewrite neg_cos, neg_sin, cos_atan, sin_atan, Hs.
        split; field; lra.
    + assert (a = 0) by lra. subst a.
      assert (Hb : b <> 0) by (destruct Hab; [lra|assumption]).
      unfold Math.hypot in *.
      destruct (Rlt_dec 0 b).
      * rewrite cos_PI2, sin_PI2.
        replace (0 * 0 + b * b) with (b * b) by ring.
        rewrite sqrt_square by lra. split; field; lra.
      * destruct (Rlt_dec b 0); [|lra].
        rewrite cos_neg, sin_neg, cos_PI2, sin_PI2.
        replace (0 * 0 + b * b) with (- b * - b) by ring.
        rewrite sqrt_square by lra. split; field; lra.
Qed.

(** A step of length [s] along any angle has length [s]. *)
Lemma hypot_polar (t s : R) :
  0 <= s -> Math.hypot (Math.cos t * s) (Math.sin t * s) = s.
Proof.
  intros Hs; unfold Math.hypot, Math.cos, Math.sin.
  replace (cos t * s * (cos t * s) + sin t * s * (sin t * s))
    with (s * s * ((sin t)² + (cos t)²)) by (unfold Rsqr; ring).
  rewrite sin2_cos2, Rmult_1_r. now apply sqrt_square.
Qed.

(** *** The merge trigger *)

Lemma forEachGhost_Forall2 (P : Ghost -> Ghost -> Prop) (sc : Z) (pac : Entity)
    (m : Grid) :
  (forall r g, P g (fst (fst (ghostFrame TILE_SIZE sc pac m r g)))) ->
  forall gs r, Forall2 P gs (fst (fst (forEachGhost TILE_SIZE sc pac m r gs))).
Proof.
  intros HP; induction gs as [|g t IH]; intros r; cbn [forEachGhost].
  - constructor.
  - pose proof (HP r g) as Hg.
    destruct (ghostFrame TILE_SIZE sc pac m r g) as [[g' c] r1]; cbn [fst] in Hg.
    specialize (IH r1).
    destruct (forEachGhost TILE_SIZE sc pac m r1 t) as [[t' c'] r2]; cbn [fst] in *.
    now constructor.
Qed.

Lemma roam_isMerging (m : Grid) (r : Math.Rng) (g : Ghost) :
  isMerging (fst (roam TILE_SIZE m r g)) = isMerging g.
Proof.
  unfold roam.
  destruct (if atCenter _ _ _ || _ then _ else _) as [e1 r1]; reflexivity.
Qed.

Lemma converge_isMerging (g : Ghost) :
  isMerging (converge TILE_SIZE g) = isMerging g.
Proof. unfold converge; destruct (Rltb _ 5); reflexivity. Qed.

Lemma updateAI_isMerging (m : Grid) (r : Math.Rng) (g : Ghost) :
  isMerging (fst (updateAI TILE_SIZE m r g)) = isMerging g.
Proof.
  unfold updateAI. destruct (merged g); [reflexivity|].
  destruct (isMerging g) eqn:E; cbn [fst].
  - now rewrite converge_isMerging.
  - now rewrite roam_isMerging.
Qed.

(** Below the trigger a frame leaves [isMerging] as it is. *)
Lemma ghostFrame_before (sc : Z) (pac : Entity) (m : Grid) (r : Math.Rng) (g : Ghost) :
  (sc < 1500)%Z ->
  isMerging (fst (fst (ghostFrame TILE_SIZE sc pac m r g))) = isMerging g.
Proof.
  intros Hsc; unfold ghostFrame.
  destruct (Z.geb_spec sc 1500) as [Hge|Hlt]; [lia|].
  pose proof (updateAI_isMerging m r g) as Hu.
  destruct (updateAI TILE_SIZE m r g) as [g2 r1]; exact Hu.
Qed.

(** The move of a merging ghost. *)
Lemma converge_spec (g : Ghost) :
  merged g = false -> isMerging g = true -> speed (super g) = 3 ->
  converges TILE_SIZE g (converge TILE_SIZE g).
Proof.
  intros Hm Hi Hs. unfold converges.
  split; [now rewrite converge_isMerging|].
  split; [congruence|]. intros _.
  unfold converge. rewrite Hs.
  set (dx := targetX TILE_SIZE - x (super g)).
  set (dy := targetY TILE_SIZE - y (super g)).
  set (x1 := x (super g) + Math.cos (Math.atan2 dy dx) * 3).
  set (y1 := y (super g) + Math.sin (Math.atan2 dy dx) * 3).
  exists x1, y1.
  split.
  { replace (x1 - x (super g)) with (Math.cos (Math.atan2 dy dx) * 3)
      by (unfold x1; ring).
    replace (y1 - y (super g)) with (Math.sin (Math.atan2 dy dx) * 3)
      by (unfold y1; ring).
    apply hypot_polar; lra. }
  split.
  { intros Hne.
    assert (Hd : dx <> 0 \/ dy <> 0) by (unfold dx, dy; destruct Hne; [left|right]; lra).
    destruct (atan2_direction dy dx Hd) as [Hc Hsn].
    pose proof (hypot_pos dx dy Hd) as Hh.
    exists (3 / Math.hypot dx dy). split.
    - apply Rdiv_lt_0_compat; lra.
    - unfold x1, y1. rewrite Hc, Hsn. fold dx dy. split; field; lra. }
  destruct (Rltb (Math.hypot (x1 - targetX TILE_SIZE) (y1 - targetY TILE_SIZE)) 5)
    eqn:E; cbn [merged super x y direction].
  - apply Rltb_true_iff in E. repeat split; auto; discriminate.
  - apply Rltb_false_iff in E. rewrite Hm. repeat split; try discriminate.
    intros Hlt; lra.
Qed.

(** At or above the trigger a frame makes every ghost merging and moves
    those not merged by [converge]. *)
Lemma ghostFrame_converges (sc : Z) (pac : Entity) (m : Grid) (r : Math.Rng)
    (g : Ghost) :
  (1500 <= sc)%Z ->
  converges TILE_SIZE g (fst (fst (ghostFrame TILE_SIZE sc pac m r g))).
Proof.
  intros Hsc; unfold ghostFrame.
  destruct (Z.geb_spec sc 1500) as [Hge|Hlt]; [|lia].
  unfold updateAI; cbn [merged isMerging super].
  destruct (merged g) eqn:Hm; cbn [fst].
  - unfold converges; cbn. repeat split; auto; congruence.
  - set (g1 := {| super := setSpeed (super g) 3; isMerging := true; merged := false |}).
    pose proof (converge_spec g1 eq_refl eq_refl eq_refl) as H.
    unfold converges in *; cbn [super merged isMerging g1 setSpeed x y] in H.
    rewrite Hm. destruct H as (H1 & _ & H3).
    split; [exact H1|]. split; [discriminate|]. intros _. now apply H3.
Qed.

Lemma drawFrom_ghosts (r : Math.Rng) (a : App) (pac : Entity) (row : list TileType.t) :
  exists m1,
    GameData.ghosts (gameData (app (drawFrom TILE_SIZE r a pac row)))
    = fst (fst (forEachGhost TILE_SIZE
                  (GameData.score (gameData (app (drawFrom TILE_SIZE r a pac row))))
                  pac m1 r (GameData.ghosts (gameData a)))).
Proof.
  unfold drawFrom.
  set (eat := isTile _ _).
  set (m1 := if eat then setCell _ _ _ _ else _).
  set (sc1 := if eat then (_ + 10)%Z else _).
  exists m1.
  destruct (forEachGhost _ _ _ _ _ _) as [[gs1 c1] r1] eqn:Eg.
  destruct (if allMerged gs1 then _ else _) as [[u c2] r2]; cbn.
  now rewrite Eg.
Qed.

(** C1: in a frame that ends with a score of at least 1500 every ghost is
    merging; a ghost that was merged stays as it was; a ghost that was not
    moves exactly 3 units, along the ray from its position to the centre
    point, walls or not, and becomes merged exactly if it then is less than
    5 units from the centre point, in which case it is put on the centre
    point and its direction is cleared.  In a frame that ends with a score
    below 1500 no ghost's [isMerging] changes. *)
Theorem merge_trigger (r : Math.Rng) (a : App) (pac0 pac : Entity)
    (row : list TileType.t) :
  GameData.pacman (gameData a) = Some pac0 ->
  pac = updatePosition TILE_SIZE (GameData.map (gameData a)) pac0 ->
  rowAt (GameData.map (gameData a)) (gridY pac) = Some row ->
  exists f,
    draw TILE_SIZE r a = Some f
    /\ ((GameData.score (gameData (app f)) < 1500)%Z ->
        Forall2 (fun g g' => isMerging g' = isMerging g)
                (GameData.ghosts (gameData a)) (GameData.ghosts (gameData (app f))))
    /\ ((1500 <= GameData.score (gameData (app f)))%Z ->
        Forall2 (converges TILE_SIZE)
                (GameData.ghosts (gameData a)) (GameData.ghosts (gameData (app f)))).
Proof.
  intros Hp -> Hr. unfold draw. rewrite Hp, Hr.
  set (pac := updatePosition _ _ _) in *.
  exists (drawFrom TILE_SIZE r a pac row). split; [reflexivity|].
  destruct (drawFrom_ghosts r a pac row) as [m1 ->].
  split; intros Hsc; apply forEachGhost_Forall2; intros r' g.
  - now apply ghostFrame_before.
  - now apply ghostFrame_converges.
Qed.

Lemma drawFrom_pellets (r : Math.Rng) (a : App) (pac : Entity) (row : list TileType.t) :
  let f := drawFrom TILE_SIZE r a pac row in
  let eat := isTile (cellAt row (gridX pac)) TileType.PELLET in
  GameData.map (gameData (app f))
  = (if eat
     then setCell (GameData.map (gameData a)) (gridX pac) (gridY pac) TileType.EMPTY
     else GameData.map (gameData a))
  /\ pelletsLeft (app f) = (if eat then (pelletsLeft a - 1)%Z else pelletsLeft a)
  /\ GameData.score (gameData (app f))
     = (if eat then (GameData.score (gameData a) + 10)%Z
        else GameData.score (gameData a)).
Proof.
  cbv zeta. unfold drawFrom.
  destruct (forEachGhost _ _ _ _ _ _) as [[gs1 c1] r1].
  destruct (if allMerged gs1 then _ else _) as [[u c2] r2]; cbn.
  repeat split.
Qed.

Lemma drawFrom_ghosts_map (r : Math.Rng) (a : App) (pac : Entity)
    (row : list TileType.t) :
  let f := drawFrom TILE_SIZE r a pac row in
  GameData.ghosts (gameData (app f))
  = fst (fst (forEachGhost TILE_SIZE (GameData.score (gameData (app f))) pac
                (GameData.map (gameData (app f))) r (GameData.ghosts (gameData a)))).
Proof.
  cbv zeta. unfold drawFrom.
  destruct (forEachGhost _ _ _ _ _ _) as [[gs1 l1] r1] eqn:Eg.
  destruct (if allMerged gs1 then _ else _) as [[ug1 l2] r2].
  cbn [app gameData GameData.ghosts GameData.score GameData.map].
  rewrite Eg. reflexivity.
Qed.

(** Each ghost after a frame is the ghost before it, moved. *)
Lemma drawFrom_ghostMoves (r : Math.Rng) (a : App) (pac : Entity)
    (row : list TileType.t) :
  let f := drawFrom TILE_SIZE r a pac row in
  Forall2 (ghostMoves TILE_SIZE (GameData.score (gameData (app f)))
                      (GameData.map (gameData (app f))))
          (GameData.ghosts (gameData a)) (GameData.ghosts (gameData (app f))).
Proof.
  cbv zeta. rewrite drawFrom_ghosts_map. apply forEachGhost_Forall2.
  intros r' g. exists r'. unfold ghostFrame.
  destruct (updateAI _ _ _ _) as [g2 r2]. reflexivity.
Qed.

(** *** The phase after a frame *)

(** The calls of a frame, committed: the call of the pellet counter comes
    last, the calls of the collision tests before it, the call of the score
    first. *)
Lemma commit_frame (p : GameState) (byScore byPellets : bool) (l : list GameState) :
  (forall q, In q l -> q = LOST) ->
  commit p ((if byScore then [WON] else []) ++ l ++ (if byPellets then [WON] else []))
  = if byPellets then WON
    else match l with
         | _ :: _ => LOST
         | [] => if byScore then WON else p
         end.
Proof.
  intros Hl. rewrite !commit_app.
  destruct byPellets; [reflexivity|]. cbn [commit last].
  destruct l as [|q l]; [destruct byScore; reflexivity|].
  apply commit_all; [exact Hl|discriminate].
Qed.

(** A frame asks for [LOST] exactly if one of its collision tests
    triggers. *)
Lemma drawFrom_collides (r : Math.Rng) (a : App) (pac : Entity)
    (row : list TileType.t) :
  let f := drawFrom TILE_SIZE r a pac row in
  In LOST (calls f) <-> collides TILE_SIZE pac (app f).
Proof.
  cbv zeta. destruct (drawFrom_lost r a pac row) as [H1 H2]. unfold collides.
  split.
  - intros H. apply H1 in H. destruct H as [H|[Hm H]]; [now left|right].
    split; [exact Hm|]. destruct (H2 Hm) as (u & Hu & Hd).
    exists u. split; [exact Hu|now apply Hd].
  - intros [H|[Hm (u & Hu & Hd)]]; [apply H1; now left|].
    destruct (H2 Hm) as (u' & Hu' & Hd'). apply Hd'.
    rewrite Hu in Hu'. injection Hu' as <-. exact Hd.
Qed.

(** The phase a frame ends in: [WON] if the player ate the last pellet;
    if not, [LOST] if a collision test triggered; if not, [WON] if the
    player ate a pellet that took the score to 1800 or beyond; if not, the
    phase it started in. *)
Lemma drawFrom_phase (r : Math.Rng) (a : App) (pac : Entity) (row : list TileType.t) :
  let f := drawFrom TILE_SIZE r a pac row in
  let eat := isTile (cellAt row (gridX pac)) TileType.PELLET in
  (eat = true /\ pelletsLeft (app f) = 0%Z -> gameState (afterFrame a f) = WON)
  /\ (~ (eat = true /\ pelletsLeft (app f) = 0%Z) ->
      (collides TILE_SIZE pac (app f) -> gameState (afterFrame a f) = LOST)
      /\ (~ collides TILE_SIZE pac (app f) ->
          gameState (afterFrame a f)
          = if eat && (GameData.score (gameData (app f)) >=? 1800)%Z
            then WON else gameState a)).
Proof.
  cbv zeta. rewrite <- drawFrom_collides.
  unfold afterFrame. cbn [setGameState gameState].
  destruct (drawFrom_pellets r a pac row) as (_ & Hl & Hs).
  cbv zeta in Hl, Hs. rewrite Hl, Hs. clear Hl Hs.
  unfold drawFrom.
  set (eat := isTile _ _).
  set (m1 := if eat then setCell _ _ _ _ else _).
  set (sc1 := if eat then (_ + 10)%Z else _).
  pose proof (forEachGhost_calls sc1 pac m1 (GameData.ghosts (gameData a)) r) as Hg.
  destruct (forEachGhost _ _ _ _ _ _) as [[gs1 c1] r1]; cbn [fst snd] in Hg.
  assert (Hu : forall u c2 r2,
             (if allMerged gs1
              then ultimateFrame TILE_SIZE pac m1 r1 (GameData.ultimateGhost (gameData a))
              else (GameData.ultimateGhost (gameData a), [], r1)) = (u, c2, r2) ->
             forall q, In q c2 -> q = LOST).
  { intros u c2 r2. destruct (allMerged gs1).
    - intros E q. pose proof (ultimateFrame_calls pac m1 r1
                                (GameData.ultimateGhost (gameData a)) q) as H.
      rewrite E in H. exact H.
    - intros [= _ <- _] q []. }
  destruct (if allMerged gs1 then _ else _) as [[u c2] r2].
  specialize (Hu u c2 r2 eq_refl). cbn [calls].
  assert (Hall : forall q, In q (c1 ++ c2) -> q = LOST).
  { intros q Hq. apply in_app_iff in Hq. destruct Hq; auto. }
  rewrite (app_assoc c1 c2), (commit_frame _ _ _ _ Hall).
  assert (Hin : In LOST ((if eat && (sc1 >=? 1800)%Z then [WON] else [])
                         ++ (c1 ++ c2)
                         ++ (if eat && (pelletsLeft a - 1 =? 0)%Z then [WON] else []))
                <-> c1 ++ c2 <> []).
  { rewrite in_app_iff, in_app_iff. split.
    - intros [H|[H|H]].
      + destruct (eat && _); [destruct H as [H|[]]; discriminate|destruct H].
      + intros E. rewrite E in H. destruct H.
      + destruct (eat && _); [destruct H as [H|[]]; discriminate|destruct H].
    - intros Hne. right; left. destruct (c1 ++ c2) as [|q l]; [now elim Hne|].
      left. apply Hall. now left. }
  rewrite Hin. clear Hin.
  split.
  - intros [He Hz]. rewrite He in *. cbn [andb].
    destruct (Z.eqb_spec (pelletsLeft a - 1) 0) as [_|Hne]; [reflexivity|now elim Hne].
  - intros Hno.
    assert (Hp : eat && (pelletsLeft a - 1 =? 0)%Z = false).
    { destruct eat; [|reflexivity]. cbn [andb].
      destruct (Z.eqb_spec (pelletsLeft a - 1) 0) as [Hz|Hne]; [|reflexivity].
      elim Hno. auto. }
    rewrite Hp. split.
    + intros Hne. destruct (c1 ++ c2); [now elim Hne|reflexivity].
    + intros Hne. destruct (c1 ++ c2) as [|q l]; [reflexivity|].
      elim Hne. discriminate.
Qed.



(** *** The respawn loops *)

Lemma rowAt_nat (g : Grid) (cy : nat) : rowAt g (Z.of_nat cy) = nth_error g cy.
Proof.
  unfold rowAt. destruct (Z.ltb_spec (Z.of_nat cy) 0); [lia|].
  now rewrite Nat2Z.id.
Qed.

Lemma cellAt_nat (row : list TileType.t) (cx : nat) :
  cellAt row (Z.of_nat cx) = nth_error row cx.
Proof.
  unfold cellAt. destruct (Z.ltb_spec (Z.of_nat cx) 0); [lia|].
  now rewrite Nat2Z.id.
Qed.

Lemma tileAt_negative (g : Grid) (cx cy : Z) :
  (cx < 0 \/ cy < 0)%Z -> tileAt g cx cy = None.
Proof.
  intros H; unfold tileAt, rowAt, cellAt.
  destruct (Z.ltb_spec cy 0); [reflexivity|].
  destruct (nth_error g (Z.to_nat cy)); [|reflexivity].
  destruct (Z.ltb_spec cx 0); [reflexivity|lia].
Qed.

(** One pass of the inner loop body: the cell is restored if it is
    [restorable], and nothing else happens. *)
Lemma respawnCell_spec (p : option Entity) (cy cx : nat) (c : TileType.t)
    (g : Grid) (n : Z) :
  (cy < length g)%nat ->
  respawnCell p cy cx c (g, n)
  = Some (if restorable (Some c) (tileAt g (Z.of_nat cx) (Z.of_nat cy))
                        (playerAt p (Z.of_nat cx) (Z.of_nat cy))
          then (setCell g (Z.of_nat cx) (Z.of_nat cy) TileType.PELLET, (n + 1)%Z)
          else (g, n)).
Proof.
  intros Hy. unfold respawnCell, restorable, tileAt. cbn [fst snd isTile].
  destruct (TileType.eqb c TileType.PELLET); cbn [andb]; [|reflexivity].
  rewrite rowAt_nat.
  destruct (nth_error g cy) as [row|] eqn:Hr.
  2:{ apply nth_error_None in Hr. lia. }
  destruct (isTile (cellAt row (Z.of_nat cx)) TileType.EMPTY); [|reflexivity].
  change (pacmanAt p cx cy) with (playerAt p (Z.of_nat cx) (Z.of_nat cy)).
  destruct (playerAt p (Z.of_nat cx) (Z.of_nat cy)); reflexivity.
Qed.

(** The grid after one pass of the body, cell by cell. *)
Lemma restore_tileAt (p : option Entity) (cy cx : nat) (c : TileType.t)
    (g : Grid) (n : Z) (cx' cy' : nat) :
  let st := if restorable (Some c) (tileAt g (Z.of_nat cx) (Z.of_nat cy))
                          (playerAt p (Z.of_nat cx) (Z.of_nat cy))
            then (setCell g (Z.of_nat cx) (Z.of_nat cy) TileType.PELLET, (n + 1)%Z)
            else (g, n) in
  length (fst st) = length g
  /\ tileAt (fst st) (Z.of_nat cx') (Z.of_nat cy')
     = if (cx =? cx')%nat && (cy =? cy')%nat
       then if restorable (Some c) (tileAt g (Z.of_nat cx) (Z.of_nat cy))
                          (playerAt p (Z.of_nat cx) (Z.of_nat cy))
            then Some TileType.PELLET
            else tileAt g (Z.of_nat cx) (Z.of_nat cy)
       else tileAt g (Z.of_nat cx') (Z.of_nat cy').
Proof.
  cbv zeta.
  destruct (restorable _ _ _) eqn:Hres; cbn [fst].
  - split; [apply length_setCell|].
    rewrite tileAt_setCell.
    destruct (Nat.eqb_spec cx cx') as [<-|Hx]; destruct (Nat.eqb_spec cy cy') as [<-|Hy];
      cbn [andb].
    + rewrite !Z.eqb_refl. cbn [andb].
      unfold restorable in Hres.
      destruct (tileAt g (Z.of_nat cx) (Z.of_nat cy)); [reflexivity|].
      cbn in Hres. rewrite andb_false_r in Hres. discriminate.
    + destruct (Z.eqb_spec (Z.of_nat cy) (Z.of_nat cy')); [lia|].
      now rewrite andb_false_r.
    + destruct (Z.eqb_spec (Z.of_nat cx) (Z.of_nat cx')); [lia|]. reflexivity.
    + destruct (Z.eqb_spec (Z.of_nat cx) (Z.of_nat cx')); [lia|]. reflexivity.
  - split; [reflexivity|].
    destruct (Nat.eqb_spec cx cx') as [<-|Hx]; destruct (Nat.eqb_spec cy cy') as [<-|Hy];
      reflexivity.
Qed.

Lemma restorable_None (cur : option TileType.t) (exempt : bool) :
  restorable None cur exempt = false.
Proof. reflexivity. Qed.

(** The inner loop over the cells [s], [s + 1], ... of row [cy]. *)
Lemma respawnCells_spec (p : option Entity) (cy : nat) (l : list TileType.t) :
  forall (s : nat) (g : Grid) (n : Z),
    (cy < length g)%nat ->
    exists g' n',
      forEachM (fun xc => respawnCell p cy (fst xc) (snd xc))
               (combine (seq s (length l)) l) (g, n) = Some (g', n')
      /\ length g' = length g
      /\ forall cx' cy' : nat,
          tileAt g' (Z.of_nat cx') (Z.of_nat cy')
          = if (cy' =? cy)%nat && (s <=? cx')%nat
               && restorable (nth_error l (cx' - s))
                             (tileAt g (Z.of_nat cx') (Z.of_nat cy'))
                             (playerAt p (Z.of_nat cx') (Z.of_nat cy'))
            then Some TileType.PELLET
            else tileAt g (Z.of_nat cx') (Z.of_nat cy').
Proof.
  induction l as [|c t IH]; intros s g n Hy.
  - exists g, n. split; [reflexivity|]. split; [reflexivity|].
    intros cx' cy'. destruct (cx' - s)%nat; cbn [nth_error];
      rewrite restorable_None, andb_false_r; reflexivity.
  - cbn [length seq combine forEachM fst snd].
    rewrite (respawnCell_spec p cy s c g n Hy).
    set (st := if restorable _ _ _ then _ else _).
    assert (Hst : forall cx' cy',
               length (fst st) = length g
               /\ tileAt (fst st) (Z.of_nat cx') (Z.of_nat cy') = _)
      by (intros cx' cy'; exact (restore_tileAt p cy s c g n cx' cy')).
    destruct st as [g1 n1]; cbn [fst] in Hst.
    assert (Hl : length g1 = length g) by (apply (Hst O O)).
    destruct (IH (S s) g1 n1) as (g' & n' & Hrun & Hlen & Htile); [lia|].
    exists g', n'. split; [exact Hrun|]. split; [lia|].
    intros cx' cy'. rewrite Htile.
    rewrite (proj2 (Hst cx' cy')).
    destruct (Nat.eqb_spec cy' cy) as [->|Hne]; cbn [andb].
    2:{ destruct (Nat.eqb_spec cy cy'); [congruence|]. now rewrite andb_false_r. }
    rewrite Nat.eqb_refl, andb_true_r.
    destruct (Nat.leb_spec (S s) cx') as [Hlt|Hge]; cbn [andb].
    + destruct (Nat.eqb_spec s cx'); [lia|].
      destruct (Nat.leb_spec s cx'); [|lia]. cbn [andb].
      replace (cx' - s)%nat with (S (cx' - S s)) by lia. reflexivity.
    + destruct (Nat.eqb_spec s cx') as [<-|Hne].
      * rewrite Nat.leb_refl, Nat.sub_diag. cbn [andb nth_error].
        destruct (restorable _ _ _); reflexivity.
      * destruct (Nat.leb_spec s cx'); [lia|]. reflexivity.
Qed.

(** The outer loop over the rows [s], [s + 1], ... *)
Lemma respawnRows_spec (p : option Entity) (M : Grid) :
  forall (s : nat) (g : Grid) (n : Z),
    (s + length M <= length g)%nat ->
    exists g' n',
      forEachM (fun yr => respawnRow p (fst yr) (snd yr))
               (combine (seq s (length M)) M) (g, n) = Some (g', n')
      /\ length g' = length g
      /\ forall cx' cy' : nat,
          tileAt g' (Z.of_nat cx') (Z.of_nat cy')
          = if (s <=? cy')%nat
               && restorable (match nth_error M (cy' - s) with
                              | Some row => nth_error row cx'
                              | None => None
                              end)
                             (tileAt g (Z.of_nat cx') (Z.of_nat cy'))
                             (playerAt p (Z.of_nat cx') (Z.of_nat cy'))
            then Some TileType.PELLET
            else tileAt g (Z.of_nat cx') (Z.of_nat cy').
Proof.
  induction M as [|row T IH]; intros s g n Hs.
  - exists g, n. split; [reflexivity|]. split; [reflexivity|].
    intros cx' cy'. destruct (cy' - s)%nat; cbn [nth_error];
      rewrite restorable_None, andb_false_r; reflexivity.
  - cbn [length] in Hs. cbn [length seq combine forEachM fst snd].
    unfold respawnRow at 1, indexed.
    destruct (respawnCells_spec p s row O g n) as (g1 & n1 & Hrow & Hl1 & Ht1); [lia|].
    rewrite Hrow.
    destruct (IH (S s) g1 n1) as (g' & n' & Hrun & Hlen & Htile); [lia|].
    exists g', n'. split; [exact Hrun|]. split; [lia|].
    intros cx' cy'. rewrite Htile, Ht1.
    change (0 <=? cx')%nat with true. rewrite andb_true_r, Nat.sub_0_r.
    destruct (Nat.leb_spec (S s) cy') as [Hlt|Hge]; cbn [andb].
    + destruct (Nat.eqb_spec cy' s); [lia|].
      destruct (Nat.leb_spec s cy'); [|lia]. cbn [andb].
      replace (cy' - s)%nat with (S (cy' - S s)) by lia. reflexivity.
    + destruct (Nat.eqb_spec cy' s) as [->|Hne]; cbn [andb].
      * rewrite Nat.leb_refl, Nat.sub_diag. cbn [andb nth_error].
        destruct (restorable _ _ _); reflexivity.
      * destruct (Nat.leb_spec s cy'); [lia|]. reflexivity.
Qed.

(** Where no cell is [restorable] the loops change nothing. *)
Lemma respawnCells_idle (p : option Entity) (cy : nat) (l : list TileType.t) :
  forall (s : nat) (g : Grid) (n : Z),
    (cy < length g)%nat ->
    (forall cx', (s <= cx')%nat ->
       restorable (nth_error l (cx' - s))
                  (tileAt g (Z.of_nat cx') (Z.of_nat cy))
                  (playerAt p (Z.of_nat cx') (Z.of_nat cy)) = false) ->
    forEachM (fun xc => respawnCell p cy (fst xc) (snd xc))
             (combine (seq s (length l)) l) (g, n) = Some (g, n).
Proof.
  induction l as [|c t IH]; intros s g n Hy Hno; [reflexivity|].
  cbn [length seq combine forEachM fst snd].
  rewrite (respawnCell_spec p cy s c g n Hy).
  pose proof (Hno s (Nat.le_refl s)) as H0.
  rewrite Nat.sub_diag in H0. cbn [nth_error] in H0. rewrite H0.
  apply IH; [exact Hy|].
  intros cx' Hle. specialize (Hno cx' ltac:(lia)).
  replace (cx' - s)%nat with (S (cx' - S s)) in Hno by lia. exact Hno.
Qed.

Lemma respawnRows_idle (p : option Entity) (M : Grid) :
  forall (s : nat) (g : Grid) (n : Z),
    (s + length M <= length g)%nat ->
    (forall cx' cy', (s <= cy')%nat ->
       restorable (match nth_error M (cy' - s) with
                   | Some row => nth_error row cx'
                   | None => None
                   end)
                  (tileAt g (Z.of_nat cx') (Z.of_nat cy'))
                  (playerAt p (Z.of_nat cx') (Z.of_nat cy')) = false) ->
    forEachM (fun yr => respawnRow p (fst yr) (snd yr))
             (combine (seq s (length M)) M) (g, n) = Some (g, n).
Proof.
  induction M as [|row T IH]; intros s g n Hs Hno; [reflexivity|].
  cbn [length] in Hs. cbn [length seq combine forEachM fst snd].
  unfold respawnRow at 1, indexed.
  rewrite (respawnCells_idle p s row O g n); [|lia|].
  - apply IH; [lia|].
    intros cx' cy' Hle. specialize (Hno cx' cy' ltac:(lia)).
    replace (cy' - s)%nat with (S (cy' - S s)) in Hno by lia. exact Hno.
  - intros cx' _. specialize (Hno cx' s (Nat.le_refl s)).
    rewrite Nat.sub_diag in Hno. cbn [nth_error] in Hno.
    now rewrite Nat.sub_0_r.
Qed.

Lemma tileAt_nat (g : Grid) (cx cy : nat) :
  tileAt g (Z.of_nat cx) (Z.of_nat cy)
  = match nth_error g cy with
    | Some row => nth_error row cx
    | None => None
    end.
Proof.
  unfold tileAt. rewrite rowAt_nat.
  destruct (nth_error g cy); [apply cellAt_nat|reflexivity].
Qed.

(** The two loops together, on a live grid that has the rows of [MAP]. *)
Lemma respawnLoop_spec (MAP : Grid) (p : option Entity) (cur : Grid) :
  (length MAP <= length cur)%nat ->
  exists g' n',
    respawnLoop MAP p cur = Some (g', n')
    /\ length g' = length cur
    /\ forall cx cy : Z,
        tileAt g' cx cy
        = if restorable (tileAt MAP cx cy) (tileAt cur cx cy) (playerAt p cx cy)
          then Some TileType.PELLET
          else tileAt cur cx cy.
Proof.
  intros Hlen. unfold respawnLoop, indexed.
  destruct (respawnRows_spec p MAP O cur 0%Z Hlen) as (g' & n' & Hrun & Hl & Ht).
  exists g', n'. split; [exact Hrun|]. split; [exact Hl|].
  intros cx cy.
  destruct (Z.ltb_spec cx 0) as [Hx|Hx].
  { rewrite !(tileAt_negative _ cx cy) by lia. reflexivity. }
  destruct (Z.ltb_spec cy 0) as [Hy|Hy].
  { rewrite !(tileAt_negative _ cx cy) by lia. reflexivity. }
  rewrite <- (Z2Nat.id cx Hx), <- (Z2Nat.id cy Hy).
  rewrite Ht. change (0 <=? Z.to_nat cy)%nat with true.
  rewrite Nat.sub_0_r, (tileAt_nat MAP). reflexivity.
Qed.

Lemma respawnLoop_idle (MAP : Grid) (p : option Entity) (g : Grid) :
  (length MAP <= length g)%nat ->
  (forall cx cy : Z,
     restorable (tileAt MAP cx cy) (tileAt g cx cy) (playerAt p cx cy) = false) ->
  respawnLoop MAP p g = Some (g, 0%Z).
Proof.
  intros Hlen Hno. unfold respawnLoop, indexed.
  apply respawnRows_idle; [exact Hlen|].
  intros cx' cy' _. rewrite Nat.sub_0_r, <- tileAt_nat. apply Hno.
Qed.

Lemma drawFrom_rows (r : Math.Rng) (a : App) (pac : Entity) (row : list TileType.t) :
  length (GameData.map (gameData (app (drawFrom TILE_SIZE r a pac row))))
  = length (GameData.map (gameData a)).
Proof.
  unfold drawFrom.
  destruct (forEachGhost _ _ _ _ _ _) as [[gs1 c1] r1].
  destruct (if allMerged gs1 then _ else _) as [[u c2] r2]; cbn.
  destruct (isTile _ _); [apply length_setCell|reflexivity].
Qed.

(** Throughout a game the live grid has as many rows as [MAP]: the loops
    of the respawn never read a row that is not there. *)
Lemma inGame_rows (MAP : Grid) (a : App) :
  inGame TILE_SIZE MAP a ->
  length (GameData.map (gameData a)) = length MAP.
Proof.
  induction 1 as [a | a a' Ha IH Hs].
  - cbn. now rewrite length_map.
  - destruct Hs as [key a | a a' Hr | r a f Hd].
    + unfold handleKeyDown. destruct (GameData.pacman (gameData a)); exact IH.
    + unfold respawn in Hr. destruct (GameState_eqb _ _).
      * destruct (respawnLoop_spec MAP (GameData.pacman (gameData a))
                    (GameData.map (gameData a))) as (g' & n' & Hrun & Hl & _); [lia|].
        rewrite Hrun in Hr. injection Hr as <-. cbn. lia.
      * injection Hr as <-. exact IH.
    + cbn. unfold draw in Hd.
      destruct (GameData.pacman (gameData a)) as [pac0|].
      * destruct (rowAt _ _) as [row|]; [|discriminate].
        injection Hd as <-. now rewrite drawFrom_rows.
      * injection Hd as <-. exact IH.
Qed.

(** C9: a firing of the respawn interval during play turns into [PELLET]
    exactly the cells that are [PELLET] in [MAP], [EMPTY] in the live grid
    and not the player's cell, and leaves every other cell as it is; a
    second firing right after it changes nothing at all. *)
Theorem respawn_restores_once (MAP : Grid) (a : App) :
  gameState a = PLAYING ->
  (length MAP <= length (GameData.map (gameData a)))%nat ->
  exists a1,
    respawn MAP a = Some a1
    /\ (forall cx cy : Z,
          tileAt (GameData.map (gameData a1)) cx cy
          = if restorable (tileAt MAP cx cy)
                          (tileAt (GameData.map (gameData a)) cx cy)
                          (playerAt (GameData.pacman (gameData a)) cx cy)
            then Some TileType.PELLET
            else tileAt (GameData.map (gameData a)) cx cy)
    /\ respawn MAP a1 = Some a1.
Proof.
  intros Hp Hlen. unfold respawn at 1. rewrite Hp. cbn [GameState_eqb].
  destruct (respawnLoop_spec MAP (GameData.pacman (gameData a))
              (GameData.map (gameData a)) Hlen) as (g' & n' & Hrun & Hl & Ht).
  rewrite Hrun. eexists. split; [reflexivity|]. cbn [gameData GameData.map].
  split; [exact Ht|].
  unfold respawn. cbn [gameState gameData GameData.pacman GameData.map GameState_eqb].
  rewrite (respawnLoop_idle MAP (GameData.pacman (gameData a)) g'); [reflexivity|lia|].
  intros cx cy. rewrite Ht. unfold restorable.
  destruct (isTile (tileAt MAP cx cy) TileType.PELLET); [|reflexivity].
  destruct (playerAt (GameData.pacman (gameData a)) cx cy);
    [now rewrite !andb_false_r|].
  destruct (isTile (tileAt (GameData.map (gameData a)) cx cy) TileType.EMPTY) eqn:E;
    cbn [andb negb]; [reflexivity|].
  now rewrite E.
Qed.

End Properties.

(** * The properties at work *)

(** The theorem of C8 at a game just started on the corridor. *)
Lemma key_buffered_unless_not_started_witness :
  reachable 32 Ex.corridor (initGame 32 Ex.corridor mount)
  /\ keyDirection "ArrowUp" = Some UP
  /\ ((gameState (initGame 32 Ex.corridor mount) = START ->
       handleKeyDown "ArrowUp" (initGame 32 Ex.corridor mount)
       = initGame 32 Ex.corridor mount)
      /\ (gameState (initGame 32 Ex.corridor mount) <> START ->
          exists pac,
            GameData.pacman (gameData (initGame 32 Ex.corridor mount)) = Some pac
            /\ handleKeyDown "ArrowUp" (initGame 32 Ex.corridor mount)
               = setPacman (initGame 32 Ex.corridor mount)
                           (Some (setNextDirection pac (Some UP))))).
Proof.
  split; [apply reach_init, reach_mount|].
  split; [reflexivity|].
  apply (key_buffered_unless_not_started 32 Ex.corridor "ArrowUp" UP).
  - apply reach_init, reach_mount.
  - reflexivity.
Defined.

(** C8 as stated fails: in a lost game an arrow key still changes the
    state (the player's buffered direction). *)
Lemma key_changes_lost_game :
  gameState Ex.lostGame = LOST
  /\ keyDirection "ArrowUp" = Some UP
  /\ handleKeyDown "ArrowUp" Ex.lostGame <> Ex.lostGame.
Proof.
  split; [reflexivity|]. split; [reflexivity|].
  intros H.
  apply (f_equal (fun a => option_map nextDirection (GameData.pacman (gameData a)))) in H.
  discriminate H.
Qed.

(** C3 as stated fails: a layout without [PACMAN_START] starts a game all
    the same, the player on cell (9, 15). *)
Lemma initGame_without_start_plays :
  hasPacmanStart Ex.noStart = false
  /\ gameState (initGame 32 Ex.noStart mount) = PLAYING
  /\ option_map (fun e => (gridX e, gridY e))
                (GameData.pacman (gameData (initGame 32 Ex.noStart mount)))
     = Some (9, 15)%Z.
Proof. repeat split. Qed.

(** The theorem of C3 at that layout. *)
Lemma initGame_defaults_player_witness :
  hasPacmanStart Ex.noStart = false
  /\ gameState (initGame 32 Ex.noStart mount) = PLAYING
  /\ GameData.pacman (gameData (initGame 32 Ex.noStart mount))
     = Some (setNextDirection (setDirection (newEntity 32 9 15) (Some LEFT))
                              (Some LEFT)).
Proof.
  split; [reflexivity|].
  apply (initGame_defaults_player 32 Ex.noStart mount); reflexivity.
Defined.

Lemma hypot_flat (a : R) : 0 <= a -> Math.hypot a 0 = a.
Proof.
  intros Ha; unfold Math.hypot.
  replace (a * a + 0 * 0) with (a * a) by ring. now apply sqrt_square.
Qed.

(** The resting player of [Ex.endgame] stays where it is. *)
Lemma runner_rests (m : Grid) :
  gridX (updatePosition 32 m Ex.runner) = 10%Z
  /\ gridY (updatePosition 32 m Ex.runner) = 9%Z
  /\ x (updatePosition 32 m Ex.runner) = 336
  /\ y (updatePosition 32 m Ex.runner) = 304.
Proof.
  rewrite updatePosition_idle by reflexivity.
  destruct (atCenter 32 Ex.runner (speed Ex.runner)); cbn;
    unfold centerX, centerY; cbn; repeat split; lra.
Qed.

(** The ultimate ghost, created on cell (9, 9) of [Ex.alley], can only go
    right, and does. *)
Lemma pursuer_sets_off (pac : Entity) :
  updateChasingAI 32 Ex.alley pac Ex.zeros (newUltimateGhost 32 9 9)
  = ({| super := moveAlong 32 (setDirection (snap 32 (super (newUltimateGhost 32 9 9)))
                                           (Some RIGHT));
        isMerging := false; merged := true |},
     fun n => Ex.zeros (S n)).
Proof.
  unfold updateChasingAI.
  set (e := super (newUltimateGhost 32 9 9)).
  assert (Hdec : atCenter 32 e (speed e) || negb (isSome (direction e)) = true)
    by apply orb_true_r.
  assert (Hleg : legal (snap 32 e) Ex.alley = [RIGHT]) by reflexivity.
  assert (Hr : Rltb (Ex.zeros O) 0.8 = true) by (unfold Ex.zeros; Rcompare).
  rewrite Hdec, Hleg. cbn [length Nat.ltb Nat.leb sortBy insertBy].
  unfold Math.random. rewrite Hr. reflexivity.
Qed.

(** C2 as stated fails: in the frame that creates the ultimate ghost in
    [Ex.endgame] it ends 29 units from the player, which is inside 1.2
    tiles (38.4 units), and the frame does not ask for [LOST]. *)
Lemma ultimate_ghost_near_not_lost :
  exists f pac u,
    draw 32 Ex.zeros Ex.endgame = Some f
    /\ allMerged (GameData.ghosts (gameData (app f))) = true
    /\ GameData.pacman (gameData (app f)) = Some pac
    /\ GameData.ultimateGhost (gameData (app f)) = Some u
    /\ Math.hypot (x pac - x (super u)) (y pac - y (super u)) < 1.2 * 32
    /\ ~ In LOST (calls f).
Proof.
  destruct (runner_rests Ex.alley) as (Hgx & Hgy & Hx & Hy).
  pose proof (pursuer_sets_off (updatePosition 32 Ex.alley Ex.runner)) as Hu.
  assert (Hd : Math.hypot
                 (x (updatePosition 32 Ex.alley Ex.runner) - (9 * 32 + 32 / 2 + 3))
                 (y (updatePosition 32 Ex.alley Ex.runner) - (9 * 32 + 32 / 2)) = 29).
  { rewrite Hx, Hy. replace (336 - (9 * 32 + 32 / 2 + 3)) with 29 by lra.
    replace (304 - (9 * 32 + 32 / 2)) with 0 by lra. apply hypot_flat; lra. }
  eexists. exists (updatePosition 32 Ex.alley Ex.runner). eexists.
  split.
  { unfold draw. cbn [Ex.endgame gameData GameData.pacman GameData.map].
    rewrite Hgy. reflexivity. }
  unfold drawFrom. cbn [Ex.endgame gameData GameData.pacman GameData.map
                        GameData.ghosts GameData.score GameData.ultimateGhost
                        pelletsLeft score gameState].
  rewrite Hgx.
  change (isTile (cellAt Ex.alleyRow 10) TileType.PELLET) with false.
  cbv beta iota.
  rewrite forEachGhost_merged by reflexivity.
  change (1500 >=? 1500)%Z with true. cbv beta iota. cbn [List.map].
  match goal with |- context [allMerged ?l] => change (allMerged l) with true end.
  cbv beta iota.
  unfold ultimateFrame. rewrite Hu.
  unfold moveAlong, setDirection, snap, centerX, centerY, newUltimateGhost,
    newGhost, newEntity, setSpeed.
  cbn [super x y direction speed gridX gridY].
  rewrite Hd.
  assert (He : Rltb 29 (32 / 1.2) = false) by Rcompare.
  rewrite He. cbn.
  split; [reflexivity|]. split; [reflexivity|]. split; [reflexivity|].
  cbn [super x y]. rewrite Hd. split; [lra|tauto].
Qed.

(** The theorem of C2 at [Ex.endgame]. *)
Lemma ultimate_collision_witness :
  GameData.pacman (gameData Ex.endgame) = Some Ex.runner
  /\ rowAt (GameData.map (gameData Ex.endgame))
           (gridY (updatePosition 32 Ex.alley Ex.runner))
     = Some Ex.alleyRow
  /\ exists f,
      draw 32 Ex.zeros Ex.endgame = Some f
      /\ GameData.pacman (gameData (app f))
         = Some (updatePosition 32 Ex.alley Ex.runner)
      /\ (allMerged (GameData.ghosts (gameData (app f))) = true ->
          exists u,
            GameData.ultimateGhost (gameData (app f)) = Some u
            /\ (In LOST (calls f) <->
                Math.hypot (x (updatePosition 32 Ex.alley Ex.runner) - x (super u))
                           (y (updatePosition 32 Ex.alley Ex.runner) - y (super u))
                < 32 / 1.2)).
Proof.
  assert (Hrow : rowAt (GameData.map (gameData Ex.endgame))
                       (gridY (updatePosition 32 Ex.alley Ex.runner))
                 = Some Ex.alleyRow).
  { rewrite (proj2 (updatePosition_idle_cell 32 Ex.alley Ex.runner eq_refl eq_refl)).
    reflexivity. }
  split; [reflexivity|]. split; [exact Hrow|].
  exact (ultimate_collision 32 Ex.zeros Ex.endgame Ex.runner _ _
           eq_refl eq_refl Hrow).
Defined.

(** The player of [Ex.snack] crosses into cell (0, 0). *)
Lemma crossing_enters (m : Grid) :
  gridX (updatePosition 32 m Ex.crossing) = 0%Z
  /\ gridY (updatePosition 32 m Ex.crossing) = 0%Z.
Proof.
  rewrite updatePosition_between.
  - cbn; split; apply floor_unique; lra.
  - unfold atCenter. apply andb_false_iff; left.
    unfold centerX; cbn. Rcompare.
Qed.


(** The player of [Ex.photoFinish] crosses into cell (10, 9). *)
Lemma sprinter_enters (m : Grid) :
  updatePosition 32 m Ex.sprinter
  = {| x := 320; y := 304; gridX := 10; gridY := 9;
       direction := Some RIGHT; nextDirection := None; speed := 2 |}.
Proof.
  rewrite updatePosition_between.
  - unfold moveAlong. cbn [Ex.sprinter direction x y speed nextDirection].
    replace (318 + 2) with 320 by lra.
    rewrite (floor_unique (320 / 32) 10), (floor_unique (304 / 32) 9) by lra.
    reflexivity.
  - unfold atCenter. apply andb_false_iff; left.
    unfold centerX; cbn. Rcompare.
Qed.

(** The ultimate ghost of [Ex.photoFinish] goes on to the left. *)
Lemma chaser_goes_on (m : Grid) (pac : Entity) (r : Math.Rng) :
  updateChasingAI 32 m pac r Ex.chaser
  = ({| super := {| x := 344; y := 304; gridX := 10; gridY := 9;
                    direction := Some LEFT; nextDirection := None; speed := 3 |};
        isMerging := false; merged := true |}, r).
Proof.
  rewrite updateChasingAI_between; try reflexivity.
  - unfold moveAlong. cbn [Ex.chaser super direction x y speed nextDirection].
    replace (347 - 3) with 344 by lra.
    rewrite (floor_unique (344 / 32) 10), (floor_unique (304 / 32) 9) by lra.
    reflexivity.
  - unfold atCenter. apply andb_false_iff; left.
    unfold centerX; cbn. Rcompare.
Qed.

(** The frame of [Ex.photoFinish]: the player eats the pellet of cell
    (10, 9), which takes the score to 1800, and [draw] asks for [WON]; the
    ultimate ghost ends 24 units from the player, and [draw] asks for
    [LOST]. *)
Lemma photoFinish_frame :
  draw 32 Ex.zeros Ex.photoFinish
  = Some {| app :=
              {| score := 1800; gameState := PLAYING; pelletsLeft := 1;
                 gameData :=
                   {| GameData.pacman :=
                        Some {| x := 320; y := 304; gridX := 10; gridY := 9;
                                direction := Some RIGHT; nextDirection := None;
                                speed := 2 |};
                      GameData.ghosts := [Ex.gone; Ex.gone];
                      GameData.ultimateGhost :=
                        Some {| super := {| x := 344; y := 304; gridX := 10;
                                            gridY := 9; direction := Some LEFT;
                                            nextDirection := None; speed := 3 |};
                                isMerging := false; merged := true |};
                      GameData.map := setCell Ex.lane 10 9 TileType.EMPTY;
                      GameData.score := 1800 |} |};
            calls := [WON; LOST];
            rng := Ex.zeros |}.
Proof.
  unfold draw. cbn [Ex.photoFinish gameData GameData.pacman GameData.map].
  rewrite sprinter_enters. cbn [gridY gridX].
  change (rowAt Ex.lane 9) with (Some Ex.laneRow). cbv beta iota.
  unfold drawFrom.
  cbn [Ex.photoFinish gameData GameData.pacman GameData.map GameData.ghosts
       GameData.score GameData.ultimateGhost pelletsLeft score gameState gridX gridY].
  change (isTile (cellAt Ex.laneRow 10) TileType.PELLET) with true.
  cbv beta iota.
  rewrite forEachGhost_merged by reflexivity.
  change (1790 + 10 >=? 1500)%Z with true. cbv beta iota. cbn [List.map].
  match goal with |- context [allMerged ?l] => change (allMerged l) with true end.
  cbv beta iota.
  unfold ultimateFrame. rewrite chaser_goes_on. cbn [super x y].
  assert (Hd : Math.hypot (320 - 344) (304 - 304) = 24).
  { unfold Math.hypot.
    replace ((320 - 344) * (320 - 344) + (304 - 304) * (304 - 304)) with (24 * 24)
      by lra.
    apply sqrt_square; lra. }
  rewrite Hd.
  assert (Hn : Rltb 24 (32 / 1.2) = true) by Rcompare.
  rewrite Hn. reflexivity.
Qed.


(** The player of [Ex.scramble] crosses into cell (1, 0). *)
Lemma dasher_enters (m : Grid) :
  updatePosition 32 m Ex.dasher
  = {| x := 62; y := 16; gridX := 1; gridY := 0;
       direction := Some LEFT; nextDirection := None; speed := 2 |}.
Proof.
  rewrite updatePosition_between.
  - unfold moveAlong. cbn [Ex.dasher direction x y speed nextDirection].
    replace (64 - 2) with 62 by lra.
    rewrite (floor_unique (62 / 32) 1), (floor_unique (16 / 32) 0) by lra.
    reflexivity.
  - unfold atCenter. apply andb_false_iff; left.
    unfold centerX; cbn. Rcompare.
Qed.

(** The ghost of [Ex.scramble] goes on to the right. *)
Lemma rival_goes_on (m : Grid) (r : Math.Rng) :
  updateAI 32 m r Ex.rival
  = ({| super := {| x := 42; y := 16; gridX := 1; gridY := 0;
                    direction := Some RIGHT; nextDirection := None; speed := 2 |};
        isMerging := false; merged := false |}, r).
Proof.
  rewrite updateAI_between; try reflexivity.
  - unfold moveAlong. cbn [Ex.rival super setSpeed direction x y speed nextDirection].
    replace (40 + 2) with 42 by lra.
    rewrite (floor_unique (42 / 32) 1), (floor_unique (16 / 32) 0) by lra.
    reflexivity.
  - unfold atCenter. apply andb_false_iff; left.
    unfold centerX; cbn. Rcompare.
Qed.

(** The frame of [Ex.scrambleOn t n]: the player eats the pellet of cell
    (1, 0), the ghost ends 20 units from the player, [draw] asks for [LOST]
    and, if the pellet was the last one, the updater of the pellet count then
    asks for [WON]. *)
Lemma scrambleOn_frame (t : TileType.t) (n : Z) :
  draw 32 Ex.zeros (Ex.scrambleOn t n)
  = Some {| app :=
              {| score := 180; gameState := PLAYING; pelletsLeft := n - 1;
                 gameData :=
                   {| GameData.pacman :=
                        Some {| x := 62; y := 16; gridX := 1; gridY := 0;
                                direction := Some LEFT; nextDirection := None;
                                speed := 2 |};
                      GameData.ghosts :=
                        [{| super := {| x := 42; y := 16; gridX := 1; gridY := 0;
                                        direction := Some RIGHT; nextDirection := None;
                                        speed := 2 |};
                            isMerging := false; merged := false |}];
                      GameData.ultimateGhost := None;
                      GameData.map := [[TileType.EMPTY; TileType.EMPTY;
                                        TileType.EMPTY; t]];
                      GameData.score := 180 |} |};
            calls := [LOST] ++ (if (n - 1 =? 0)%Z then [WON] else []);
            rng := Ex.zeros |}.
Proof.
  unfold draw. cbn [Ex.scrambleOn gameData GameData.pacman GameData.map].
  rewrite dasher_enters. cbn [gridY gridX rowAt Z.ltb Z.compare Z.to_nat nth_error].
  unfold drawFrom.
  cbn [Ex.scrambleOn gameData GameData.pacman GameData.map GameData.ghosts
       GameData.score GameData.ultimateGhost pelletsLeft score gameState gridX gridY].
  change (isTile (cellAt [TileType.EMPTY; TileType.PELLET; TileType.EMPTY; t] 1)
                 TileType.PELLET) with true.
  cbv beta iota.
  change (setCell [[TileType.EMPTY; TileType.PELLET; TileType.EMPTY; t]]
                  1 0 TileType.EMPTY)
    with [[TileType.EMPTY; TileType.EMPTY; TileType.EMPTY; t]].
  cbn [forEachGhost]. unfold ghostFrame.
  change (170 + 10 >=? 1500)%Z with false. cbv beta iota.
  rewrite rival_goes_on. cbn [merged isMerging negb super x y andb].
  assert (Hd : Math.hypot (62 - 42) (16 - 16) = 20).
  { replace (62 - 42) with 20 by lra. replace (16 - 16) with 0 by lra.
    apply hypot_flat; lra. }
  rewrite Hd.
  assert (Hn : Rltb 20 (32 / 1.5) = true) by Rcompare.
  rewrite Hn.
  match goal with |- context [allMerged ?l] => change (allMerged l) with false end.
  cbv beta iota. reflexivity.
Qed.



(** The ghost of the dead end decides on its centre: only [RIGHT] is
    legal, and it turns round. *)
Lemma cornered_turns :
  direction (super (fst (updateAI 32 Ex.corridor Ex.zeros Ex.cornered))) = Some RIGHT.
Proof.
  unfold updateAI. cbn [Ex.cornered merged isMerging super]. unfold roam.
  cbn [super].
  set (e := setSpeed _ 2).
  assert (Hc : atCenter 32 e (speed e) = true).
  { unfold atCenter. apply andb_true_iff. split; unfold centerX, centerY; cbn; Rcompare. }
  assert (Hav : available (snap 32 e) Ex.corridor = [RIGHT]) by reflexivity.
  assert (Hkeep : isSome (direction (snap 32 e))
                  && canMove (snap 32 e) (direction (snap 32 e)) Ex.corridor = false)
    by reflexivity.
  assert (Hpick : pick [RIGHT] (Ex.zeros O) = Some RIGHT).
  { unfold pick, Ex.zeros.
    replace (Math.floor (0 * INR (length [RIGHT]))) with 0%Z; [reflexivity|].
    symmetry. apply floor_unique. cbn. lra. }
  rewrite Hc, Hav, Hkeep. cbn [orb length Nat.ltb Nat.leb].
  unfold Math.random. rewrite Hpick. cbn [fst super].
  apply moveAlong_direction.
Qed.

(** The theorem of C5 at the ghost of the dead end, which reverses: the
    reverse is its only legal direction. *)
Lemma roaming_ghost_never_reverses_witness :
  merged Ex.cornered = false /\ isMerging Ex.cornered = false
  /\ direction (super (fst (updateAI 32 Ex.corridor Ex.zeros Ex.cornered))) = Some RIGHT
  /\ isReverse (direction (super Ex.cornered)) RIGHT = true
  /\ legal (super Ex.cornered) Ex.corridor = [RIGHT].
Proof.
  split; [reflexivity|]. split; [reflexivity|]. split; [exact cornered_turns|].
  split; [reflexivity|].
  exact (proj2 (proj2 (roaming_ghost_never_reverses 32 Ex.corridor Ex.zeros
                         Ex.cornered eq_refl eq_refl))
           RIGHT cornered_turns eq_refl).
Defined.


(** The theorem of C1 at [Ex.snack], where the pellet eaten takes the score
    from 1490 to 1500. *)
Lemma merge_trigger_witness :
  GameData.pacman (gameData Ex.snack) = Some Ex.crossing
  /\ rowAt (GameData.map (gameData Ex.snack))
           (gridY (updatePosition 32 (GameData.map (gameData Ex.snack)) Ex.crossing))
     = Some [TileType.PELLET; TileType.EMPTY; TileType.PELLET]
  /\ exists f,
      draw 32 Ex.zeros Ex.snack = Some f
      /\ GameData.score (gameData (app f)) = 1500%Z
      /\ Forall2 (converges 32) [Ex.stalker] (GameData.ghosts (gameData (app f))).
Proof.
  destruct (crossing_enters (GameData.map (gameData Ex.snack))) as [Hgx Hgy].
  assert (Hrow : rowAt (GameData.map (gameData Ex.snack))
                   (gridY (updatePosition 32 (GameData.map (gameData Ex.snack))
                                          Ex.crossing))
                 = Some [TileType.PELLET; TileType.EMPTY; TileType.PELLET])
    by (rewrite Hgy; reflexivity).
  split; [reflexivity|]. split; [exact Hrow|].
  destruct (merge_trigger 32 Ex.zeros Ex.snack Ex.crossing _ _ eq_refl eq_refl Hrow)
    as (f & Hf & _ & Hc).
  exists f. split; [exact Hf|].
  assert (Hs : GameData.score (gameData (app f)) = 1500%Z).
  { unfold draw in Hf.
    change (GameData.pacman (gameData Ex.snack)) with (Some Ex.crossing) in Hf.
    cbv beta iota zeta in Hf. rewrite Hrow in Hf.
    injection Hf as <-.
    refine (proj1 (proj2 (drawFrom_eat 32 Ex.zeros Ex.snack _ _ _))).
    rewrite (proj1 (crossing_enters _)). reflexivity. }
  split; [exact Hs|]. apply Hc. rewrite Hs. lia.
Defined.

(** The theorem of C4 at a merging ghost. *)
Lemma grid_cell_follows_position_witness :
  10 <= 32
  /\ motionUpdate 32 (super Ex.merging)
                  (super (fst (updateAI 32 Ex.corridor Ex.zeros Ex.merging)))
  /\ inCell 32 (super Ex.merging)
  /\ inCell 32 (super (fst (updateAI 32 Ex.corridor Ex.zeros Ex.merging))).
Proof.
  assert (H10 : 10 <= 32) by lra.
  assert (Hin : inCell 32 (super Ex.merging))
    by (unfold inCell; cbn; split; symmetry; apply floor_unique; lra).
  split; [exact H10|]. split; [apply motion_ghost|]. split; [exact Hin|].
  exact (grid_cell_follows_position 32 _ _ H10
           (motion_ghost 32 Ex.corridor Ex.zeros Ex.merging) Hin).
Defined.

(** The theorem of C9 at [Ex.eaten]: the far pellet comes back, the one
    under the player does not. *)
Lemma respawn_restores_once_witness :
  gameState Ex.eaten = PLAYING
  /\ (length Ex.pantry <= length (GameData.map (gameData Ex.eaten)))%nat
  /\ exists a1,
      respawn Ex.pantry Ex.eaten = Some a1
      /\ tileAt (GameData.map (gameData a1)) 2 0 = Some TileType.PELLET
      /\ tileAt (GameData.map (gameData a1)) 0 0 = Some TileType.EMPTY
      /\ respawn Ex.pantry a1 = Some a1.
Proof.
  assert (Hlen : (length Ex.pantry <= length (GameData.map (gameData Ex.eaten)))%nat)
    by (cbn; lia).
  split; [reflexivity|]. split; [exact Hlen|].
  destruct (respawn_restores_once Ex.pantry Ex.eaten eq_refl Hlen)
    as (a1 & Hr & Ht & Hi).
  exists a1. split; [exact Hr|].
  split; [rewrite Ht; reflexivity|]. split; [rewrite Ht; reflexivity|exact Hi].
Defined.

(** * Further properties of the code *)

Section Further.

Variable TILE_SIZE : R.

(** *** Loops *)

(** A property that every pass of the body keeps is kept by the loop. *)
Lemma forEachM_invariant {A S : Type} (body : A -> S -> option S) (I : S -> Prop)
    (l : list A) :
  (forall a s s', In a l -> body a s = Some s' -> I s -> I s') ->
  forall s s', forEachM body l s = Some s' -> I s -> I s'.
Proof.
  induction l as [|a t IH]; intros Hbody s s' Hrun Hs; cbn in Hrun.
  - now injection Hrun as <-.
  - destruct (body a s) as [s1|] eqn:E; [|discriminate].
    apply (IH (fun b u u' Hin => Hbody b u u' (or_intror Hin)) s1 s' Hrun).
    apply (Hbody a s s1 (or_introl eq_refl) E Hs).
Qed.

Lemma fold_left_invariant {A S : Type} (f : S -> A -> S) (I : S -> Prop)
    (l : list A) :
  (forall a s, In a l -> I s -> I (f s a)) ->
  forall s, I s -> I (fold_left f l s).
Proof.
  induction l as [|a t IH]; intros Hf s Hs; cbn; [exact Hs|].
  apply IH; [intros b u Hin; apply Hf; now right|].
  apply Hf; [now left|exact Hs].
Qed.

(** The pairs of [indexed l] are the elements of [l] with their index. *)
Lemma indexed_from_nth {A : Type} (l : list A) :
  forall (s i : nat) (a : A),
    In (i, a) (combine (seq s (length l)) l) ->
    (s <= i)%nat /\ nth_error l (i - s) = Some a.
Proof.
  induction l as [|b t IH]; intros s i a Hin; cbn in Hin; [contradiction|].
  destruct Hin as [[= <- <-]|Hin].
  - rewrite Nat.sub_diag. split; [lia|reflexivity].
  - apply IH in Hin. destruct Hin as [Hle Hn]. split; [lia|].
    replace (i - s)%nat with (S (i - S s)) by lia. exact Hn.
Qed.

Lemma indexed_nth {A : Type} (l : list A) (i : nat) (a : A) :
  In (i, a) (indexed l) -> nth_error l i = Some a.
Proof.
  intros Hin. apply indexed_from_nth in Hin. now rewrite Nat.sub_0_r in Hin.
Qed.

(** *** Counting tiles *)

Lemma tilesIn_cons (t c : TileType.t) (row : list TileType.t) :
  tilesIn t (c :: row) = (indicator t c + tilesIn t row)%Z.
Proof.
  unfold tilesIn, indicator; cbn [filter].
  destruct (TileType.eqb c t); cbn [length]; lia.
Qed.

Lemma tilesIn_setNth (t : TileType.t) (row : list TileType.t) :
  forall (i : nat) (c v : TileType.t),
    nth_error row i = Some c ->
    tilesIn t (setNth row i v) = (tilesIn t row - indicator t c + indicator t v)%Z.
Proof.
  induction row as [|b row IH]; intros [|i] c v Hn; cbn in Hn; try discriminate.
  - injection Hn as ->. cbn [setNth]. rewrite !tilesIn_cons. lia.
  - cbn [setNth]. rewrite !tilesIn_cons, (IH i c v Hn). lia.
Qed.

Lemma countTiles_setNth (t : TileType.t) (m : Grid) :
  forall (i : nat) (row row' : list TileType.t),
    nth_error m i = Some row ->
    countTiles t (setNth m i row')
    = (countTiles t m - tilesIn t row + tilesIn t row')%Z.
Proof.
  induction m as [|r m IH]; intros [|i] row row' Hn; cbn in Hn; try discriminate.
  - injection Hn as ->. cbn. lia.
  - cbn [setNth countTiles fold_right]. fold (countTiles t (setNth m i row')).
    fold (countTiles t m). rewrite (IH i row row' Hn). lia.
Qed.

(** Writing a cell changes the count of [t] by what leaves and what comes. *)
Lemma countTiles_setCell (t : TileType.t) (m : Grid) (cx cy : Z) (c v : TileType.t) :
  tileAt m cx cy = Some c ->
  countTiles t (setCell m cx cy v)
  = (countTiles t m - indicator t c + indicator t v)%Z.
Proof.
  unfold tileAt, setCell. destruct (rowAt m cy) as [row|] eqn:Hr; [|discriminate].
  unfold cellAt. destruct (Z.ltb_spec cx 0); [discriminate|]. intros Hc.
  unfold rowAt in Hr. destruct (Z.ltb_spec cy 0); [discriminate|].
  rewrite (countTiles_setNth t m _ row _ Hr), (tilesIn_setNth t row _ c v Hc). lia.
Qed.

(** A quantity that each pass of the inner loop of [initGame] raises by one
    on the tile [t], and leaves alone elsewhere, ends as the number of [t]
    in the layout. *)
Lemma scan_counts (mu : Scan -> Z) (t : TileType.t) :
  (forall cy cx c s, mu (scanCell cy cx c s) = (mu s + indicator t c)%Z) ->
  forall m, mu (scan m) = (mu (mkScan 0 (9, 15)%Z []) + countTiles t m)%Z.
Proof.
  intros Hcell.
  assert (Hrow : forall cy row k acc,
             mu (fold_left (fun acc xc => scanCell cy (fst xc) (snd xc) acc)
                           (combine (seq k (length row)) row) acc)
             = (mu acc + tilesIn t row)%Z).
  { intros cy; induction row as [|c row IH]; intros k acc; cbn [length seq combine fold_left].
    - unfold tilesIn; cbn; lia.
    - rewrite IH, Hcell, tilesIn_cons. cbn [fst snd]. lia. }
  assert (Hrows : forall m k acc,
             mu (fold_left (fun acc yr => scanRow (fst yr) (snd yr) acc)
                           (combine (seq k (length m)) m) acc)
             = (mu acc + countTiles t m)%Z).
  { induction m as [|row m IH]; intros k acc; cbn [length seq combine fold_left].
    - cbn; lia.
    - rewrite IH. cbn [fst snd]. unfold scanRow, indexed. rewrite Hrow.
      cbn [countTiles fold_right]. fold (countTiles t m). lia. }
  intros m. unfold scan, indexed. apply Hrows.
Qed.

Lemma scanCell_pCount (cy cx : nat) (c : TileType.t) (s : Scan) :
  pCount (scanCell cy cx c s) = (pCount s + indicator TileType.PELLET c)%Z.
Proof. destruct c; cbn; lia. Qed.

(** *** The pellet count is the number of pellets on the board *)

(** The loops of the respawn raise the count by one for each pellet they
    put back. *)
Lemma respawnCell_count (p : option Entity) (cy cx : nat) (c : TileType.t)
    (st st' : Grid * Z) :
  respawnCell p cy cx c st = Some st' ->
  (countTiles TileType.PELLET (fst st') - snd st'
   = countTiles TileType.PELLET (fst st) - snd st)%Z
  /\ (snd st <= snd st')%Z.
Proof.
  unfold respawnCell.
  destruct (TileType.eqb c TileType.PELLET); [|intros [= <-]; lia].
  destruct (rowAt (fst st) (Z.of_nat cy)) as [row|] eqn:Hr; [|discriminate].
  destruct (cellAt row (Z.of_nat cx)) as [cur|] eqn:Hc; cbn [isTile];
    [|intros [= <-]; lia].
  destruct (TileType.eqb cur TileType.EMPTY) eqn:He; [|intros [= <-]; lia].
  destruct (pacmanAt p cx cy); intros [= <-]; [lia|]. cbn [fst snd].
  rewrite (countTiles_setCell TileType.PELLET (fst st) _ _ cur TileType.PELLET)
    by (unfold tileAt; now rewrite Hr).
  destruct cur; try discriminate. unfold indicator; cbn [TileType.eqb]. lia.
Qed.

Lemma respawnLoop_count (MAP : Grid) (p : option Entity) (cur g' : Grid) (n' : Z) :
  respawnLoop MAP p cur = Some (g', n') ->
  (countTiles TileType.PELLET g' = countTiles TileType.PELLET cur + n')%Z
  /\ (0 <= n')%Z.
Proof.
  unfold respawnLoop. intros Hrun.
  pose (I := fun st : Grid * Z =>
               (countTiles TileType.PELLET (fst st) - snd st
                = countTiles TileType.PELLET cur)%Z /\ (0 <= snd st)%Z).
  assert (HI : I (g', n')).
  { apply (forEachM_invariant _ I _
             (fun yr st st' _ Hbody Hst =>
                forEachM_invariant _ I _
                  (fun xc u u' _ Hcell Hu =>
                     let H := respawnCell_count p (fst yr) (fst xc) (snd xc) u u' Hcell in
                     conj (eq_trans (proj1 H) (proj1 Hu))
                          (Z.le_trans _ _ _ (proj2 Hu) (proj2 H)))
                  st st' Hbody Hst)
             _ _ Hrun).
    unfold I; cbn [fst snd]; lia. }
  unfold I in HI; cbn [fst snd] in HI; lia.
Qed.

(** X1: throughout a game the displayed pellet count is the number of
    [PELLET] cells of the live grid: [initGame] counts them, a frame takes
    one off the grid and one off the count, the respawn adds what it puts
    back. *)
Theorem pellet_count_is_exact (MAP : Grid) (a : App) :
  inGame TILE_SIZE MAP a ->
  pelletsLeft a = countTiles TileType.PELLET (GameData.map (gameData a)).
Proof.
  induction 1 as [a | a a' Ha IH Hs].
  - cbn. rewrite map_id.
    rewrite (scan_counts pCount TileType.PELLET scanCell_pCount). reflexivity.
  - destruct Hs as [key a | a a' Hr | r a f Hd].
    + unfold handleKeyDown. destruct (GameData.pacman (gameData a)); exact IH.
    + unfold respawn in Hr. destruct (GameState_eqb _ _).
      * destruct (respawnLoop _ _ _) as [[g' n']|] eqn:Hrun; [|discriminate].
        apply respawnLoop_count in Hrun. destruct Hrun as [Hc Hn].
        injection Hr as <-. cbn [pelletsLeft gameData GameData.map].
        destruct (Z.ltb_spec 0 n'); lia.
      * injection Hr as <-. exact IH.
    + cbn [afterFrame setGameState pelletsLeft gameData]. unfold draw in Hd.
      destruct (GameData.pacman (gameData a)) as [pac0|].
      2:{ injection Hd as <-. exact IH. }
      set (pac := updatePosition _ _ _) in Hd.
      destruct (rowAt _ _) as [row|] eqn:Hrow; [|discriminate].
      injection Hd as <-.
      destruct (drawFrom_pellets TILE_SIZE r a pac row) as (-> & -> & _).
      destruct (cellAt row (gridX pac)) as [c|] eqn:Hc; cbn [isTile]; [|exact IH].
      destruct (TileType.eqb c TileType.PELLET) eqn:Hp; [|exact IH].
      rewrite (countTiles_setCell _ _ _ _ c TileType.EMPTY)
        by (unfold tileAt; now rewrite Hrow).
      destruct c; try discriminate. unfold indicator; cbn [TileType.eqb]. lia.
Qed.

(** *** Where [initGame] puts the actors *)

Lemma fold_left_establish {A S : Type} (f : S -> A -> S) (P : S -> Prop)
    (trig : A -> Prop) (l : list A) :
  (forall a s, In a l -> P s -> P (f s a)) ->
  (forall a s, In a l -> trig a -> P (f s a)) ->
  forall s, P s \/ (exists a, In a l /\ trig a) -> P (fold_left f l s).
Proof.
  induction l as [|a t IH]; intros Hkeep Hset s Hs; cbn.
  - destruct Hs as [Hs|(b & [] & _)]. exact Hs.
  - apply IH.
    + intros b u Hin; apply Hkeep; now right.
    + intros b u Hin; apply Hset; now right.
    + destruct Hs as [Hs|(b & [<-|Hin] & Hb)].
      * left. apply Hkeep; [now left|exact Hs].
      * left. apply Hset; [now left|exact Hb].
      * right. exists b. split; assumption.
Qed.

Lemma indexed_In {A : Type} (l : list A) (a : A) :
  In a l -> exists i, In (i, a) (indexed l).
Proof.
  unfold indexed. generalize O.
  induction l as [|b t IH]; intros k Hin; [contradiction|].
  cbn [length seq combine]. destruct Hin as [<-|Hin].
  - exists k. now left.
  - destruct (IH (S k) Hin) as [i Hi]. exists i. now right.
Qed.

(** A cell met by the loops of [initGame] over [m] holds that tile in [m]. *)
Lemma indexed_tileAt (m : Grid) (cy cx : nat) (row : list TileType.t)
    (c : TileType.t) :
  In (cy, row) (indexed m) -> In (cx, c) (indexed row) ->
  tileAt m (Z.of_nat cx) (Z.of_nat cy) = Some c.
Proof.
  intros Hy Hx. apply indexed_nth in Hy, Hx. now rewrite tileAt_nat, Hy.
Qed.

Lemma scanCell_ghostStarts (cy cx : nat) (c : TileType.t) (s : Scan) :
  ghostStarts (scanCell cy cx c s)
  = if TileType.eqb c TileType.GHOST_START
    then ghostStarts s ++ [(Z.of_nat cx, Z.of_nat cy)]
    else ghostStarts s.
Proof. destruct c; reflexivity. Qed.

Lemma scanCell_pacmanStart (cy cx : nat) (c : TileType.t) (s : Scan) :
  pacmanStart (scanCell cy cx c s)
  = if TileType.eqb c TileType.PACMAN_START
    then (Z.of_nat cx, Z.of_nat cy)
    else pacmanStart s.
Proof. destruct c; reflexivity. Qed.

(** Every start cell that [scan] records for a ghost holds [GHOST_START]. *)
Lemma scan_ghostStarts (m : Grid) :
  Forall (fun pos => tileAt m (fst pos) (snd pos) = Some TileType.GHOST_START)
         (ghostStarts (scan m)).
Proof.
  unfold scan.
  apply (fold_left_invariant
           (fun acc yr => scanRow (fst yr) (snd yr) acc)
           (fun s => Forall (fun pos => tileAt m (fst pos) (snd pos)
                                        = Some TileType.GHOST_START)
                            (ghostStarts s))); [|constructor].
  intros [cy row] s Hy Hs. cbn [fst snd]. unfold scanRow.
  apply (fold_left_invariant
           (fun acc xc => scanCell cy (fst xc) (snd xc) acc)
           (fun s => Forall (fun pos => tileAt m (fst pos) (snd pos)
                                        = Some TileType.GHOST_START)
                            (ghostStarts s))); [|exact Hs].
  intros [cx c] u Hx Hu. cbn [fst snd]. rewrite scanCell_ghostStarts.
  destruct (TileType.eqb c TileType.GHOST_START) eqn:E; [|exact Hu].
  apply Forall_app. split; [exact Hu|]. constructor; [|constructor].
  cbn [fst snd]. rewrite (indexed_tileAt m cy cx row c Hy Hx).
  destruct c; try discriminate. reflexivity.
Qed.

(** If the layout has a [PACMAN_START] tile, the start cell that [scan]
    records for the player holds one. *)
Lemma scan_pacmanStart (m : Grid) :
  hasPacmanStart m = true ->
  tileAt m (fst (pacmanStart (scan m))) (snd (pacmanStart (scan m)))
  = Some TileType.PACMAN_START.
Proof.
  intros Hm. unfold scan.
  set (P := fun s : Scan => tileAt m (fst (pacmanStart s)) (snd (pacmanStart s))
                             = Some TileType.PACMAN_START).
  assert (Hcells : forall cy row, In (cy, row) (indexed m) ->
            forall s,
              P s \/ (exists xc, In xc (indexed row)
                                 /\ TileType.eqb (snd xc) TileType.PACMAN_START = true) ->
              P (scanRow cy row s)).
  { intros cy row Hy. unfold scanRow.
    apply (fold_left_establish
             (fun acc xc => scanCell cy (fst xc) (snd xc) acc) P
             (fun xc => TileType.eqb (snd xc) TileType.PACMAN_START = true)).
    - intros [cx c] s Hx Hs. cbn [fst snd]. unfold P. rewrite scanCell_pacmanStart.
      destruct (TileType.eqb c TileType.PACMAN_START) eqn:E; [|exact Hs].
      cbn [fst snd]. rewrite (indexed_tileAt m cy cx row c Hy Hx).
      destruct c; try discriminate. reflexivity.
    - intros [cx c] s Hx Hc. cbn [fst snd] in *. unfold P.
      rewrite scanCell_pacmanStart, Hc. cbn [fst snd].
      rewrite (indexed_tileAt m cy cx row c Hy Hx).
      destruct c; try discriminate. reflexivity. }
  apply (fold_left_establish
           (fun acc yr => scanRow (fst yr) (snd yr) acc) P
           (fun yr => existsb (fun c => TileType.eqb c TileType.PACMAN_START) (snd yr)
                      = true)).
  - intros [cy row] s Hy Hs. apply (Hcells cy row Hy). now left.
  - intros [cy row] s Hy Hrow. cbn [fst snd] in *. apply (Hcells cy row Hy). right.
    apply existsb_exists in Hrow. destruct Hrow as (c & Hin & Hc).
    destruct (indexed_In row c Hin) as [cx Hx]. exists (cx, c). split; assumption.
  - right. unfold hasPacmanStart in Hm. apply existsb_exists in Hm.
    destruct Hm as (row & Hin & Hrow).
    destruct (indexed_In m row Hin) as [cy Hy]. exists (cy, row). split; assumption.
Qed.

Lemma scanCell_ghostCount (cy cx : nat) (c : TileType.t) (s : Scan) :
  Z.of_nat (length (ghostStarts (scanCell cy cx c s)))
  = (Z.of_nat (length (ghostStarts s)) + indicator TileType.GHOST_START c)%Z.
Proof.
  rewrite scanCell_ghostStarts. unfold indicator.
  destruct (TileType.eqb c TileType.GHOST_START); [|lia].
  rewrite length_app. cbn [length]. lia.
Qed.

(** X2: [initGame] makes one ghost for each [GHOST_START] tile of the
    layout, each a fresh ghost on such a tile; and if the layout has a
    [PACMAN_START] tile the player stands on one, heading left. *)
Theorem initGame_places_actors (MAP : Grid) (a : App) :
  Z.of_nat (length (GameData.ghosts (gameData (initGame TILE_SIZE MAP a))))
  = countTiles TileType.GHOST_START MAP
  /\ Forall (fun g =>
               tileAt MAP (gridX (super g)) (gridY (super g))
               = Some TileType.GHOST_START
               /\ g = newGhost TILE_SIZE (gridX (super g)) (gridY (super g)))
            (GameData.ghosts (gameData (initGame TILE_SIZE MAP a)))
  /\ (hasPacmanStart MAP = true ->
      exists pac,
        GameData.pacman (gameData (initGame TILE_SIZE MAP a)) = Some pac
        /\ tileAt MAP (gridX pac) (gridY pac) = Some TileType.PACMAN_START
        /\ pac = setNextDirection
                   (setDirection (newEntity TILE_SIZE (gridX pac) (gridY pac))
                                 (Some LEFT))
                   (Some LEFT)).
Proof.
  unfold initGame. cbn [gameData GameData.ghosts GameData.pacman].
  rewrite map_id. split; [|split].
  - rewrite length_map.
    rewrite (scan_counts (fun s => Z.of_nat (length (ghostStarts s)))
                         TileType.GHOST_START scanCell_ghostCount).
    reflexivity.
  - apply Forall_map. pose proof (scan_ghostStarts MAP) as H.
    induction H as [|pos l Hpos Hl IH]; constructor; [|exact IH].
    cbn. split; [exact Hpos|reflexivity].
  - intros Hm. eexists. split; [reflexivity|]. cbn. split; [|reflexivity].
    now apply scan_pacmanStart.
Qed.

(** *** The flags of a ghost go one way *)

Lemma roam_merged (m : Grid) (r : Math.Rng) (g : Ghost) :
  merged (fst (roam TILE_SIZE m r g)) = merged g.
Proof.
  unfold roam.
  destruct (if atCenter _ _ _ || _ then _ else _) as [e1 r1]; reflexivity.
Qed.

Lemma updateAI_flags (m : Grid) (r : Math.Rng) (g : Ghost) :
  isMerging (fst (updateAI TILE_SIZE m r g)) = isMerging g
  /\ (merged g = true -> updateAI TILE_SIZE m r g = (g, r))
  /\ (merged (fst (updateAI TILE_SIZE m r g)) = true ->
      merged g = true \/ isMerging g = true).
Proof.
  split; [apply updateAI_isMerging|]. unfold updateAI.
  destruct (merged g) eqn:Hm; [split; auto|].
  split; [discriminate|].
  destruct (isMerging g); [auto|].
  rewrite roam_merged. cbn. auto.
Qed.

Lemma ghostFrame_flags (sc : Z) (pac : Entity) (m : Grid) (r : Math.Rng) (g : Ghost) :
  let g' := fst (fst (ghostFrame TILE_SIZE sc pac m r g)) in
  (isMerging g = true -> isMerging g' = true)
  /\ (merged g = true -> merged g' = true /\ super g' = super g)
  /\ (merged g' = true -> merged g = true \/ isMerging g' = true).
Proof.
  cbv zeta. unfold ghostFrame.
  set (g1 := if (sc >=? 1500)%Z then _ else g).
  assert (H1 : super g1 = super g /\ merged g1 = merged g
               /\ (isMerging g = true -> isMerging g1 = true))
    by (unfold g1; destruct (sc >=? 1500)%Z; auto).
  destruct H1 as (Hs & Hm & Hi).
  destruct (updateAI_flags m r g1) as (Fi & Ff & Fm).
  destruct (updateAI TILE_SIZE m r g1) as [g2 r1] eqn:E. cbn [fst] in *.
  split; [intros H; rewrite Fi; auto|]. split.
  - intros H. rewrite <- Hm in H. specialize (Ff H). injection Ff as -> _.
    split; [exact H|exact Hs].
  - intros H. destruct (Fm H) as [H'|H']; [left; congruence|right; congruence].
Qed.

Lemma snd_forEachGhost_length (sc : Z) (pac : Entity) (m : Grid) (gs : list Ghost) :
  forall r, length (fst (fst (forEachGhost TILE_SIZE sc pac m r gs))) = length gs.
Proof.
  intros r. pose proof (forEachGhost_Forall2 TILE_SIZE (fun _ _ => True) sc pac m
                          (fun _ _ => I) gs r) as H.
  symmetry. eapply Forall2_length, H.
Qed.


(** *** The ultimate ghost *)

Lemma updateChasingAI_merged (m : Grid) (pac : Entity) (r : Math.Rng)
    (u : UltimateGhost) :
  merged (fst (updateChasingAI TILE_SIZE m pac r u)) = merged u.
Proof.
  unfold updateChasingAI.
  destruct (if atCenter _ _ _ || _ then _ else _) as [e1 r1]; reflexivity.
Qed.

Lemma forEachGhost_allMerged (sc : Z) (pac : Entity) (m : Grid) (r : Math.Rng)
    (gs : list Ghost) :
  allMerged gs = true ->
  allMerged (fst (fst (forEachGhost TILE_SIZE sc pac m r gs))) = true.
Proof.
  unfold allMerged. intros H. apply andb_true_iff in H. destruct H as [Hl Hm].
  rewrite (forEachGhost_merged TILE_SIZE sc pac m gs Hm r). cbn [fst].
  rewrite length_map, Hl. cbn [andb].
  rewrite forallb_forall in *. intros g' Hin. apply in_map_iff in Hin.
  destruct Hin as (g & <- & Hin). specialize (Hm g Hin).
  destruct (sc >=? 1500)%Z; exact Hm.
Qed.

(** The ghosts and the ultimate ghost after a frame that found a player. *)
Lemma drawFrom_ultimate (r : Math.Rng) (a : App) (pac : Entity) (row : list TileType.t) :
  let f := drawFrom TILE_SIZE r a pac row in
  (exists sc m1 r0,
      GameData.ghosts (gameData (app f))
      = fst (fst (forEachGhost TILE_SIZE sc pac m1 r0 (GameData.ghosts (gameData a)))))
  /\ (allMerged (GameData.ghosts (gameData (app f))) = true ->
      exists u, GameData.ultimateGhost (gameData (app f)) = Some u
                /\ (forall u0, GameData.ultimateGhost (gameData a) = Some u0 ->
                               merged u = merged u0)
                /\ (GameData.ultimateGhost (gameData a) = None -> merged u = true))
  /\ (allMerged (GameData.ghosts (gameData (app f))) = false ->
      GameData.ultimateGhost (gameData (app f)) = GameData.ultimateGhost (gameData a)).
Proof.
  cbv zeta. unfold drawFrom.
  set (eat := isTile _ _).
  set (m1 := if eat then setCell _ _ _ _ else _).
  set (sc1 := if eat then (_ + 10)%Z else _).
  destruct (forEachGhost TILE_SIZE sc1 pac m1 r (GameData.ghosts (gameData a)))
    as [[gs1 c1] r1] eqn:Eg.
  destruct (allMerged gs1) eqn:Ha.
  - unfold ultimateFrame.
    set (u0 := match GameData.ultimateGhost (gameData a) with
               | Some u => u | None => newUltimateGhost TILE_SIZE 9 9 end).
    pose proof (updateChasingAI_merged m1 pac r1 u0) as Hm.
    destruct (updateChasingAI TILE_SIZE m1 pac r1 u0) as [u r2]. cbn [fst] in Hm.
    cbn. split; [exists sc1, m1, r; now rewrite Eg|]. rewrite Ha.
    split; [|discriminate]. intros _. exists u. split; [reflexivity|].
    unfold u0 in Hm. split.
    + intros u1 E. now rewrite E in Hm.
    + intros E. now rewrite E in Hm.
  - cbn. split; [exists sc1, m1, r; now rewrite Eg|]. rewrite Ha.
    split; [discriminate|reflexivity].
Qed.


(** *** Arrow keys *)

Lemma handleKeyDown_other (key : string) (a : App) :
  keyDirection key = None -> handleKeyDown key a = a.
Proof.
  unfold keyDirection, handleKeyDown.
  destruct (String.eqb key "ArrowUp"); [discriminate|].
  destruct (String.eqb key "ArrowDown"); [discriminate|].
  destruct (String.eqb key "ArrowLeft"); [discriminate|].
  destruct (String.eqb key "ArrowRight"); [discriminate|]. intros _.
  destruct a as [s g p [[pac|] gs u m sc]]; reflexivity.
Qed.

(** X5: the buffer holds one request, the last: an arrow key pressed after
    any other key leaves the state that the arrow key alone would leave; a
    key that is not an arrow key changes nothing. *)
Theorem last_arrow_key_wins (k1 k2 : string) (d : Direction) (a : App) :
  keyDirection k2 = Some d ->
  handleKeyDown k2 (handleKeyDown k1 a) = handleKeyDown k2 a
  /\ (keyDirection k1 = None -> handleKeyDown k1 a = a).
Proof.
  intros H2. split; [|apply handleKeyDown_other].
  destruct (keyDirection k1) as [d1|] eqn:H1.
  - destruct (GameData.pacman (gameData a)) as [pac|] eqn:Hp.
    + rewrite (handleKeyDown_arrow k1 d1 a pac H1 Hp).
      rewrite (handleKeyDown_arrow k2 d a pac H2 Hp).
      now rewrite (handleKeyDown_arrow k2 d
                     (setPacman a (Some (setNextDirection pac (Some d1))))
                     (setNextDirection pac (Some d1)) H2 eq_refl).
    + unfold handleKeyDown at 2. now rewrite Hp.
  - now rewrite (handleKeyDown_other k1 a H1).
Qed.

(** *** Winning *)

(** X6: a frame asks for [WON] only if the player ate a pellet in it (the
    score went up by 10 and the pellet count down by 1): without a pellet no
    score, however high, wins. *)
Theorem won_only_by_eating (r : Math.Rng) (a : App) (f : Frame) :
  draw TILE_SIZE r a = Some f ->
  In WON (calls f) ->
  GameData.score (gameData (app f)) = (GameData.score (gameData a) + 10)%Z
  /\ pelletsLeft (app f) = (pelletsLeft a - 1)%Z
  /\ ((1800 <= GameData.score (gameData (app f)))%Z \/ pelletsLeft (app f) = 0%Z).
Proof.
  unfold draw. destruct (GameData.pacman (gameData a)) as [pac0|].
  2:{ intros [= <-] []. }
  destruct (rowAt _ _) as [row|]; [|discriminate]. intros [= <-].
  set (pac := updatePosition _ _ _).
  destruct (isTile (cellAt row (gridX pac)) TileType.PELLET) eqn:He.
  - destruct (drawFrom_eat TILE_SIZE r a pac row He) as (_ & Hs & _ & Hl & Hw).
    intros Hin. apply Hw in Hin. rewrite Hs, Hl. auto.
  - intros Hin. exfalso. revert Hin. unfold drawFrom. rewrite He. cbn [andb].
    set (sc1 := GameData.score (gameData a)).
    set (m1 := GameData.map (gameData a)).
    pose proof (forEachGhost_calls TILE_SIZE sc1 pac m1 (GameData.ghosts (gameData a)) r)
      as Hg.
    destruct (forEachGhost _ _ _ _ _ _) as [[gs1 c1] r1]; cbn [fst snd] in Hg.
    pose proof (ultimateFrame_calls TILE_SIZE pac m1 r1
                  (GameData.ultimateGhost (gameData a))) as Hu.
    destruct (allMerged gs1).
    + destruct (ultimateFrame _ _ _ _ _) as [[u c2] r2]; cbn [fst snd] in Hu.
      cbn. rewrite !app_nil_r, in_app_iff.
      intros [H|H]; [apply Hg in H|apply Hu in H]; discriminate.
    + cbn. rewrite !app_nil_r. intros H; apply Hg in H; discriminate.
Qed.

(** *** The sort of the pursuit *)

Lemma Rleb_true_iff (a b : R) : Rleb a b = true <-> a <= b.
Proof. unfold Rleb; destruct (Rle_dec a b); split; intros; try easy. Qed.

Lemma insertBy_In {A : Type} (key : A -> R) (a b : A) (l : list A) :
  In b (insertBy key a l) <-> b = a \/ In b l.
Proof.
  induction l as [|c t IH]; cbn.
  - intuition.
  - destruct (Rleb (key a) (key c)); cbn; [intuition|]. rewrite IH. intuition.
Qed.

Lemma sortBy_In {A : Type} (key : A -> R) (b : A) (l : list A) :
  In b (sortBy key l) <-> In b l.
Proof.
  induction l as [|a t IH]; cbn; [tauto|]. rewrite insertBy_In, IH. intuition.
Qed.

Lemma insertBy_sorted {A : Type} (key : A -> R) (a : A) (l : list A) :
  StronglySorted (fun u v => key u <= key v) l ->
  StronglySorted (fun u v => key u <= key v) (insertBy key a l).
Proof.
  induction 1 as [|c t Ht IH Hc]; cbn.
  - constructor; constructor.
  - destruct (Rleb (key a) (key c)) eqn:E.
    + apply Rleb_true_iff in E. constructor; [constructor; assumption|].
      constructor; [exact E|].
      rewrite Forall_forall in *. intros v Hv. specialize (Hc v Hv). lra.
    + assert (Hlt : key c <= key a).
      { destruct (Rle_dec (key a) (key c)) as [H|H].
        - apply Rleb_true_iff in H. congruence.
        - lra. }
      constructor; [exact IH|].
      rewrite Forall_forall in *. intros v Hv. apply insertBy_In in Hv.
      destruct Hv as [->|Hv]; [exact Hlt|now apply Hc].
Qed.

(** The model of [Array.prototype.sort] sorts: its result is in ascending
    order of the key. *)
Lemma sortBy_sorted {A : Type} (key : A -> R) (l : list A) :
  StronglySorted (fun u v => key u <= key v) (sortBy key l).
Proof.
  induction l as [|a t IH]; cbn; [constructor|now apply insertBy_sorted].
Qed.

Lemma sortBy_first {A : Type} (key : A -> R) (l : list A) (h : A) :
  nth_error (sortBy key l) 0 = Some h ->
  In h l /\ forall b, In b l -> key h <= key b.
Proof.
  intros Hh. pose proof (sortBy_sorted key l) as Hs.
  destruct (sortBy key l) as [|h' t] eqn:E; [discriminate|].
  injection Hh as ->.
  assert (Hin : forall b, In b l <-> In b (h :: t))
    by (intros b; rewrite <- E; symmetry; apply sortBy_In).
  split; [apply Hin; now left|].
  intros b Hb. apply Hin in Hb. apply StronglySorted_inv in Hs.
  destruct Hs as [_ Hs]. rewrite Forall_forall in Hs.
  destruct Hb as [<-|Hb]; [lra|now apply Hs].
Qed.

Lemma legal_In (e : Entity) (m : Grid) (d : Direction) :
  In d (legal e m) <-> canMove e (Some d) m = true.
Proof.
  unfold legal. rewrite filter_In. unfold directions.
  destruct d; cbn; intuition.
Qed.

(** X7: where the ultimate ghost decides (on a centre, or with no
    direction) and some direction is legal, it takes a legal one; and when
    the first random number is below 0.8 it takes one whose cell is nearest
    to the player's cell among the legal ones. *)
Theorem pursuit_is_greedy (m : Grid) (pac : Entity) (r : Math.Rng)
    (u : UltimateGhost) :
  atCenter TILE_SIZE (super u) (speed (super u)) = true
  \/ direction (super u) = None ->
  legal (super u) m <> [] ->
  (forall d,
     direction (super (fst (updateChasingAI TILE_SIZE m pac r u))) = Some d ->
     canMove (super u) (Some d) m = true)
  /\ (r O < 0.8 ->
      exists d,
        direction (super (fst (updateChasingAI TILE_SIZE m pac r u))) = Some d
        /\ forall d', canMove (super u) (Some d') m = true ->
                      chaseKey (super u) pac d <= chaseKey (super u) pac d').
Proof.
  intros Hdec Hleg. unfold updateChasingAI.
  set (e := super u) in *.
  assert (Hc : atCenter TILE_SIZE e (speed e) || negb (isSome (direction e)) = true).
  { destruct Hdec as [->| ->]; [reflexivity|apply orb_true_r]. }
  rewrite Hc.
  change (legal (snap TILE_SIZE e) m) with (legal e m).
  change (chaseKey (snap TILE_SIZE e) pac) with (chaseKey e pac).
  destruct (legal e m) as [|d0 l0] eqn:El; [contradiction|].
  cbn [length Nat.ltb Nat.leb].
  rewrite <- El. unfold Math.random.
  assert (Hsorted : forall d, In d (sortBy (chaseKey e pac) (legal e m)) ->
                              canMove e (Some d) m = true)
    by (intros d Hd; apply sortBy_In in Hd; now apply legal_In in Hd).
  destruct (Rltb (r O) 0.8) eqn:Er; cbn [fst super].
  - rewrite moveAlong_direction. cbn [setDirection direction]. split.
    + intros d Hd. apply Hsorted. eapply nth_error_In, Hd.
    + intros _.
      destruct (nth_error (sortBy (chaseKey e pac) (legal e m)) 0) as [h|] eqn:Eh.
      * exists h. split; [reflexivity|].
        intros d' Hd'. apply (sortBy_first _ _ _ Eh). now apply legal_In.
      * exfalso. apply nth_error_None in Eh.
        assert (Hin : In d0 (sortBy (chaseKey e pac) (legal e m)))
          by (apply sortBy_In; rewrite El; now left).
        destruct (sortBy (chaseKey e pac) (legal e m)); [contradiction|cbn in Eh; lia].
  - rewrite moveAlong_direction. cbn [setDirection direction]. split.
    + intros d Hd. apply Hsorted. now apply pick_In in Hd.
    + apply Rltb_false_iff in Er. intros Hlt. lra.
Qed.

(** *** The roaming ghost decides *)

Lemma available_nil (e : Entity) (m : Grid) :
  available e m = [] -> legal e m = [].
Proof.
  unfold available, legal, directions; cbn [filter];
    generalize (canMove e (Some UP) m), (canMove e (Some DOWN) m),
               (canMove e (Some LEFT) m), (canMove e (Some RIGHT) m),
               (direction e);
    intros bu bd bl br cur;
    destruct bu, bd, bl, br, cur as [[]|]; cbn; congruence.
Qed.

(** X8: where a roaming ghost decides (on a centre, or with no direction),
    the direction it leaves with is legal, unless no direction at all is
    legal from its cell: it never heads for a wall when it has a choice. *)
Theorem roaming_ghost_heads_for_open_cells (m : Grid) (r : Math.Rng) (g : Ghost) :
  merged g = false -> isMerging g = false ->
  atCenter TILE_SIZE (super g) 2 = true \/ direction (super g) = None ->
  forall d,
    direction (super (fst (updateAI TILE_SIZE m r g))) = Some d ->
    canMove (super g) (Some d) m = true \/ legal (super g) m = [].
Proof.
  intros Hm Hi Hdec d. unfold updateAI. rewrite Hm, Hi. unfold roam.
  cbn [super isMerging merged].
  set (e := setSpeed (super g) 2).
  assert (Hc : atCenter TILE_SIZE e (speed e) || negb (isSome (direction e)) = true).
  { destruct Hdec as [H|H].
    - change (atCenter TILE_SIZE e (speed e)) with (atCenter TILE_SIZE (super g) 2).
      now rewrite H.
    - change (direction e) with (direction (super g)). rewrite H. apply orb_true_r. }
  rewrite Hc.
  change (available (snap TILE_SIZE e) m) with (available (super g) m).
  change (direction (snap TILE_SIZE e)) with (direction (super g)).
  change (canMove (snap TILE_SIZE e)) with (canMove (super g)).
  assert (Hpick : forall r2, pick (available (super g) m) r2 = Some d ->
                             canMove (super g) (Some d) m = true \/ legal (super g) m = []).
  { intros r2 Hp. left. apply pick_In, available_iff in Hp. tauto. }
  destruct (available (super g) m) as [|a0 l0] eqn:Ea.
  - cbn [length Nat.ltb Nat.leb fst super]. rewrite moveAlong_direction.
    intros _. right. now apply available_nil.
  - cbn [length Nat.ltb Nat.leb]. rewrite <- Ea in *.
    destruct (isSome (direction (super g)) && canMove (super g) (direction (super g)) m)
      eqn:Ek.
    + destruct (Math.random r) as [r1 rng1]. destruct (Rltb r1 0.7).
      * cbn [fst super]. rewrite moveAlong_direction. cbn [snap direction].
        intros Hd. left. apply andb_true_iff in Ek. destruct Ek as [_ Ek].
        change (direction e) with (direction (super g)) in Hd.
        now rewrite Hd in Ek.
      * destruct (Math.random rng1) as [r2 rng2]. cbn [fst super].
        rewrite moveAlong_direction. apply Hpick.
    + destruct (Math.random r) as [r2 rng2]. cbn [fst super].
      rewrite moveAlong_direction. apply Hpick.
Qed.

(** *** A merging ghost arrives *)

Lemma hypot_scale (k a b : R) :
  Math.hypot (k * a) (k * b) = Rabs k * Math.hypot a b.
Proof.
  unfold Math.hypot.
  replace (k * a * (k * a) + k * b * (k * b)) with (k² * (a * a + b * b))
    by (unfold Rsqr; ring).
  rewrite sqrt_mult; [|apply Rle_0_sqr|nra]. now rewrite sqrt_Rsqr_abs.
Qed.

Lemma hypot_opp (a b : R) : Math.hypot (- a) (- b) = Math.hypot a b.
Proof. unfold Math.hypot. f_equal. ring. Qed.

Lemma hypot_zero : Math.hypot 0 0 = 0.
Proof.
  unfold Math.hypot. replace (0 * 0 + 0 * 0) with 0 by ring. apply sqrt_0.
Qed.

Lemma hypot_nonneg (a b : R) : 0 <= Math.hypot a b.
Proof. unfold Math.hypot. apply sqrt_pos. Qed.

Lemma atan2_origin : Math.atan2 0 0 = 0.
Proof.
  unfold Math.atan2.
  destruct (Rlt_dec 0 0); [lra|]. reflexivity.
Qed.

(** After the move of [converge] the ghost is [|h - 3|] from the centre
    point, [h] being its distance before. *)
Lemma converge_step (px py tx ty : R) :
  let h := Math.hypot (px - tx) (py - ty) in
  Math.hypot (px + Math.cos (Math.atan2 (ty - py) (tx - px)) * 3 - tx)
             (py + Math.sin (Math.atan2 (ty - py) (tx - px)) * 3 - ty)
  = Rabs (h - 3).
Proof.
  cbv zeta. set (dx := tx - px). set (dy := ty - py).
  replace (px - tx) with (- dx) by (unfold dx; ring).
  replace (py - ty) with (- dy) by (unfold dy; ring).
  rewrite hypot_opp.
  destruct (Req_dec dx 0) as [Hx|Hx]; [destruct (Req_dec dy 0) as [Hy|Hy]|].
  - rewrite Hx, Hy, atan2_origin, hypot_zero.
    unfold Math.cos, Math.sin. rewrite cos_0, sin_0.
    replace (px + 1 * 3 - tx) with 3 by (unfold dx in Hx; lra).
    replace (py + 0 * 3 - ty) with 0 by (unfold dy in Hy; lra).
    unfold Math.hypot. replace (3 * 3 + 0 * 0) with (3 * 3) by ring.
    rewrite sqrt_square by lra.
    unfold Rabs; destruct (Rcase_abs (0 - 3)); lra.
  - destruct (atan2_direction dy dx (or_intror Hy)) as [-> ->].
    pose proof (hypot_pos dx dy (or_intror Hy)) as Hh.
    set (h := Math.hypot dx dy) in *.
    replace (px + dx / h * 3 - tx) with ((3 - h) / h * dx) by (unfold dx; field; lra).
    replace (py + dy / h * 3 - ty) with ((3 - h) / h * dy) by (unfold dy; field; lra).
    rewrite hypot_scale. fold h.
    unfold Rdiv. rewrite Rabs_mult, (Rabs_right (/ h)).
    + rewrite Rmult_assoc, Rinv_l, Rmult_1_r by lra.
      replace (3 - h) with (- (h - 3)) by ring. apply Rabs_Ropp.
    + apply Rle_ge, Rlt_le, Rinv_0_lt_compat, Hh.
  - destruct (atan2_direction dy dx (or_introl Hx)) as [-> ->].
    pose proof (hypot_pos dx dy (or_introl Hx)) as Hh.
    set (h := Math.hypot dx dy) in *.
    replace (px + dx / h * 3 - tx) with ((3 - h) / h * dx) by (unfold dx; field; lra).
    replace (py + dy / h * 3 - ty) with ((3 - h) / h * dy) by (unfold dy; field; lra).
    rewrite hypot_scale. fold h.
    unfold Rdiv. rewrite Rabs_mult, (Rabs_right (/ h)).
    + rewrite Rmult_assoc, Rinv_l, Rmult_1_r by lra.
      replace (3 - h) with (- (h - 3)) by ring. apply Rabs_Ropp.
    + apply Rle_ge, Rlt_le, Rinv_0_lt_compat, Hh.
Qed.

(** One call of [updateAI] on a merging ghost. *)
Lemma updateAI_merging (m : Grid) (r : Math.Rng) (g : Ghost) :
  isMerging g = true -> merged g = false ->
  exists g',
    updateAI TILE_SIZE m r g = (g', r)
    /\ isMerging g' = true
    /\ (merged g' = true <-> targetDistance TILE_SIZE (super g) < 8)
    /\ (8 <= targetDistance TILE_SIZE (super g) ->
        targetDistance TILE_SIZE (super g')
        = targetDistance TILE_SIZE (super g) - 3).
Proof.
  intros Hi Hm. unfold updateAI. rewrite Hm, Hi. eexists. split; [reflexivity|].
  split; [now rewrite converge_isMerging|].
  unfold converge, targetDistance. cbn [super setSpeed x y speed merged].
  pose proof (converge_step (x (super g)) (y (super g))
                (targetX TILE_SIZE) (targetY TILE_SIZE)) as Hstep.
  cbv zeta in Hstep. rewrite Hstep.
  pose proof (hypot_nonneg (x (super g) - targetX TILE_SIZE)
                           (y (super g) - targetY TILE_SIZE)) as Hh.
  set (h := Math.hypot (x (super g) - targetX TILE_SIZE)
                       (y (super g) - targetY TILE_SIZE)) in *.
  destruct (Rltb (Rabs (h - 3)) 5) eqn:E.
  - apply Rltb_true_iff in E. cbn [merged super x y]. split.
    + split; [intros _|reflexivity].
      unfold Rabs in E; destruct (Rcase_abs (h - 3)); lra.
    + intros H8. unfold Rabs in E; destruct (Rcase_abs (h - 3)); lra.
  - apply Rltb_false_iff in E. cbn [merged super x y]. split.
    + split; [discriminate|]. intros H8.
      unfold Rabs in E; destruct (Rcase_abs (h - 3)); lra.
    + intros H8. rewrite Hstep. apply Rabs_right. lra.
Qed.

Lemma updatesAI_merged (m : Grid) (n : nat) (r : Math.Rng) (g : Ghost) :
  merged g = true -> updatesAI TILE_SIZE m n r g = (g, r).
Proof.
  intros Hm. induction n as [|n IH]; [reflexivity|].
  cbn [updatesAI]. unfold updateAI at 1. now rewrite Hm.
Qed.

(** X9: a merging ghost that is [h] units from the centre point merges in
    this call of [updateAI] exactly if [h < 8]; if not, the call takes it
    exactly 3 units nearer; so it is merged after [n + 1] calls whenever
    [h < 8 + 3 n]. *)
Theorem merging_ghost_arrives (m : Grid) (r : Math.Rng) (g : Ghost) :
  isMerging g = true -> merged g = false ->
  (merged (fst (updateAI TILE_SIZE m r g)) = true <->
   targetDistance TILE_SIZE (super g) < 8)
  /\ (8 <= targetDistance TILE_SIZE (super g) ->
      targetDistance TILE_SIZE (super (fst (updateAI TILE_SIZE m r g)))
      = targetDistance TILE_SIZE (super g) - 3)
  /\ forall n : nat,
      targetDistance TILE_SIZE (super g) < 8 + 3 * INR n ->
      merged (fst (updatesAI TILE_SIZE m (S n) r g)) = true.
Proof.
  intros Hi Hm.
  destruct (updateAI_merging m r g Hi Hm) as (g' & Hg & _ & Hiff & Hstep).
  rewrite Hg. cbn [fst]. split; [exact Hiff|]. split; [exact Hstep|].
  clear g' Hg Hiff Hstep. intros n. revert g Hi Hm.
  induction n as [|n IH]; intros g Hi Hm Hd.
  - cbn [updatesAI].
    destruct (updateAI_merging m r g Hi Hm) as (g' & -> & _ & Hiff & _).
    cbn [fst]. apply Hiff. cbn in Hd. lra.
  - change (updatesAI TILE_SIZE m (S (S n)) r g)
      with (let (g', rng1) := updateAI TILE_SIZE m r g in
            updatesAI TILE_SIZE m (S n) rng1 g').
    destruct (updateAI_merging m r g Hi Hm) as (g' & -> & Hi' & Hiff & Hstep).
    destruct (merged g') eqn:Hm'.
    + now rewrite updatesAI_merged.
    + apply IH; [exact Hi'|exact Hm'|].
      assert (H8 : 8 <= targetDistance TILE_SIZE (super g)).
      { destruct (Rlt_dec (targetDistance TILE_SIZE (super g)) 8) as [H|H]; [|lra].
        apply Hiff in H. discriminate. }
      rewrite (Hstep H8). rewrite S_INR in Hd. lra.
Qed.

(** *** What [canMove] lets through *)

Lemma rowAt_Some_iff (m : Grid) (cy : Z) :
  rowAt m cy <> None <-> (0 <= cy < Z.of_nat (length m))%Z.
Proof.
  unfold rowAt. destruct (Z.ltb_spec cy 0) as [H|H].
  - split; [intros H0; now elim H0|lia].
  - rewrite nth_error_Some. lia.
Qed.

(** A legal move leads to a clear cell. *)
Lemma canMove_clear (e : Entity) (d : Direction) (m : Grid) :
  canMove e (Some d) m = true ->
  clear m (fst (neighbour d (gridX e) (gridY e)))
          (snd (neighbour d (gridX e) (gridY e))).
Proof.
  unfold canMove, clear, tileAt.
  set (nx := match d with
             | LEFT => (gridX e - 1)%Z | RIGHT => (gridX e + 1)%Z | _ => gridX e
             end).
  set (ny := match d with
             | UP => (gridY e - 1)%Z | DOWN => (gridY e + 1)%Z | _ => gridY e
             end).
  replace (fst (neighbour d (gridX e) (gridY e))) with nx by (destruct d; reflexivity).
  replace (snd (neighbour d (gridX e) (gridY e))) with ny by (destruct d; reflexivity).
  destruct (_ || _ || _ || _); [discriminate|].
  destruct (rowAt m ny) as [row|]; [|discriminate].
  intros H. split; [discriminate|].
  destruct (cellAt row nx) as [c|]; [|discriminate].
  destruct c; cbn in H; try discriminate; discriminate.
Qed.

(** On a grid whose rows are all as long as the first, the legal moves are
    those to a cell that is there and is not a wall. *)
Lemma canMove_open (e : Entity) (d : Direction) (m : Grid) :
  rectangular m ->
  canMove e (Some d) m = true <->
  open m (fst (neighbour d (gridX e) (gridY e)))
         (snd (neighbour d (gridX e) (gridY e))).
Proof.
  intros Hrect.
  unfold canMove, open, tileAt.
  set (nx := match d with
             | LEFT => (gridX e - 1)%Z | RIGHT => (gridX e + 1)%Z | _ => gridX e
             end).
  set (ny := match d with
             | UP => (gridY e - 1)%Z | DOWN => (gridY e + 1)%Z | _ => gridY e
             end).
  replace (fst (neighbour d (gridX e) (gridY e))) with nx by (destruct d; reflexivity).
  replace (snd (neighbour d (gridX e) (gridY e))) with ny by (destruct d; reflexivity).
  assert (Hrow : forall row, rowAt m ny = Some row ->
                             length row = length (nth 0 m [])).
  { intros row Hr. apply Hrect. unfold rowAt in Hr.
    destruct (ny <? 0)%Z; [discriminate|]. eapply nth_error_In, Hr. }
  destruct (Z.ltb_spec ny 0) as [Hy0|Hy0]; cbn [orb].
  { split; [discriminate|]. intros (c & Hc & _). unfold rowAt in Hc.
    destruct (Z.ltb_spec ny 0); [discriminate|lia]. }
  destruct (Z.geb_spec ny (Z.of_nat (length m))) as [Hy1|Hy1]; cbn [orb].
  { split; [discriminate|]. intros (c & Hc & _).
    destruct (rowAt m ny) eqn:Hr; [|discriminate].
    assert (rowAt m ny <> None) by congruence.
    apply rowAt_Some_iff in H. lia. }
  destruct (rowAt m ny) as [row|] eqn:Hr.
  2:{ exfalso. assert (H : rowAt m ny <> None) by (apply rowAt_Some_iff; lia).
      now apply H. }
  rewrite <- (Hrow row eq_refl). unfold cellAt.
  destruct (Z.ltb_spec nx 0) as [Hx0|Hx0]; cbn [orb].
  { split; [discriminate|]. intros (c & Hc & _). discriminate. }
  destruct (Z.geb_spec nx (Z.of_nat (length row))) as [Hx1|Hx1].
  { split; [discriminate|]. intros (c & Hc & _).
    assert (nth_error row (Z.to_nat nx) <> None) by congruence.
    apply nth_error_Some in H. lia. }
  destruct (nth_error row (Z.to_nat nx)) as [c|] eqn:Hc.
  - cbn [isTile]. split.
    + intros H. exists c. split; [reflexivity|]. intros ->. discriminate.
    + intros (c' & [= <-] & Hne). destruct c; try reflexivity. now elim Hne.
  - apply nth_error_None in Hc. lia.
Qed.

(** X10: on a grid whose rows are all as long as the first, a move is
    legal exactly if the cell it leads to is there and is not a wall; with
    no direction nothing is legal. *)
Theorem canMove_iff_open (e : Entity) (d : Direction) (m : Grid) :
  rectangular m ->
  (canMove e (Some d) m = true <->
   open m (fst (neighbour d (gridX e) (gridY e)))
          (snd (neighbour d (gridX e) (gridY e))))
  /\ canMove e None m = false.
Proof.
  intros Hrect. split; [now apply canMove_open|reflexivity].
Qed.

(** *** The player keeps to the corridors *)

Lemma floor_cell (v : R) (z : Z) :
  0 < TILE_SIZE ->
  IZR z * TILE_SIZE <= v < IZR z * TILE_SIZE + TILE_SIZE ->
  Math.floor (v / TILE_SIZE) = z.
Proof.
  intros HT Hv. apply floor_unique.
  assert (H : v / TILE_SIZE * TILE_SIZE = v) by (field; lra).
  set (q := v / TILE_SIZE) in *. split; nra.
Qed.

Lemma clear_transport (m m' : Grid) (cx cy : Z) :
  length m' = length m ->
  (forall ax ay, tileAt m ax ay <> Some TileType.WALL ->
                 tileAt m' ax ay <> Some TileType.WALL) ->
  clear m cx cy -> clear m' cx cy.
Proof.
  intros Hl Ht [Hr Hc]. split; [|now apply Ht].
  apply rowAt_Some_iff. apply rowAt_Some_iff in Hr. lia.
Qed.

Lemma onTrack_transport (m m' : Grid) (e : Entity) :
  length m' = length m ->
  (forall ax ay, tileAt m ax ay <> Some TileType.WALL ->
                 tileAt m' ax ay <> Some TileType.WALL) ->
  onTrack TILE_SIZE m e -> onTrack TILE_SIZE m' e.
Proof.
  intros Hl Ht (Hs & Hin & [(Hx & Hy & Hc)|(d & cx & cy & t & Hd & Hc & Hn & Ht' & Hp)]).
  - split; [exact Hs|]. split; [exact Hin|]. left.
    repeat split; try assumption; eapply clear_transport; eauto; apply Hc.
  - split; [exact Hs|]. split; [exact Hin|]. right. exists d, cx, cy, t.
    repeat split; try assumption; try apply Ht'; eapply clear_transport; eauto.
Qed.

(** [onTrack] does not look at the buffered direction. *)
Lemma onTrack_buffer (m : Grid) (e : Entity) (d : Dir) :
  onTrack TILE_SIZE m e -> onTrack TILE_SIZE m (setNextDirection e d).
Proof. intros H; exact H. Qed.

(** An entity on track is on a clear cell. *)
Lemma onTrack_clear (m : Grid) (e : Entity) :
  4 <= TILE_SIZE -> onTrack TILE_SIZE m e -> clear m (gridX e) (gridY e).
Proof.
  intros HT (Hs & [Hgx Hgy] & [(_ & _ & Hc)|(d & cx & cy & t & Hd & Hc & Hn & Ht & Hp)]);
    [exact Hc|].
  assert (HT0 : 0 < TILE_SIZE) by lra.
  rewrite Hgx, Hgy.
  destruct d; cbn [neighbour fst snd offCenter] in *; injection Hp as -> ->;
    rewrite ?(floor_center TILE_SIZE _ HT0).
  - destruct (Rle_dec t (TILE_SIZE / 2)).
    + rewrite (floor_cell _ cy HT0); [exact Hc|lra].
    + rewrite (floor_cell _ (cy - 1)%Z HT0); [exact Hn|rewrite minus_IZR; lra].
  - destruct (Rlt_dec t (TILE_SIZE / 2)).
    + rewrite (floor_cell _ cy HT0); [exact Hc|lra].
    + rewrite (floor_cell _ (cy + 1)%Z HT0); [exact Hn|rewrite plus_IZR; lra].
  - destruct (Rle_dec t (TILE_SIZE / 2)).
    + rewrite (floor_cell _ cx HT0); [exact Hc|lra].
    + rewrite (floor_cell _ (cx - 1)%Z HT0); [exact Hn|rewrite minus_IZR; lra].
  - destruct (Rlt_dec t (TILE_SIZE / 2)).
    + rewrite (floor_cell _ cx HT0); [exact Hc|lra].
    + rewrite (floor_cell _ (cx + 1)%Z HT0); [exact Hn|rewrite plus_IZR; lra].
Qed.

(** From the centre of a clear cell, with no direction or a legal one, the
    move of the frame leaves the entity on track. *)
Lemma onTrack_leave (m : Grid) (e0 : Entity) :
  4 <= TILE_SIZE ->
  speed e0 = 2 -> x e0 = centerX TILE_SIZE e0 -> y e0 = centerY TILE_SIZE e0 ->
  clear m (gridX e0) (gridY e0) ->
  direction e0 = None \/ canMove e0 (direction e0) m = true ->
  onTrack TILE_SIZE m (moveAlong TILE_SIZE e0).
Proof.
  intros HT Hs Hx Hy Hc Hd. unfold moveAlong.
  destruct (direction e0) as [d|] eqn:Ed.
  - destruct Hd as [Hd|Hd]; [discriminate|].
    split; [exact Hs|]. split; [split; reflexivity|]. right.
    exists d, (gridX e0), (gridY e0), 2. cbn [direction x y].
    split; [reflexivity|]. split; [exact Hc|].
    split; [now apply canMove_clear|]. split; [lra|].
    rewrite Hs, Hx, Hy. unfold centerX, centerY. destruct d; reflexivity.
  - split; [exact Hs|]. split.
    + unfold inCell. rewrite Hx, Hy. unfold centerX, centerY.
      rewrite !floor_center by lra. split; reflexivity.
    + left. auto.
Qed.

(** The decision of [updatePosition] on a centre leaves no direction or a
    legal one. *)
Lemma onTrack_decide (m : Grid) (e : Entity) :
  4 <= TILE_SIZE -> speed e = 2 -> clear m (gridX e) (gridY e) ->
  let e0 := snap TILE_SIZE e in
  onTrack TILE_SIZE m
    (moveAlong TILE_SIZE
       (if isSome (nextDirection e0) && canMove e0 (nextDirection e0) m
        then setNextDirection (setDirection e0 (nextDirection e0)) None
        else if isSome (direction e0) && negb (canMove e0 (direction e0) m)
             then setDirection e0 None
             else e0)).
Proof.
  intros HT Hs Hc. cbv zeta.
  assert (HT0 : 0 < TILE_SIZE) by lra.
  destruct (isSome _ && canMove _ (nextDirection (snap TILE_SIZE e)) m) eqn:E1.
  - apply andb_true_iff in E1. destruct E1 as [_ E1].
    apply onTrack_leave; try assumption; try reflexivity. now right.
  - destruct (isSome (direction (snap TILE_SIZE e)) && negb _) eqn:E2.
    + apply onTrack_leave; try assumption; try reflexivity. now left.
    + apply onTrack_leave; try assumption; try reflexivity.
      destruct (direction (snap TILE_SIZE e)) as [d|] eqn:Ed; [|now left].
      right. cbn [isSome andb] in E2. now apply negb_false_iff in E2.
Qed.

(** A frame keeps the player on track. *)
Lemma onTrack_updatePosition (m : Grid) (e : Entity) :
  4 <= TILE_SIZE -> onTrack TILE_SIZE m e ->
  onTrack TILE_SIZE m (updatePosition TILE_SIZE m e).
Proof.
  intros HT He. pose proof (onTrack_clear m e HT He) as Hclear.
  assert (HT0 : 0 < TILE_SIZE) by lra.
  destruct He as (Hs & [Hgx Hgy] & Hpos).
  unfold updatePosition. destruct (atCenter TILE_SIZE e (speed e)) eqn:Hc.
  { now apply onTrack_decide. }
  destruct Hpos as [(Hx & Hy & _)|(d & cx & cy & t & Hd & Hcc & Hn & Ht & Hp)].
  { exfalso. unfold atCenter in Hc. rewrite Hx, Hy, Hs in Hc.
    assert (H0 : forall v, Rltb (Math.abs (v - v)) 2 = true).
    { intros v. apply Rltb_true_iff. unfold Math.abs.
      replace (v - v) with 0 by ring. rewrite Rabs_R0. lra. }
    rewrite !H0 in Hc. discriminate. }
  assert (Hroom : t + 2 <= TILE_SIZE).
  { destruct (Rle_dec (t + 2) TILE_SIZE) as [H|H]; [exact H|exfalso].
    assert (Hlate : TILE_SIZE - 2 < t) by lra.
    unfold atCenter, centerX, centerY in Hc. rewrite Hs, Hgx, Hgy in Hc.
    assert (Hnear : forall v w, - 2 < v - w < 2 -> Rltb (Math.abs (v - w)) 2 = true).
    { intros v w Hvw. apply Rltb_true_iff. unfold Math.abs, Rabs.
      destruct (Rcase_abs (v - w)); lra. }
    destruct d; cbn [offCenter] in Hp; injection Hp as Ex Ey; rewrite Ex, Ey in Hc;
      rewrite ?(floor_center TILE_SIZE _ HT0) in Hc.
    - rewrite (floor_cell _ (cy - 1)%Z HT0) in Hc by (rewrite minus_IZR; lra).
      rewrite !Hnear in Hc by (rewrite ?minus_IZR; lra). discriminate.
    - rewrite (floor_cell _ (cy + 1)%Z HT0) in Hc by (rewrite plus_IZR; lra).
      rewrite !Hnear in Hc by (rewrite ?plus_IZR; lra). discriminate.
    - rewrite (floor_cell _ (cx - 1)%Z HT0) in Hc by (rewrite minus_IZR; lra).
      rewrite !Hnear in Hc by (rewrite ?minus_IZR; lra). discriminate.
    - rewrite (floor_cell _ (cx + 1)%Z HT0) in Hc by (rewrite plus_IZR; lra).
      rewrite !Hnear in Hc by (rewrite ?plus_IZR; lra). discriminate. }
  unfold moveAlong. rewrite Hd.
  split; [exact Hs|]. split; [split; reflexivity|]. right.
  exists d, cx, cy, (t + 2). cbn [direction x y].
  split; [reflexivity|]. split; [exact Hcc|]. split; [exact Hn|]. split; [lra|].
  rewrite Hs.
  destruct d; cbn [offCenter] in *; injection Hp as -> ->; f_equal; ring.
Qed.

Lemma setCell_keeps_clear (m : Grid) (cx cy : Z) (v : TileType.t) :
  v <> TileType.WALL ->
  forall ax ay, tileAt m ax ay <> Some TileType.WALL ->
                tileAt (setCell m cx cy v) ax ay <> Some TileType.WALL.
Proof.
  intros Hv ax ay Ha. rewrite tileAt_setCell.
  destruct ((cx =? ax) && (cy =? ay))%Z; [|exact Ha].
  destruct (tileAt m cx cy); [congruence|discriminate].
Qed.

(** In a game on a layout with a start tile the player is on track. *)
Lemma inGame_onTrack (MAP : Grid) (a : App) :
  hasPacmanStart MAP = true -> 4 <= TILE_SIZE ->
  inGame TILE_SIZE MAP a ->
  exists pac,
    GameData.pacman (gameData a) = Some pac
    /\ onTrack TILE_SIZE (GameData.map (gameData a)) pac.
Proof.
  intros Hstart HT. assert (HT0 : 0 < TILE_SIZE) by lra.
  induction 1 as [a | a a' Ha (pac & Hp & Hon) Hs].
  - eexists. split; [reflexivity|]. cbn [gameData GameData.map]. rewrite map_id.
    apply onTrack_buffer. split; [reflexivity|]. split.
    + unfold inCell; cbn. now rewrite !floor_center.
    + left. cbn. split; [reflexivity|]. split; [reflexivity|].
      rewrite ?map_id.
      pose proof (scan_pacmanStart MAP Hstart) as Ht. split.
      * unfold tileAt in Ht. destruct (rowAt MAP _); [discriminate|discriminate Ht].
      * rewrite Ht. discriminate.
  - destruct Hs as [key a | a a' Hr | r a f Hd].
    + unfold handleKeyDown. rewrite Hp. eexists. split; [reflexivity|].
      cbn [setPacman gameData GameData.map].
      destruct (String.eqb key "ArrowUp"), (String.eqb key "ArrowDown"),
        (String.eqb key "ArrowLeft"), (String.eqb key "ArrowRight"); exact Hon.
    + unfold respawn in Hr. destruct (GameState_eqb _ _).
      * destruct (respawnLoop_spec MAP (GameData.pacman (gameData a))
                    (GameData.map (gameData a))) as (g' & n' & Hrun & Hl & Ht).
        { rewrite (inGame_rows TILE_SIZE MAP a Ha). lia. }
        rewrite Hrun in Hr. injection Hr as <-. exists pac.
        split; [exact Hp|]. cbn [gameData GameData.map].
        apply (onTrack_transport (GameData.map (gameData a))); [exact Hl| |exact Hon].
        intros ax ay Hw. rewrite Ht. destruct (restorable _ _ _); [discriminate|exact Hw].
      * injection Hr as <-. exists pac. split; assumption.
    + cbn [afterFrame setGameState gameData]. unfold draw in Hd. rewrite Hp in Hd.
      set (pac' := updatePosition _ _ _) in Hd.
      destruct (rowAt _ _) as [row|]; [|discriminate]. injection Hd as <-.
      exists pac'. split; [apply drawFrom_pacman|].
      destruct (drawFrom_pellets TILE_SIZE r a pac' row) as (-> & _ & _).
      pose proof (onTrack_updatePosition _ _ HT Hon) as Hon'. fold pac' in Hon'.
      destruct (isTile _ _); [|exact Hon'].
      apply (onTrack_transport (GameData.map (gameData a)));
        [apply length_setCell| |exact Hon'].
      apply setCell_keeps_clear. discriminate.
Qed.

(** X11: in a game on a layout that has a [PACMAN_START] tile, with tiles
    at least two steps of the player wide, the player's cell is never a wall
    and always in a row of the grid; so no frame fails on reading the
    player's row. *)
Theorem player_keeps_off_walls (MAP : Grid) (a : App) :
  hasPacmanStart MAP = true -> 4 <= TILE_SIZE ->
  inGame TILE_SIZE MAP a ->
  exists pac,
    GameData.pacman (gameData a) = Some pac
    /\ clear (GameData.map (gameData a)) (gridX pac) (gridY pac)
    /\ forall r, exists f, draw TILE_SIZE r a = Some f.
Proof.
  intros Hstart HT Ha.
  destruct (inGame_onTrack MAP a Hstart HT Ha) as (pac & Hp & Hon).
  exists pac. split; [exact Hp|]. split; [now apply onTrack_clear|].
  intros r. unfold draw. rewrite Hp.
  pose proof (onTrack_clear _ _ HT (onTrack_updatePosition _ _ HT Hon)) as [Hrow _].
  destruct (rowAt _ _) as [row|]; [eexists; reflexivity|now elim Hrow].
Qed.

(** *** A roaming ghost keeps to the corridors *)

Lemma nth_error_same_length {A : Type} (l l' : list A) :
  (forall i, nth_error l' i = None <-> nth_error l i = None) ->
  length l' = length l.
Proof.
  intros H.
  assert (H1 : nth_error l (length l) = None) by (apply nth_error_None; lia).
  assert (H2 : nth_error l' (length l') = None) by (apply nth_error_None; lia).
  apply H in H1. apply H in H2. apply nth_error_None in H1, H2. lia.
Qed.

Lemma repainted_refl (m : Grid) : repainted m m.
Proof. split; [reflexivity|]. intros cx cy. now left. Qed.

Lemma repainted_rectangular (m m' : Grid) :
  repainted m m' -> rectangular m -> rectangular m'.
Proof.
  intros [Hl Ht] Hrect.
  assert (Hrow : forall i row', nth_error m' i = Some row' ->
                   exists row, nth_error m i = Some row /\ length row' = length row).
  { intros i row' Hi. destruct (nth_error m i) as [row|] eqn:Ei.
    - exists row. split; [reflexivity|]. apply nth_error_same_length. intros j.
      specialize (Ht (Z.of_nat j) (Z.of_nat i)). rewrite !tileAt_nat, Hi, Ei in Ht.
      destruct Ht as [->|(c & v & -> & -> & _)]; [reflexivity|].
      split; discriminate.
    - apply nth_error_None in Ei. assert (H : nth_error m' i <> None) by congruence.
      apply nth_error_Some in H. lia. }
  intros row' Hin. apply In_nth_error in Hin. destruct Hin as [i Hi].
  destruct (Hrow i row' Hi) as (row & Er & ->).
  rewrite (Hrect row (nth_error_In _ _ Er)).
  destruct m' as [|r0' t']; [destruct i; discriminate|].
  destruct (Hrow 0%nat r0' eq_refl) as (r0 & E0 & H0).
  destruct m as [|r0m tm]; [discriminate|]. injection E0 as ->.
  cbn [nth]. symmetry. exact H0.
Qed.

Lemma repainted_open (m m' : Grid) (cx cy : Z) :
  repainted m m' -> open m cx cy -> open m' cx cy.
Proof.
  intros [_ Ht] (c & Hc & Hne).
  destruct (Ht cx cy) as [E|(c0 & v & _ & E & Hv)].
  - exists c. split; [congruence|exact Hne].
  - exists v. split; assumption.
Qed.

Lemma repainted_setCell (m : Grid) (cx cy : Z) (v : TileType.t) :
  v <> TileType.WALL -> repainted m (setCell m cx cy v).
Proof.
  intros Hv. split; [apply length_setCell|]. intros ax ay.
  rewrite tileAt_setCell.
  destruct (Z.eqb_spec cx ax) as [<-|Hx]; [|now left].
  destruct (Z.eqb_spec cy ay) as [<-|Hy]; [|now left].
  cbn [andb]. destruct (tileAt m cx cy) as [c|]; [|now left].
  right. exists c, v. auto.
Qed.

Lemma onPatrol_repainted (m m' : Grid) (e : Entity) :
  repainted m m' -> onPatrol TILE_SIZE m e -> onPatrol TILE_SIZE m' e.
Proof.
  intros Hr (Hin & [(Hx & Hy & Hd & Ho)|(d & cx & cy & t & Hd & Hc & Hn & Ht & Hp)]).
  - split; [exact Hin|]. left. repeat split; try assumption.
    now apply (repainted_open m).
  - split; [exact Hin|]. right. exists d, cx, cy, t.
    repeat split; try assumption; try apply Ht; now apply (repainted_open m).
Qed.

(** A ghost on its way that is at the centre test has reached the
    neighbour; one that is not has room for another step. *)
Lemma enRoute_atCenter (e : Entity) (d : Direction) (cx cy : Z) (t : R) :
  4 <= TILE_SIZE -> inCell TILE_SIZE e -> 2 <= t <= TILE_SIZE ->
  (x e, y e) = offCenter TILE_SIZE d cx cy t ->
  if atCenter TILE_SIZE e 2
  then gridX e = fst (neighbour d cx cy) /\ gridY e = snd (neighbour d cx cy)
  else t + 2 <= TILE_SIZE.
Proof.
  intros HT [Hgx Hgy] Ht Hp. assert (HT0 : 0 < TILE_SIZE) by lra.
  assert (Hnear : forall v w, - 2 < v - w < 2 -> Rltb (Math.abs (v - w)) 2 = true).
  { intros v w Hvw. apply Rltb_true_iff. unfold Math.abs, Rabs.
    destruct (Rcase_abs (v - w)); lra. }
  assert (Hfar : forall v w, v - w <= - 2 \/ 2 <= v - w ->
                             Rltb (Math.abs (v - w)) 2 = false).
  { intros v w Hvw. apply Rltb_false_iff. unfold Math.abs, Rabs.
    destruct (Rcase_abs (v - w)); lra. }
  unfold atCenter, centerX, centerY. rewrite Hgx, Hgy.
  destruct d; cbn [offCenter neighbour fst snd] in *; injection Hp as Ex Ey;
    rewrite Ex, Ey; rewrite ?(floor_center TILE_SIZE _ HT0).
  - destruct (Rle_dec t (TILE_SIZE / 2)).
    + rewrite (floor_cell _ cy HT0) by lra.
      rewrite (Hfar (_ - t)) by lra. rewrite andb_false_r. lra.
    + rewrite (floor_cell _ (cy - 1)%Z HT0) by (rewrite minus_IZR; lra).
      rewrite (Hnear (IZR cx * _ + _)) by lra. cbn [andb].
      destruct (Rlt_dec (TILE_SIZE - t) 2).
      * rewrite Hnear by (rewrite minus_IZR; lra). split; reflexivity.
      * rewrite Hfar by (rewrite minus_IZR; lra). lra.
  - destruct (Rlt_dec t (TILE_SIZE / 2)).
    + rewrite (floor_cell _ cy HT0) by lra.
      rewrite (Hfar (_ + t)) by lra. rewrite andb_false_r. lra.
    + rewrite (floor_cell _ (cy + 1)%Z HT0) by (rewrite plus_IZR; lra).
      rewrite (Hnear (IZR cx * _ + _)) by lra. cbn [andb].
      destruct (Rlt_dec (TILE_SIZE - t) 2).
      * rewrite Hnear by (rewrite plus_IZR; lra). split; reflexivity.
      * rewrite Hfar by (rewrite plus_IZR; lra). lra.
  - destruct (Rle_dec t (TILE_SIZE / 2)).
    + rewrite (floor_cell _ cx HT0) by lra.
      rewrite (Hfar (_ - t)) by lra. cbn [andb]. lra.
    + rewrite (floor_cell _ (cx - 1)%Z HT0) by (rewrite minus_IZR; lra).
      rewrite (Hnear (IZR cy * _ + _)) by lra. rewrite andb_true_r.
      destruct (Rlt_dec (TILE_SIZE - t) 2).
      * rewrite Hnear by (rewrite minus_IZR; lra). split; reflexivity.
      * rewrite Hfar by (rewrite minus_IZR; lra). lra.
  - destruct (Rlt_dec t (TILE_SIZE / 2)).
    + rewrite (floor_cell _ cx HT0) by lra.
      rewrite (Hfar (_ + t)) by lra. cbn [andb]. lra.
    + rewrite (floor_cell _ (cx + 1)%Z HT0) by (rewrite plus_IZR; lra).
      rewrite (Hnear (IZR cy * _ + _)) by lra. rewrite andb_true_r.
      destruct (Rlt_dec (TILE_SIZE - t) 2).
      * rewrite Hnear by (rewrite plus_IZR; lra). split; reflexivity.
      * rewrite Hfar by (rewrite plus_IZR; lra). lra.
Qed.

(** From the centre of an open cell, with no direction or a legal one, the
    move of the frame leaves the ghost on patrol. *)
Lemma onPatrol_leave (m : Grid) (e0 : Entity) :
  4 <= TILE_SIZE -> rectangular m ->
  speed e0 = 2 -> x e0 = centerX TILE_SIZE e0 -> y e0 = centerY TILE_SIZE e0 ->
  open m (gridX e0) (gridY e0) ->
  direction e0 = None \/ canMove e0 (direction e0) m = true ->
  onPatrol TILE_SIZE m (moveAlong TILE_SIZE e0).
Proof.
  intros HT Hrect Hs Hx Hy Hc Hd. unfold moveAlong.
  destruct (direction e0) as [d|] eqn:Ed.
  - destruct Hd as [Hd|Hd]; [discriminate|].
    split; [split; reflexivity|]. right.
    exists d, (gridX e0), (gridY e0), 2. cbn [direction x y].
    split; [reflexivity|]. split; [exact Hc|].
    split; [now apply canMove_open|]. split; [lra|].
    rewrite Hs, Hx, Hy. unfold centerX, centerY. destruct d; reflexivity.
  - split.
    + unfold inCell. rewrite Hx, Hy. unfold centerX, centerY.
      rewrite !floor_center by lra. split; reflexivity.
    + left. auto.
Qed.

(** The choice of a roaming ghost on a centre: it leaves with no direction
    or a legal one, if it came with no direction or has a legal move. *)
Lemma onPatrol_decide (m : Grid) (r : Math.Rng) (e : Entity) :
  4 <= TILE_SIZE -> rectangular m -> speed e = 2 ->
  open m (gridX e) (gridY e) ->
  direction e = None \/ legal (snap TILE_SIZE e) m <> [] ->
  let e0 := snap TILE_SIZE e in
  let av := available e0 m in
  onPatrol TILE_SIZE m
    (moveAlong TILE_SIZE
       (fst (if (0 <? length av)%nat then
               if isSome (direction e0) && canMove e0 (direction e0) m then
                 let (r1, rng') := Math.random r in
                 if Rltb r1 0.7 then (e0, rng')
                 else
                   let (r2, rng'') := Math.random rng' in
                   (setDirection e0 (pick av r2), rng'')
               else
                 let (r2, rng') := Math.random r in
                 (setDirection e0 (pick av r2), rng')
             else (e0, r)))).
Proof.
  intros HT Hrect Hs Ho Hd. cbv zeta.
  assert (Hpick : forall r2,
             onPatrol TILE_SIZE m
               (moveAlong TILE_SIZE
                  (setDirection (snap TILE_SIZE e)
                                (pick (available (snap TILE_SIZE e) m) r2)))).
  { intros r2. apply onPatrol_leave; try assumption; try reflexivity.
    cbn [setDirection direction].
    destruct (pick _ r2) as [d'|] eqn:Ep; [right|now left].
    apply pick_In, available_iff in Ep. exact (proj1 Ep). }
  destruct (0 <? length _)%nat eqn:El.
  - destruct (isSome _ && canMove _ (direction (snap TILE_SIZE e)) m) eqn:E1.
    + destruct (Math.random r) as [r1 rng']. destruct (Rltb r1 0.7).
      * apply onPatrol_leave; try assumption; try reflexivity.
        right. now apply andb_true_iff in E1.
      * destruct (Math.random rng') as [r2 rng'']. apply Hpick.
    + destruct (Math.random r) as [r2 rng']. apply Hpick.
  - apply onPatrol_leave; try assumption; try reflexivity.
    destruct Hd as [Hd|Hd]; [now left|exfalso].
    apply Hd, available_nil. apply Nat.ltb_ge in El.
    destruct (available _ m); [reflexivity|cbn in El; lia].
Qed.

Lemma neighbour_opposite (d : Direction) (cx cy : Z) :
  neighbour (opposite d) (fst (neighbour d cx cy)) (snd (neighbour d cx cy))
  = (cx, cy).
Proof. destruct d; cbn; f_equal; lia. Qed.

(** A frame of a roaming ghost keeps it on patrol. *)
Lemma onPatrol_roam (m : Grid) (r : Math.Rng) (g : Ghost) :
  4 <= TILE_SIZE -> rectangular m -> speed (super g) = 2 ->
  onPatrol TILE_SIZE m (super g) ->
  onPatrol TILE_SIZE m (super (fst (roam TILE_SIZE m r g))).
Proof.
  intros HT Hrect Hs (Hin & Hpos). unfold roam. rewrite Hs.
  assert (Hfst : forall (c : bool) (p q : Entity * Math.Rng),
             fst (let '(e1, rng1) := if c then p else q in
                  ({| super := moveAlong TILE_SIZE e1; isMerging := isMerging g;
                      merged := merged g |}, rng1))
             = {| super := moveAlong TILE_SIZE (fst (if c then p else q));
                  isMerging := isMerging g; merged := merged g |}).
  { intros c [e1 r1] [e2 r2]. destruct c; reflexivity. }
  rewrite Hfst. cbn [super].
  destruct Hpos as [(Hx & Hy & Hd & Ho)|(d & cx & cy & t & Hd & Hc & Hn & Ht & Hp)].
  - rewrite Hd at 1. cbn [isSome negb]. rewrite orb_true_r.
    apply onPatrol_decide; try assumption. now left.
  - pose proof (enRoute_atCenter _ d cx cy t HT Hin Ht Hp) as Hat.
    destruct (atCenter TILE_SIZE (super g) 2).
    + destruct Hat as [Hgx Hgy]. cbn [orb].
      apply onPatrol_decide; try assumption.
      * rewrite Hgx, Hgy. exact Hn.
      * right. intros Hnil.
        assert (Hback : In (opposite d) (legal (snap TILE_SIZE (super g)) m)).
        { apply legal_In, canMove_open; [exact Hrect|].
          cbn [snap gridX gridY]. rewrite Hgx, Hgy, neighbour_opposite. exact Hc. }
        rewrite Hnil in Hback. destruct Hback.
    + rewrite Hd. cbn [isSome negb orb fst]. unfold moveAlong. rewrite Hd.
      split; [split; reflexivity|]. right.
      exists d, cx, cy, (t + 2). cbn [direction x y].
      split; [reflexivity|]. split; [exact Hc|]. split; [exact Hn|]. split; [lra|].
      rewrite Hs.
      destruct d; cbn [offCenter] in *; injection Hp as -> ->; f_equal; ring.
Qed.

Lemma onPatrol_ghostFrame (sc : Z) (pac : Entity) (m : Grid) (r : Math.Rng)
    (g : Ghost) :
  4 <= TILE_SIZE -> rectangular m ->
  (isMerging g = false -> onPatrol TILE_SIZE m (super g)) ->
  isMerging (fst (fst (ghostFrame TILE_SIZE sc pac m r g))) = false ->
  onPatrol TILE_SIZE m (super (fst (fst (ghostFrame TILE_SIZE sc pac m r g)))).
Proof.
  intros HT Hrect Hg. unfold ghostFrame.
  destruct (sc >=? 1500)%Z.
  - pose proof (updateAI_isMerging TILE_SIZE m r
                  {| super := super g; isMerging := true; merged := merged g |}) as Hi.
    destruct (updateAI _ _ _ _) as [g2 r2]. cbn [fst isMerging] in *. congruence.
  - pose proof (updateAI_isMerging TILE_SIZE m r g) as Hi.
    assert (Hroam : isMerging g = false ->
                    onPatrol TILE_SIZE m (super (fst (updateAI TILE_SIZE m r g)))).
    { intros Hf. unfold updateAI. destruct (merged g); [now apply Hg|].
      rewrite Hf. apply onPatrol_roam; try assumption; [reflexivity|].
      exact (Hg Hf). }
    destruct (updateAI _ _ _ _) as [g2 r2]. cbn [fst] in *.
    intros Hf. apply Hroam. congruence.
Qed.

Lemma Forall2_Forall {A : Type} (P Q : A -> Prop) (l l' : list A) :
  Forall2 (fun a b => P a -> Q b) l l' -> Forall P l -> Forall Q l'.
Proof.
  induction 1 as [|a b l l' Hab _ IH]; intros Hl; [constructor|].
  inversion Hl; subst. constructor; auto.
Qed.

(** In a game on a layout whose rows are all as long as the first, the
    grid keeps that shape and every ghost that is not merging is on
    patrol. *)
Lemma inGame_onPatrol (MAP : Grid) (a : App) :
  rectangular MAP -> 4 <= TILE_SIZE ->
  inGame TILE_SIZE MAP a ->
  rectangular (GameData.map (gameData a))
  /\ Forall (fun g => isMerging g = false ->
                      onPatrol TILE_SIZE (GameData.map (gameData a)) (super g))
            (GameData.ghosts (gameData a)).
Proof.
  intros Hrect HT. assert (HT0 : 0 < TILE_SIZE) by lra.
  induction 1 as [a | a a' Ha [Hr Hgs] Hs].
  - unfold initGame. cbn [gameData GameData.map GameData.ghosts]. rewrite map_id.
    split; [exact Hrect|]. apply Forall_map.
    pose proof (scan_ghostStarts MAP) as H.
    induction H as [|pos l Hpos Hl IH]; constructor; [|exact IH].
    intros _. split.
    + unfold inCell; cbn. now rewrite !floor_center.
    + left. cbn. repeat split. exists TileType.GHOST_START.
      split; [exact Hpos|discriminate].
  - assert (Hpaint : forall m',
               repainted (GameData.map (gameData a)) m' ->
               rectangular m'
               /\ Forall (fun g => isMerging g = false -> onPatrol TILE_SIZE m' (super g))
                         (GameData.ghosts (gameData a))).
    { intros m' Hm'. split; [now apply (repainted_rectangular _ _ Hm')|].
      eapply Forall_impl; [|exact Hgs]. intros g Hg Hf.
      apply (onPatrol_repainted _ _ _ Hm'). now apply Hg. }
    destruct Hs as [key a | a a' Hresp | r a f Hd].
    + unfold handleKeyDown. destruct (GameData.pacman (gameData a)); [|now split].
      destruct (String.eqb key "ArrowUp"), (String.eqb key "ArrowDown"),
        (String.eqb key "ArrowLeft"), (String.eqb key "ArrowRight"); now split.
    + unfold respawn in Hresp. destruct (GameState_eqb _ _).
      * destruct (respawnLoop_spec MAP (GameData.pacman (gameData a))
                    (GameData.map (gameData a))) as (g' & n' & Hrun & Hl & Ht).
        { rewrite (inGame_rows TILE_SIZE MAP a Ha). lia. }
        rewrite Hrun in Hresp. injection Hresp as <-.
        cbn [gameData GameData.map GameData.ghosts]. apply Hpaint.
        split; [exact Hl|]. intros cx cy. rewrite Ht.
        destruct (restorable _ _ _) eqn:Er; [|now left].
        right. unfold restorable in Er.
        apply andb_true_iff in Er. destruct Er as [Er _].
        apply andb_true_iff in Er. destruct Er as [_ Er].
        destruct (tileAt (GameData.map (gameData a)) cx cy) as [c|]; [|discriminate].
        exists c, TileType.PELLET. repeat split. discriminate.
      * injection Hresp as <-. now split.
    + cbn [afterFrame setGameState gameData]. unfold draw in Hd.
      destruct (GameData.pacman (gameData a)) as [pac0|].
      2:{ injection Hd as <-. now split. }
      set (pac' := updatePosition _ _ _) in Hd.
      destruct (rowAt _ _) as [row|]; [|discriminate]. injection Hd as <-.
      rewrite drawFrom_ghosts_map.
      destruct (drawFrom_pellets TILE_SIZE r a pac' row) as (Em & _ & _).
      set (m1 := GameData.map (gameData (app (drawFrom TILE_SIZE r a pac' row)))) in *.
      destruct (Hpaint m1) as [Hr1 Hgs1].
      { rewrite Em. destruct (isTile _ _); [|apply repainted_refl].
        apply repainted_setCell. discriminate. }
      split; [exact Hr1|].
      eapply Forall2_Forall; [|exact Hgs1].
      apply forEachGhost_Forall2. intros r0 g Hg.
      now apply onPatrol_ghostFrame.
Qed.

(** Where an entity on patrol is. *)
Lemma onPatrol_open (m : Grid) (e : Entity) :
  4 <= TILE_SIZE -> onPatrol TILE_SIZE m e -> open m (gridX e) (gridY e).
Proof.
  intros HT ([Hgx Hgy] & [(_ & _ & _ & Hc)|(d & cx & cy & t & Hd & Hc & Hn & Ht & Hp)]);
    [exact Hc|].
  assert (HT0 : 0 < TILE_SIZE) by lra.
  rewrite Hgx, Hgy.
  destruct d; cbn [neighbour fst snd offCenter] in *; injection Hp as -> ->;
    rewrite ?(floor_center TILE_SIZE _ HT0).
  - destruct (Rle_dec t (TILE_SIZE / 2)).
    + rewrite (floor_cell _ cy HT0); [exact Hc|lra].
    + rewrite (floor_cell _ (cy - 1)%Z HT0); [exact Hn|rewrite minus_IZR; lra].
  - destruct (Rlt_dec t (TILE_SIZE / 2)).
    + rewrite (floor_cell _ cy HT0); [exact Hc|lra].
    + rewrite (floor_cell _ (cy + 1)%Z HT0); [exact Hn|rewrite plus_IZR; lra].
  - destruct (Rle_dec t (TILE_SIZE / 2)).
    + rewrite (floor_cell _ cx HT0); [exact Hc|lra].
    + rewrite (floor_cell _ (cx - 1)%Z HT0); [exact Hn|rewrite minus_IZR; lra].
  - destruct (Rlt_dec t (TILE_SIZE / 2)).
    + rewrite (floor_cell _ cx HT0); [exact Hc|lra].
    + rewrite (floor_cell _ (cx + 1)%Z HT0); [exact Hn|rewrite plus_IZR; lra].
Qed.

(** X12: in a game on a layout whose rows are all as long as the first,
    with tiles at least two steps of a ghost wide, every ghost that has not
    been sent to the centre is in a cell of the grid that is not a wall. *)
Theorem roaming_ghost_keeps_off_walls (MAP : Grid) (a : App) :
  rectangular MAP -> 4 <= TILE_SIZE ->
  inGame TILE_SIZE MAP a ->
  Forall (fun g => isMerging g = false ->
                   open (GameData.map (gameData a)) (gridX (super g)) (gridY (super g)))
         (GameData.ghosts (gameData a)).
Proof.
  intros Hrect HT Ha.
  destruct (inGame_onPatrol MAP a Hrect HT Ha) as [_ Hgs].
  eapply Forall_impl; [|exact Hgs]. intros g Hg Hf.
  apply onPatrol_open; [exact HT|now apply Hg].
Qed.

(** *** The score on display *)

(** X13: in a game the score on display is the score of the game data, and
    no step takes it down. *)
Theorem displayed_score_is_the_score (MAP : Grid) (a : App) :
  inGame TILE_SIZE MAP a ->
  score a = GameData.score (gameData a)
  /\ forall a', step TILE_SIZE MAP a a' -> (score a <= score a')%Z.
Proof.
  intros Ha. destruct (inGame_score TILE_SIZE MAP a Ha) as (n & Hg & Hs).
  split; [congruence|]. intros a' Hstep.
  destruct (step_score TILE_SIZE MAP a a' Hstep) as [[_ E]|[_ E]]; lia.
Qed.

(** *** Merged ghosts wait on the centre point *)

Lemma updateAI_rest (m : Grid) (r : Math.Rng) (g : Ghost) :
  let rests (e : Entity) :=
    x e = targetX TILE_SIZE /\ y e = targetY TILE_SIZE /\ direction e = None in
  (merged g = true -> rests (super g)) ->
  merged (fst (updateAI TILE_SIZE m r g)) = true ->
  rests (super (fst (updateAI TILE_SIZE m r g))).
Proof.
  cbv zeta. intros Hg. unfold updateAI.
  destruct (merged g) eqn:Em; [intros _; now apply Hg|].
  destruct (isMerging g).
  - unfold converge. cbn [super merged isMerging].
    destruct (Rltb _ 5); cbn [fst super merged x y direction].
    + intros _. repeat split.
    + congruence.
  - rewrite roam_merged. cbn [merged]. congruence.
Qed.

Lemma ghostFrame_rest (sc : Z) (pac : Entity) (m : Grid) (r : Math.Rng) (g : Ghost) :
  let rests (e : Entity) :=
    x e = targetX TILE_SIZE /\ y e = targetY TILE_SIZE /\ direction e = None in
  (merged g = true -> rests (super g)) ->
  merged (fst (fst (ghostFrame TILE_SIZE sc pac m r g))) = true ->
  rests (super (fst (fst (ghostFrame TILE_SIZE sc pac m r g)))).
Proof.
  cbv zeta. intros Hg. unfold ghostFrame.
  set (g1 := if (sc >=? 1500)%Z then _ else g).
  assert (Hg1 : merged g1 = true ->
                x (super g1) = targetX TILE_SIZE /\ y (super g1) = targetY TILE_SIZE
                /\ direction (super g1) = None).
  { unfold g1. destruct (sc >=? 1500)%Z; exact Hg. }
  pose proof (updateAI_rest m r g1 Hg1) as H. cbv zeta in H.
  destruct (updateAI _ _ _ _) as [g2 r2]. exact H.
Qed.


(** *** The player's cell holds no pellet *)

(** X15: in a game on a layout that has a [PACMAN_START] tile the cell of
    the player never holds a pellet: the start tile is none, a frame eats
    the pellet of the cell the player enters, and the respawn interval
    leaves the player's cell out. *)
Theorem player_cell_holds_no_pellet (MAP : Grid) (a : App) :
  hasPacmanStart MAP = true ->
  inGame TILE_SIZE MAP a ->
  exists pac,
    GameData.pacman (gameData a) = Some pac
    /\ tileAt (GameData.map (gameData a)) (gridX pac) (gridY pac)
       <> Some TileType.PELLET.
Proof.
  intros Hstart. induction 1 as [a | a a' Ha (pac & Hp & Hc) Hs].
  - eexists. split; [reflexivity|]. cbn. rewrite ?map_id.
    rewrite (scan_pacmanStart MAP Hstart). discriminate.
  - destruct Hs as [key a | a a' Hresp | r a f Hd].
    + unfold handleKeyDown. rewrite Hp. eexists. split; [reflexivity|].
      cbn [setPacman gameData GameData.map].
      destruct (String.eqb key "ArrowUp"), (String.eqb key "ArrowDown"),
        (String.eqb key "ArrowLeft"), (String.eqb key "ArrowRight"); exact Hc.
    + unfold respawn in Hresp. destruct (GameState_eqb _ _).
      * destruct (respawnLoop_spec MAP (GameData.pacman (gameData a))
                    (GameData.map (gameData a))) as (g' & n' & Hrun & Hl & Ht).
        { rewrite (inGame_rows TILE_SIZE MAP a Ha). lia. }
        rewrite Hrun in Hresp. injection Hresp as <-. exists pac.
        split; [exact Hp|]. cbn [gameData GameData.map]. rewrite Ht, Hp.
        unfold playerAt. rewrite !Z.eqb_refl. unfold restorable.
        rewrite andb_false_r. exact Hc.
      * injection Hresp as <-. exists pac. split; assumption.
    + cbn [afterFrame setGameState gameData]. unfold draw in Hd. rewrite Hp in Hd.
      set (pac' := updatePosition _ _ _) in Hd.
      destruct (rowAt _ _) as [row|] eqn:Er; [|discriminate]. injection Hd as <-.
      exists pac'. split; [apply drawFrom_pacman|].
      destruct (drawFrom_pellets TILE_SIZE r a pac' row) as (-> & _ & _).
      destruct (isTile _ _) eqn:Ee.
      * rewrite tileAt_setCell, !Z.eqb_refl. cbn [andb].
        destruct (tileAt _ (gridX pac') _); intros E; discriminate E.
      * unfold tileAt. rewrite Er. intros E. rewrite E in Ee. discriminate Ee.
Qed.

End Further.

(** * The further properties at work *)

(** The frame of [Ex.snack] and of [Ex.lastBite]. *)
Lemma crossing_draws (a : App) (row : list TileType.t) :
  GameData.pacman (gameData a) = Some Ex.crossing ->
  rowAt (GameData.map (gameData a)) 0 = Some row ->
  draw 32 Ex.zeros a
  = Some (drawFrom 32 Ex.zeros a
            (updatePosition 32 (GameData.map (gameData a)) Ex.crossing) row).
Proof.
  intros Hp Hr. unfold draw. rewrite Hp.
  rewrite (proj2 (crossing_enters (GameData.map (gameData a)))), Hr. reflexivity.
Qed.

Lemma pellet_count_is_exact_witness :
  inGame 32 Ex.field (initGame 32 Ex.field mount)
  /\ pelletsLeft (initGame 32 Ex.field mount)
     = countTiles TileType.PELLET
                  (GameData.map (gameData (initGame 32 Ex.field mount))).
Proof.
  split; [apply game_start|].
  exact (pellet_count_is_exact 32 Ex.field _ (game_start 32 Ex.field mount)).
Defined.

Lemma initGame_places_actors_witness :
  hasPacmanStart Ex.yard = true
  /\ exists pac,
      GameData.pacman (gameData (initGame 32 Ex.yard mount)) = Some pac
      /\ tileAt Ex.yard (gridX pac) (gridY pac) = Some TileType.PACMAN_START
      /\ pac = setNextDirection
                 (setDirection (newEntity 32 (gridX pac) (gridY pac)) (Some LEFT))
                 (Some LEFT).
Proof.
  split; [reflexivity|].
  exact (proj2 (proj2 (initGame_places_actors 32 Ex.yard mount)) eq_refl).
Defined.



Lemma last_arrow_key_wins_witness :
  keyDirection "ArrowUp" = Some UP
  /\ handleKeyDown "ArrowUp" (handleKeyDown "ArrowLeft" Ex.hunt)
     = handleKeyDown "ArrowUp" Ex.hunt.
Proof.
  split; [reflexivity|].
  exact (proj1 (last_arrow_key_wins "ArrowLeft" "ArrowUp" UP Ex.hunt eq_refl)).
Defined.

Lemma won_only_by_eating_witness :
  draw 32 Ex.zeros Ex.lastBite
  = Some (drawFrom 32 Ex.zeros Ex.lastBite
            (updatePosition 32 (GameData.map (gameData Ex.lastBite)) Ex.crossing)
            [TileType.PELLET; TileType.EMPTY; TileType.EMPTY])
  /\ In WON (calls (drawFrom 32 Ex.zeros Ex.lastBite
                      (updatePosition 32 (GameData.map (gameData Ex.lastBite))
                                      Ex.crossing)
                      [TileType.PELLET; TileType.EMPTY; TileType.EMPTY]))
  /\ pelletsLeft
       (app (drawFrom 32 Ex.zeros Ex.lastBite
               (updatePosition 32 (GameData.map (gameData Ex.lastBite)) Ex.crossing)
               [TileType.PELLET; TileType.EMPTY; TileType.EMPTY]))
     = 0%Z.
Proof.
  pose proof (crossing_draws Ex.lastBite _ eq_refl eq_refl) as Hd.
  assert (He : isTile (cellAt [TileType.PELLET; TileType.EMPTY; TileType.EMPTY]
                         (gridX (updatePosition 32 (GameData.map (gameData Ex.lastBite))
                                                Ex.crossing)))
                      TileType.PELLET = true)
    by (rewrite (proj1 (crossing_enters _)); reflexivity).
  assert (Hw : In WON (calls (drawFrom 32 Ex.zeros Ex.lastBite
                      (updatePosition 32 (GameData.map (gameData Ex.lastBite))
                                      Ex.crossing)
                      [TileType.PELLET; TileType.EMPTY; TileType.EMPTY]))).
  { apply (proj2 (proj2 (proj2 (proj2 (drawFrom_eat 32 Ex.zeros Ex.lastBite _ _ He))))).
    right. reflexivity. }
  split; [exact Hd|]. split; [exact Hw|].
  destruct (won_only_by_eating 32 Ex.zeros Ex.lastBite _ Hd Hw) as (_ & Hl & _).
  rewrite Hl. reflexivity.
Defined.

Lemma pursuit_is_greedy_witness :
  direction (super (newUltimateGhost 32 9 9)) = None
  /\ legal (super (newUltimateGhost 32 9 9)) Ex.alley <> []
  /\ forall d,
      direction (super (fst (updateChasingAI 32 Ex.alley Ex.runner Ex.zeros
                               (newUltimateGhost 32 9 9)))) = Some d ->
      canMove (super (newUltimateGhost 32 9 9)) (Some d) Ex.alley = true.
Proof.
  assert (Hl : legal (super (newUltimateGhost 32 9 9)) Ex.alley <> [])
    by (intros H; discriminate H).
  split; [reflexivity|]. split; [exact Hl|].
  exact (proj1 (pursuit_is_greedy 32 Ex.alley Ex.runner Ex.zeros
                  (newUltimateGhost 32 9 9) (or_intror eq_refl) Hl)).
Defined.

Lemma roaming_ghost_heads_for_open_cells_witness :
  merged (newGhost 32 9 9) = false /\ isMerging (newGhost 32 9 9) = false
  /\ direction (super (newGhost 32 9 9)) = None
  /\ forall d,
      direction (super (fst (updateAI 32 Ex.alley Ex.zeros (newGhost 32 9 9)))) = Some d ->
      canMove (super (newGhost 32 9 9)) (Some d) Ex.alley = true
      \/ legal (super (newGhost 32 9 9)) Ex.alley = [].
Proof.
  split; [reflexivity|]. split; [reflexivity|]. split; [reflexivity|].
  exact (roaming_ghost_heads_for_open_cells 32 Ex.alley Ex.zeros (newGhost 32 9 9)
           eq_refl eq_refl (or_intror eq_refl)).
Defined.

Lemma merging_ghost_arrives_witness :
  isMerging Ex.merging = true /\ merged Ex.merging = false
  /\ (merged (fst (updateAI 32 Ex.corridor Ex.zeros Ex.merging)) = true <->
      targetDistance 32 (super Ex.merging) < 8).
Proof.
  split; [reflexivity|]. split; [reflexivity|].
  exact (proj1 (merging_ghost_arrives 32 Ex.corridor Ex.zeros Ex.merging
                  eq_refl eq_refl)).
Defined.

Lemma corridor_rectangular : rectangular Ex.corridor.
Proof. intros row [<-|[]]. reflexivity. Qed.

Lemma canMove_iff_open_witness :
  rectangular Ex.corridor
  /\ (canMove Ex.player (Some RIGHT) Ex.corridor = true <->
      open Ex.corridor (fst (neighbour RIGHT (gridX Ex.player) (gridY Ex.player)))
                       (snd (neighbour RIGHT (gridX Ex.player) (gridY Ex.player)))).
Proof.
  split; [exact corridor_rectangular|].
  exact (proj1 (canMove_iff_open Ex.player RIGHT Ex.corridor corridor_rectangular)).
Defined.

Lemma player_keeps_off_walls_witness :
  hasPacmanStart Ex.yard = true /\ 4 <= 32
  /\ inGame 32 Ex.yard (initGame 32 Ex.yard mount)
  /\ exists pac,
      GameData.pacman (gameData (initGame 32 Ex.yard mount)) = Some pac
      /\ clear (GameData.map (gameData (initGame 32 Ex.yard mount)))
               (gridX pac) (gridY pac)
      /\ forall r, exists f, draw 32 r (initGame 32 Ex.yard mount) = Some f.
Proof.
  assert (H4 : 4 <= 32) by lra.
  split; [reflexivity|]. split; [exact H4|]. split; [apply game_start|].
  exact (player_keeps_off_walls 32 Ex.yard _ eq_refl H4 (game_start 32 Ex.yard mount)).
Defined.

Lemma yard_rectangular : rectangular Ex.yard.
Proof. intros row [<-|[]]. reflexivity. Qed.

(** The game on [Ex.yard] after its start and one key press. *)
Lemma yard_game : inGame 32 Ex.yard (handleKeyDown "ArrowUp" (initGame 32 Ex.yard mount)).
Proof. apply (game_step 32 Ex.yard _ _ (game_start 32 Ex.yard mount)), step_key. Qed.

Lemma roaming_ghost_keeps_off_walls_witness :
  rectangular Ex.yard /\ 4 <= 32
  /\ inGame 32 Ex.yard (handleKeyDown "ArrowUp" (initGame 32 Ex.yard mount))
  /\ Forall (fun g => isMerging g = false ->
                      open (GameData.map
                              (gameData (handleKeyDown "ArrowUp"
                                           (initGame 32 Ex.yard mount))))
                           (gridX (super g)) (gridY (super g)))
            (GameData.ghosts
               (gameData (handleKeyDown "ArrowUp" (initGame 32 Ex.yard mount)))).
Proof.
  assert (H4 : 4 <= 32) by lra.
  split; [exact yard_rectangular|]. split; [exact H4|]. split; [exact yard_game|].
  exact (roaming_ghost_keeps_off_walls 32 Ex.yard _ yard_rectangular H4 yard_game).
Defined.

Lemma displayed_score_is_the_score_witness :
  inGame 32 Ex.yard (handleKeyDown "ArrowUp" (initGame 32 Ex.yard mount))
  /\ score (handleKeyDown "ArrowUp" (initGame 32 Ex.yard mount))
     = GameData.score (gameData (handleKeyDown "ArrowUp" (initGame 32 Ex.yard mount))).
Proof.
  split; [exact yard_game|].
  exact (proj1 (displayed_score_is_the_score 32 Ex.yard _ yard_game)).
Defined.


Lemma player_cell_holds_no_pellet_witness :
  hasPacmanStart Ex.yard = true
  /\ inGame 32 Ex.yard (handleKeyDown "ArrowUp" (initGame 32 Ex.yard mount))
  /\ exists pac,
      GameData.pacman (gameData (handleKeyDown "ArrowUp" (initGame 32 Ex.yard mount)))
      = Some pac
      /\ tileAt (GameData.map
                   (gameData (handleKeyDown "ArrowUp" (initGame 32 Ex.yard mount))))
                (gridX pac) (gridY pac)
         <> Some TileType.PELLET.
Proof.
  split; [reflexivity|]. split; [exact yard_game|].
  exact (player_cell_holds_no_pellet 32 Ex.yard _ eq_refl yard_game).
Defined.
